(** * Test Studio: run comparison (TestComparison.jsx) and run orchestration

    A shallow embedding of the comparison component
    [src/ui/src/components/test-studio/TestComparison.jsx] together with the
    fragment of JavaScript it is written in, and of the test-run state machine
    described for the backend.

    Conventions of the embedding.
    - JavaScript values are the inductive [value]; JSON documents are values.
      An object is the list of its own enumerable properties in enumeration
      order; a property is looked up from the front.
    - A JavaScript number is a rational, or one of NaN, +Infinity, -Infinity
      ([number]).  Subtraction, multiplication and division round their
      result to the nearest IEEE-754 double, ties to even ([round64]);
      addition, used for token counts only, and the reading of printed
      decimals are exact.  The sign of zero is not represented.
    - A string is the sequence of its UTF-8 bytes.
    - An expression that can raise is a [result]: [Ok v] or [Throw e].
    - Built-ins whose result depends on the engine (JSON.parse, the conversions
      between strings and numbers, toLocaleString) are the fields of a [Host],
      over which every statement is quantified.
    - Colours of rendered arrows are dropped; a rendered cell is its text.
    - The GraphQL query of the component (lines 61-98) is an [answer] given
      from outside; module [Fetch] is what the effect does with it, and
      [TestComparison] starts from the [comparisonData] it stored.

    Layout: the embedding first (modules [JS], [TestComparison],
    [DecimalText], [Columns], [Fetch], [Orchestration]), then its properties
    ([RoundingFacts], [ComparisonFacts], [DecimalTextFacts], [DisplayFacts],
    [ColumnFacts], [RenderFacts], [FetchFacts], [OrchestrationFacts]). *)

From stdpp Require Import gmap strings list.
From Stdlib Require Import ZArith QArith Qround Qabs String Ascii List Bool Lia Lqa.
From Stdlib Require Import DecimalString DecimalN DecimalPos.
Import ListNotations.

Local Open Scope string_scope.
Local Open Scope list_scope.
Set Warnings "-register-all".

(** ** JavaScript values *)

Module JS.

Inductive number : Type :=
| Fin (q : Q)
| NaN
| PInf
| NInf.

Inductive value : Type :=
| VUndefined
| VNull
| VBool (b : bool)
| VNum (n : number)
| VStr (s : string)
| VObj (fields : list (string * value))
| VArr (items : list value).

Inductive error : Type :=
| TypeError
| SyntaxError.

Inductive result (A : Type) : Type :=
| Ok (a : A)
| Throw (e : error).

Arguments Ok {A} a.
Arguments Throw {A} e.

Definition bind {A B : Type} (r : result A) (k : A -> result B) : result B :=
  match r with
  | Ok a => k a
  | Throw e => Throw e
  end.

Notation "'let*' x ':=' r 'in' k" := (bind r (fun x => k))
  (at level 10, x name, r at level 100, k at level 200, only parsing).

(** [Array.prototype.map] with a callback that may raise: the first exception
    aborts the whole map. *)
Fixpoint mapM {A B : Type} (f : A -> result B) (l : list A) : result (list B) :=
  match l with
  | [] => Ok []
  | a :: l' => let* b := f a in let* bs := mapM f l' in Ok (b :: bs)
  end.

(** [Array.prototype.filter] with a callback that may raise. *)
Fixpoint filterM {A : Type} (f : A -> result bool) (l : list A) : result (list A) :=
  match l with
  | [] => Ok []
  | a :: l' => let* b := f a in let* r := filterM f l' in Ok (if b then a :: r else r)
  end.

(** [Array.prototype.some]: stops at the first element the callback accepts. *)
Fixpoint someM {A : Type} (f : A -> result bool) (l : list A) : result bool :=
  match l with
  | [] => Ok false
  | a :: l' => let* b := f a in if b then Ok true else someM f l'
  end.

Definition is_ok {A : Type} (r : result A) : bool :=
  match r with
  | Ok _ => true
  | Throw _ => false
  end.

(** ** Numbers *)

Definition Qltb (a b : Q) : bool := negb (Qle_bool b a).

Definition Qsgn_pick {A : Type} (q : Q) (neg zero pos : A) : A :=
  if Qltb q 0 then neg else if Qeq_bool q 0 then zero else pos.

Definition nneg (a : number) : number :=
  match a with
  | Fin q => Fin (- q)
  | NaN => NaN
  | PInf => NInf
  | NInf => PInf
  end.

(** *** Rounding to a double

    A finite JavaScript number is an IEEE-754 binary64 value.  Measured in
    units of 2^-1074, the smallest positive one, every finite double is a
    whole number of at most 53 significant bits, below 2^2098. *)

Definition two_1074 : Q := inject_Z (2 ^ 1074).

(** The integer nearest to [x]; of two equally near, the even one. *)
Definition round_half_even (x : Q) : Z :=
  let f := Qfloor x in
  match Qcompare (x - inject_Z f) (1 # 2) with
  | Lt => f
  | Gt => (f + 1)%Z
  | Eq => if Z.even f then f else (f + 1)%Z
  end.

(** A magnitude in units of 2^-1074. *)
Definition in_units (q : Q) : Q := Qabs q * two_1074.

(** How many low bits a magnitude of [s] units loses so that 53 remain. *)
Definition dropped_bits (s : Q) : Z := Z.max 0 (Z.log2 (Qfloor s) - 52).

(** [s] units rounded to a whole number of units with 53 significant bits. *)
Definition rounded_units (s : Q) : Z :=
  (round_half_even (s / inject_Z (2 ^ dropped_bits s)) * 2 ^ dropped_bits s)%Z.

(** The double nearest to [q], ties going to the even significand, and an
    infinity when the nearest would need the exponent 1024: what an
    arithmetic operation returns when its exact result is [q]. *)
Definition round64 (q : Q) : number :=
  let r := rounded_units (in_units q) in
  if (2 ^ 2098 <=? r)%Z then (if Qltb q 0 then NInf else PInf)
  else Fin (Qred ((if Qltb q 0 then - inject_Z r else inject_Z r) / two_1074)).

Arguments round64 : simpl never.

(** [q] is the value of a double: rounding gives it back. *)
Definition is_double (q : Q) : bool :=
  match round64 q with
  | Fin r => Qeq_bool r q
  | _ => false
  end.

(** The value of a finite number; zero for the others. *)
Definition finite (n : number) : Q :=
  match n with
  | Fin q => q
  | _ => 0
  end.

(** *** Arithmetic *)

(** [a + b].  The sum is not rounded: the component adds nothing but token
    counts, and the sum of two whole numbers is exact in a double as long as
    it stays below 2^53. *)
Definition nadd (a b : number) : number :=
  match a, b with
  | NaN, _ | _, NaN => NaN
  | Fin x, Fin y => Fin (x + y)
  | PInf, NInf | NInf, PInf => NaN
  | PInf, _ | _, PInf => PInf
  | NInf, _ | _, NInf => NInf
  end.

(** [a - b], [a * b] and [a / b]: the exact result rounded to a double. *)
Definition nsub (a b : number) : number :=
  match a, b with
  | Fin x, Fin y => round64 (x - y)
  | _, _ => nadd a (nneg b)
  end.

Definition nmul (a b : number) : number :=
  match a, b with
  | NaN, _ | _, NaN => NaN
  | Fin x, Fin y => round64 (x * y)
  | Fin x, PInf | PInf, Fin x => Qsgn_pick x NInf NaN PInf
  | Fin x, NInf | NInf, Fin x => Qsgn_pick x PInf NaN NInf
  | PInf, PInf | NInf, NInf => PInf
  | PInf, NInf | NInf, PInf => NInf
  end.

Definition ndiv (a b : number) : number :=
  match a, b with
  | NaN, _ | _, NaN => NaN
  | Fin x, Fin y =>
      if Qeq_bool y 0 then Qsgn_pick x NInf NaN PInf else round64 (x / y)
  | Fin _, (PInf | NInf) => Fin 0
  | PInf, Fin y => if Qltb y 0 then NInf else PInf
  | NInf, Fin y => if Qltb y 0 then PInf else NInf
  | (PInf | NInf), (PInf | NInf) => NaN
  end.

(** [Math.abs] on a number. *)
Definition nabs (a : number) : number :=
  match a with
  | Fin q => Fin (Qabs q)
  | NaN => NaN
  | PInf | NInf => PInf
  end.

(** [a > b] on numbers; false as soon as one side is NaN. *)
Definition ngtb (a b : number) : bool :=
  match a, b with
  | NaN, _ | _, NaN => false
  | Fin x, Fin y => Qltb y x
  | PInf, (Fin _ | NInf) => true
  | Fin _, NInf => true
  | _, _ => false
  end.

(** [a === b] on numbers; NaN is not equal to itself. *)
Definition neqb (a b : number) : bool :=
  match a, b with
  | Fin x, Fin y => Qeq_bool x y
  | PInf, PInf | NInf, NInf => true
  | _, _ => false
  end.

Definition num_of_Z (z : Z) : number := Fin (inject_Z z).

(** ** Truthiness, equality and property access *)

(** ToBoolean: [false], [0], [NaN], the empty string, [null] and [undefined]
    are falsy; every object and array is truthy. *)
Definition truthy (v : value) : bool :=
  match v with
  | VUndefined | VNull => false
  | VBool b => b
  | VNum (Fin q) => negb (Qeq_bool q 0)
  | VNum NaN => false
  | VNum (PInf | NInf) => true
  | VStr s => negb (String.eqb s "")
  | VObj _ | VArr _ => true
  end.

Definition nullish (v : value) : bool :=
  match v with
  | VUndefined | VNull => true
  | _ => false
  end.

(** [a || b] *)
Definition js_or (a b : value) : value := if truthy a then a else b.

(** [v === 'lit'] for a string literal. *)
Definition strict_eq_str (v : value) (lit : string) : bool :=
  match v with
  | VStr s => String.eqb s lit
  | _ => false
  end.

(** [v === 0] *)
Definition strict_eq_zero (v : value) : bool :=
  match v with
  | VNum n => neqb n (Fin 0)
  | _ => false
  end.

Definition string_of_nat (n : nat) : string :=
  NilZero.string_of_uint (Nat.to_uint n).

Fixpoint indexed_from {A : Type} (i : nat) (l : list A) : list (string * A) :=
  match l with
  | [] => []
  | a :: l' => (string_of_nat i, a) :: indexed_from (S i) l'
  end.

Fixpoint chars (s : string) : list value :=
  match s with
  | EmptyString => []
  | String c s' => VStr (String c EmptyString) :: chars s'
  end.

(** The own enumerable properties of a value, in enumeration order: the
    fields of an object, the indices of an array or of a string (one entry per
    character); a number or a boolean has none.  Members inherited from a
    prototype ([length], [toString], ...) are not data and are not listed;
    the component reads none of them through a data key. *)
Definition own_entries (v : value) : list (string * value) :=
  match v with
  | VObj fields => fields
  | VArr items => indexed_from 0 items
  | VStr s => indexed_from 0 (chars s)
  | _ => []
  end.

Fixpoint assoc (k : string) (l : list (string * value)) : value :=
  match l with
  | [] => VUndefined
  | (k', v) :: l' => if String.eqb k k' then v else assoc k l'
  end.

(** [v.k] / [v[k]] on a value that is neither [null] nor [undefined]. *)
Definition get (v : value) (k : string) : value := assoc k (own_entries v).

(** [v.k]: raises a TypeError when [v] is [null] or [undefined]. *)
Definition prop (v : value) (k : string) : result value :=
  if nullish v then Throw TypeError else Ok (get v k).

(** [v?.k] *)
Definition opt_prop (v : value) (k : string) : value :=
  if nullish v then VUndefined else get v k.

(** [Object.entries(v)], [Object.keys(v)], [Object.values(v)]: a TypeError on
    [null] and [undefined]. *)
Definition Object_entries (v : value) : result (list (string * value)) :=
  if nullish v then Throw TypeError else Ok (own_entries v).

Definition Object_keys (v : value) : result (list string) :=
  let* es := Object_entries v in Ok (map fst es).

Definition Object_values (v : value) : result (list value) :=
  let* es := Object_entries v in Ok (map snd es).

(** [s.includes(needle)] *)
Fixpoint includes (s needle : string) : bool :=
  String.prefix needle s ||
  match s with
  | EmptyString => false
  | String _ s' => includes s' needle
  end.

(** ** Built-ins supplied by the engine *)

(** - [JSON_parse s]: the value [JSON.parse(s)] returns, [None] when it raises
      a SyntaxError;
    - [StringToNumber s]: ToNumber applied to the string [s];
    - [FiniteToString q]: Number::toString of the finite number [q];
    - [toLocaleString v]: [v.toLocaleString()] for a number or a string. *)
Record Host : Type := {
  JSON_parse : string -> option value;
  StringToNumber : string -> number;
  FiniteToString : Q -> string;
  toLocaleString : value -> string
}.

Section Conversions.

Variable h : Host.

Definition NumberToString (n : number) : string :=
  match n with
  | Fin q => FiniteToString h q
  | NaN => "NaN"
  | PInf => "Infinity"
  | NInf => "-Infinity"
  end.

(** ToString; an array joins its elements with commas, [null] and
    [undefined] elements printing as nothing. *)
Fixpoint ToString (v : value) : string :=
  match v with
  | VUndefined => "undefined"
  | VNull => "null"
  | VBool true => "true"
  | VBool false => "false"
  | VNum n => NumberToString n
  | VStr s => s
  | VObj _ => "[object Object]"
  | VArr items =>
      (fix join (l : list value) : string :=
         match l with
         | [] => ""
         | x :: l' =>
             (if nullish x then "" else ToString x) +:+
             match l' with
             | [] => ""
             | _ :: _ => "," +:+ join l'
             end
         end) items
  end.

(** ToNumber; a plain object converts through ["[object Object]"], which is
    not a numeric literal. *)
Definition ToNumber (v : value) : number :=
  match v with
  | VUndefined => NaN
  | VNull => Fin 0
  | VBool true => Fin 1
  | VBool false => Fin 0
  | VNum n => n
  | VStr s => StringToNumber h s
  | VObj _ => NaN
  | VArr _ => StringToNumber h (ToString v)
  end.

(** ToPrimitive yields a string for objects and arrays. *)
Definition stringy (v : value) : bool :=
  match v with
  | VStr _ | VObj _ | VArr _ => true
  | _ => false
  end.

(** [a + b]: concatenation as soon as one operand is (or converts to) a
    string, numeric addition otherwise. *)
Definition js_add (a b : value) : value :=
  if stringy a || stringy b
  then VStr (ToString a +:+ ToString b)
  else VNum (nadd (ToNumber a) (ToNumber b)).

(** [a - b], [a * b], [a / b] always convert both operands to numbers. *)
Definition js_sub (a b : value) : number := nsub (ToNumber a) (ToNumber b).
Definition js_mul (a b : value) : number := nmul (ToNumber a) (ToNumber b).
Definition js_div (a b : value) : number := ndiv (ToNumber a) (ToNumber b).

(** *** Number.prototype.toFixed *)

Definition digits (n : Z) : string :=
  NilZero.string_of_uint (N.to_uint (Z.to_N n)).

Fixpoint zeros (k : nat) : string :=
  match k with
  | O => ""
  | S k' => String "0" (zeros k')
  end.

(** Places the decimal point [d] digits from the right, padding with zeros on
    the left so that at least one digit precedes it. *)
Definition insert_point (d : nat) (m : string) : string :=
  let m' := zeros (S d - String.length m) +:+ m in
  let k := String.length m' in
  if Nat.eqb d 0 then m'
  else substring 0 (k - d) m' +:+ "." +:+ substring (k - d) d m'.

Definition pow10 (d : nat) : Q := inject_Z (10 ^ Z.of_nat d).

(** The integer [n] for which [n / 10^d] is nearest to [a]; of two equally
    near, the larger. *)
Definition round_at (d : nat) (a : Q) : Z := Qfloor (a * pow10 d + (1 # 2)).

(** [x.toFixed(d)] on a number [x]. *)
Definition toFixed (d : nat) (x : number) : string :=
  match x with
  | NaN => "NaN"
  | PInf => "Infinity"
  | NInf => "-Infinity"
  | Fin q =>
      let sign := if Qltb q 0 then "-" else "" in
      let a := Qabs q in
      if Qle_bool (pow10 21) a
      then sign +:+ FiniteToString h a
      else sign +:+ insert_point d (digits (round_at d a))
  end.

(** [v.toFixed(d)] on an arbitrary value: only a number has the method; on any
    other value the member is [undefined] and the call raises a TypeError. *)
Definition call_toFixed (v : value) (d : nat) : result string :=
  match v with
  | VNum n => Ok (toFixed d n)
  | _ => Throw TypeError
  end.

End Conversions.

(** *** parseFloat and the percentage pattern *)

Definition digit_of (c : ascii) : option Z :=
  let n := nat_of_ascii c in
  if (48 <=? n)%nat && (n <=? 57)%nat then Some (Z.of_nat (n - 48)) else None.

(** Reads the longest run of decimal digits: its value on top of [acc], how
    many digits were read, and the rest of the string. *)
Fixpoint read_digits (s : string) (acc : Z) (cnt : nat) : Z * nat * string :=
  match s with
  | EmptyString => (acc, cnt, s)
  | String c s' =>
      match digit_of c with
      | Some d => read_digits s' (10 * acc + d) (S cnt)
      | None => (acc, cnt, s)
      end
  end.

Definition is_space (c : ascii) : bool :=
  let n := nat_of_ascii c in
  Nat.eqb n 32 || ((9 <=? n)%nat && (n <=? 13)%nat).

Fixpoint trim_start (s : string) : string :=
  match s with
  | String c s' => if is_space c then trim_start s' else s
  | EmptyString => s
  end.

(** The exponent part [e[+-]?digits], when one follows. *)
Definition read_exponent (s : string) : Z :=
  match s with
  | String c r =>
      if Ascii.eqb c "e" || Ascii.eqb c "E" then
        let '(neg, r') :=
          match r with
          | String "-" r' => (true, r')
          | String "+" r' => (false, r')
          | _ => (false, r)
          end in
        let '(e, n, _) := read_digits r' 0 0 in
        if Nat.eqb n 0 then 0%Z else if neg then (- e)%Z else e
      else 0%Z
  | EmptyString => 0%Z
  end.

Definition scale10 (q : Q) (e : Z) : Q :=
  if (e <? 0)%Z then q / inject_Z (10 ^ (- e)) else q * inject_Z (10 ^ e).

(** An unsigned decimal literal at the head of [s]: digits, an optional
    fraction, an optional exponent. *)
Definition read_decimal (s : string) : option Q :=
  let '(ip, ni, r1) := read_digits s 0 0 in
  let '(fp, nf, r2) :=
    match r1 with
    | String "." r => read_digits r 0 0
    | _ => (0%Z, O, r1)
    end in
  if Nat.eqb ni 0 && Nat.eqb nf 0 then None
  else Some (scale10 (inject_Z ip + inject_Z fp / pow10 nf) (read_exponent r2)).

(** [parseFloat(s)]: leading white space is skipped, the longest prefix that
    is a decimal literal is converted, anything after it is ignored. *)
Definition parseFloat (s : string) : number :=
  let t := trim_start s in
  let '(neg, u) :=
    match t with
    | String "-" r => (true, r)
    | String "+" r => (false, r)
    | _ => (false, t)
    end in
  if String.prefix "Infinity" u then (if neg then NInf else PInf)
  else match read_decimal u with
       | Some q => Fin (if neg then - q else q)
       | None => NaN
       end.

Fixpoint take_digits (s : string) : string * string :=
  match s with
  | EmptyString => ("", s)
  | String c s' =>
      match digit_of c with
      | Some _ => let '(ds, r) := take_digits s' in (String c ds, r)
      | None => ("", s)
      end
  end.

(** The first group of the pattern the cell renderers apply to a change
    string: at the start of the string an optional sign, one or more digits,
    an optional point and any further digits (the group), followed by a
    percent sign; [None] when the pattern does not match.  Every quantifier is
    greedy and giving characters back never helps, so one left-to-right scan
    decides the match. *)
Definition match_percent (s : string) : option string :=
  let '(sign, r0) :=
    match s with
    | String "-" r => ("-", r)
    | String "+" r => ("+", r)
    | _ => ("", s)
    end in
  let '(ip, r1) := take_digits r0 in
  if String.eqb ip "" then None
  else
    let '(dot, r2) :=
      match r1 with
      | String "." r => (".", r)
      | _ => ("", r1)
      end in
    let '(fp, r3) := take_digits r2 in
    match r3 with
    | String "%" _ => Some (sign +:+ ip +:+ dot +:+ fp)
    | _ => None
    end.

End JS.

(** ** The comparison component *)

Module TestComparison.
Import JS.

Definition NA : value := VStr "N/A".
Definition UP : string := " ↑".
Definition DOWN : string := " ↓".

(** The aggregate [aggregateTokens] builds. *)
Record tokens : Type := {
  inputTokens : value;
  outputTokens : value;
  totalTokens : value
}.

(** What the "Configuration Differences" box shows. *)
Inductive configView : Type :=
| ConfigTable (items : value) (columns : list string)
| ConfigsIdentical
| NoConfigData
| OnlyForTwoRuns (n : nat).

(** A metric table: its rows (label, one cell per complete run), or the
    placeholder box shown when no run is complete. *)
Inductive tableView : Type :=
| Rows (rows : list (string * list (string * value)))
| Placeholder (text : string).

(** The comparison as rendered: the configuration box, the warning about
    incomplete runs, and the four metric tables. *)
Record comparisonView : Type := {
  configuration : configView;
  incompleteWarning : bool;
  performance : tableView;
  accuracy : tableView;
  cost : tableView;
  usage : tableView
}.

(** What the component returns: one of the three early boxes, or the
    comparison. *)
Inductive screen : Type :=
| Loading
| NoComparisonData
| ErrorBox (message : value)
| Comparison (view : comparisonView).

Section Component.

Variable h : Host.

(** [typeof doc === 'string' ? JSON.parse(doc) : doc] *)
Definition parse_doc (doc : value) : result value :=
  match doc with
  | VStr s =>
      match JSON_parse h s with
      | Some v => Ok v
      | None => Throw SyntaxError
      end
  | _ => Ok doc
  end.

(** [testRun.test] and [testRun.baseline], parsed when they arrive as text. *)
Definition side (name : string) (testRun : value) : result value :=
  let* doc := prop testRun name in parse_doc doc.

(** *** Lines 128-135: complete and incomplete runs *)

Definition is_complete (testRun : value) : result bool :=
  let* st := prop testRun "status" in Ok (strict_eq_str st "COMPLETE").

Definition is_incomplete (testRun : value) : result bool :=
  let* st := prop testRun "status" in Ok (negb (strict_eq_str st "COMPLETE")).

(** The entries of [completeTestRuns], the object rebuilt from the entries of
    [comparisonData.metrics] that pass the filter. *)
Definition completeTestRuns (metrics : value) : result (list (string * value)) :=
  if truthy metrics then
    let* es := Object_entries metrics in
    filterM (fun e => is_complete (snd e)) es
  else Ok [].

Definition hasIncompleteRuns (metrics : value) : result bool :=
  if truthy metrics then
    let* vs := Object_values metrics in
    someM is_incomplete vs
  else Ok false.

(** *** Lines 141-176: configuration differences *)

(** [v.length] *)
Definition length_of (v : value) : value :=
  match v with
  | VArr items => VNum (num_of_Z (Z.of_nat (List.length items)))
  | VStr s => VNum (num_of_Z (Z.of_nat (String.length s)))
  | _ => get v "length"
  end.

(** [v.length > 0] *)
Definition nonempty (v : value) : bool := ngtb (ToNumber h (length_of v)) (Fin 0).

Definition configSection (preSelectedTestRunIds : list string) (configs : value) : configView :=
  if Nat.eqb (List.length preSelectedTestRunIds) 2 then
    if truthy configs && nonempty configs then
      let differentConfigs := js_or configs (VArr []) in
      if nonempty differentConfigs
      then ConfigTable differentConfigs ("setting" :: preSelectedTestRunIds)
      else ConfigsIdentical
    else NoConfigData
  else OnlyForTwoRuns (List.length preSelectedTestRunIds).

(** *** Lines 188-238: performance metrics *)

(** A row cell of the form
    [test?.g?.f !== null && test?.g?.f !== undefined ? `${(test.g.f * 100).toFixed(2)}%` : 'N/A']. *)
Definition presentPercentCell (g f : string) (testRun : value) : result value :=
  let* test := side "test" testRun in
  let x := opt_prop (opt_prop test g) f in
  if negb (nullish x) then
    let* grp := prop test g in
    let* v := prop grp f in
    Ok (VStr (toFixed h 2 (js_mul h v (VNum (Fin 100))) +:+ "%"))
  else Ok NA.

Definition accuracyCell : value -> result value :=
  presentPercentCell "accuracy" "accuracy".

Definition confidenceCell : value -> result value :=
  presentPercentCell "confidence" "average_confidence".

Definition accuracyChangeCell (testRun : value) : result value :=
  let* s := prop testRun "accuracySimilarity" in
  if negb (nullish s) then
    let* txt := call_toFixed h s 2 in Ok (VStr txt)
  else Ok NA.

Definition filesProcessedCell (testRun : value) : result value :=
  let* n := prop testRun "filesCount" in Ok (js_or n NA).

(** *** Lines 265-311: accuracy breakdown *)

Definition testSetCell (testRun : value) : result value :=
  let* n := prop testRun "testSetName" in Ok (js_or n NA).

(** A row cell of the form
    [test?.accuracy?.f ? `${(test.accuracy.f * 100).toFixed(2)}%` : 'N/A']. *)
Definition truthyPercentCell (f : string) (testRun : value) : result value :=
  let* test := side "test" testRun in
  if truthy (opt_prop (opt_prop test "accuracy") f) then
    let* grp := prop test "accuracy" in
    let* v := prop grp f in
    Ok (VStr (toFixed h 2 (js_mul h v (VNum (Fin 100))) +:+ "%"))
  else Ok NA.

Definition precisionCell : value -> result value := truthyPercentCell "precision".
Definition recallCell : value -> result value := truthyPercentCell "recall".
Definition f1Cell : value -> result value := truthyPercentCell "f1_score".

(** *** Lines 333-388: cost breakdown *)

(** [doc?.cost?.total_cost] *)
Definition total_cost (doc : value) : value :=
  opt_prop (opt_prop doc "cost") "total_cost".

(** [doc?.cost?.total_cost ? `$${doc.cost.total_cost.toFixed(4)}` : 'N/A']
    for [doc] the test or the baseline document. *)
Definition costCell (which : string) (testRun : value) : result value :=
  let* doc := side which testRun in
  if truthy (total_cost doc) then
    let* c := prop doc "cost" in
    let* t := prop c "total_cost" in
    let* txt := call_toFixed h t 4 in
    Ok (VStr ("$" +:+ txt))
  else Ok NA.

Definition testCostCell : value -> result value := costCell "test".
Definition baselineCostCell : value -> result value := costCell "baseline".

(** [(t - b) / b] *)
Definition relative_change (t b : value) : number :=
  ndiv (js_sub h t b) (ToNumber h b).

(** The template of lines 375-382 on the two costs. *)
Definition costChangeText (t b : value) : string :=
  toFixed h 2 (nmul (relative_change t b) (Fin 100)) +:+ "%" +:+
  (if ngtb (relative_change t b) (Fin 0) then UP else DOWN).

Definition costChangeValue (testRun : value) : result value :=
  let* test := side "test" testRun in
  let* baseline := side "baseline" testRun in
  if truthy (total_cost test) && truthy (total_cost baseline) then
    let* tc := prop test "cost" in
    let* t := prop tc "total_cost" in
    let* bc := prop baseline "cost" in
    let* b := prop bc "total_cost" in
    Ok (VStr (costChangeText t b))
  else Ok NA.

(** *** Lines 416-477: usage breakdown *)

Definition calculateChange_change (testVal baselineVal : value) : string :=
  toFixed h 2 (nmul (relative_change testVal baselineVal) (Fin 100)).

(** The arrow [calculateChange] appends: none when the printed change parses
    to zero. *)
Definition calculateChange_arrow (change : string) : string :=
  let isIncrease := ngtb (parseFloat change) (Fin 0) in
  if negb (neqb (parseFloat change) (Fin 0))
  then (if isIncrease then UP else DOWN)
  else "".

Definition calculateChange (testVal baselineVal : value) : string :=
  if negb (truthy baselineVal) || strict_eq_zero baselineVal then "N/A"
  else
    let change := calculateChange_change testVal baselineVal in
    NumberToString h (nabs (ToNumber h (VStr change))) +:+ "%" +:+
    calculateChange_arrow change.

Definition zero_tokens : tokens :=
  {| inputTokens := VNum (Fin 0); outputTokens := VNum (Fin 0); totalTokens := VNum (Fin 0) |}.

(** [acc += entry.field || 0] *)
Definition add_field (acc entry : value) (field : string) : value :=
  js_add h acc (js_or (get entry field) (VNum (Fin 0))).

(** The body of the [forEach] callback.  [usage[key]] is read from [usage];
    inside the guard it is truthy, so reading its members cannot raise. *)
Definition aggregate_step (usage : value) (acc : tokens) (key : string) : tokens :=
  if includes key "bedrock" && truthy (get usage key) then
    {| inputTokens := add_field (inputTokens acc) (get usage key) "inputTokens";
       outputTokens := add_field (outputTokens acc) (get usage key) "outputTokens";
       totalTokens := add_field (totalTokens acc) (get usage key) "totalTokens" |}
  else acc.

(** [Object.keys(usage)] is reached only when [usage] is truthy, hence
    neither [null] nor [undefined]. *)
Definition aggregateTokens (usage : value) : tokens :=
  if truthy usage
  then fold_left (aggregate_step usage) (map fst (own_entries usage)) zero_tokens
  else zero_tokens.

Definition usage_of (which : string) (testRun : value) : result tokens :=
  let* doc := side which testRun in Ok (aggregateTokens (opt_prop doc "usage")).

Definition inputTokensCell (which : string) (testRun : value) : result value :=
  let* tk := usage_of which testRun in
  Ok (VStr (toLocaleString h (inputTokens tk))).

Definition testInputTokensCell : value -> result value := inputTokensCell "test".
Definition baselineInputTokensCell : value -> result value := inputTokensCell "baseline".

Definition totalTokenChangeCell (testRun : value) : result value :=
  let* test := side "test" testRun in
  let* baseline := side "baseline" testRun in
  let testTokens := aggregateTokens (opt_prop test "usage") in
  let baselineTokens := aggregateTokens (opt_prop baseline "usage") in
  Ok (VStr (calculateChange (totalTokens testTokens) (totalTokens baselineTokens))).

(** *** Lines 11-55: how a change cell is displayed *)

(** The text of the fragment: the magnitude to two decimals, a percent sign,
    and the arrow chosen by the sign of the parsed number. *)
Definition magnitude_and_arrow (n : number) : string :=
  toFixed h 2 (nabs n) +:+ "%" +:+ (if ngtb n (Fin 0) then UP else DOWN).

Definition renderChangeValue (v : value) : value :=
  if strict_eq_str v "N/A" then NA
  else VStr (magnitude_and_arrow (parseFloat (ToString h v))).

(** [v.match(pattern)] then the display; only a string has [match]. *)
Definition display_change (changeValue : value) : result value :=
  match changeValue with
  | VStr s =>
      match match_percent s with
      | None => Ok changeValue
      | Some g => Ok (VStr (magnitude_and_arrow (parseFloat g)))
      end
  | _ => Throw TypeError
  end.

(** [costChangeCell({ costChange: v })]: [item.change] is undefined, so
    [changeValue] is [v]. *)
Definition costChangeCell (v : value) : result value :=
  let changeValue := js_or VUndefined v in
  if negb (truthy changeValue) || strict_eq_str changeValue "N/A" then Ok NA
  else display_change changeValue.

(** [usageChangeCell({ totalTokensChange: v })] *)
Definition usageChangeCell (v : value) : result value :=
  if strict_eq_str v "N/A" then Ok NA
  else display_change v.

(** *** The tables *)

(** One item of a table: [{ metric: label, ...Object.fromEntries(entries.map(...)) }],
    as the label and the cell computed for each complete run. *)
Definition row (label : string) (cell : value -> result value)
    (complete : list (string * value)) : result (string * list (string * value)) :=
  let* cells := mapM (fun e => let* c := cell (snd e) in Ok (fst e, c)) complete in
  Ok (label, cells).

Definition table (empty_text : string)
    (rows : list (string * (value -> result value)))
    (complete : list (string * value)) : result tableView :=
  if (0 <? List.length complete)%nat then
    let* rs := mapM (fun r => row (fst r) (snd r) complete) rows in Ok (Rows rs)
  else Ok (Placeholder empty_text).

Definition performanceRows : list (string * (value -> result value)) :=
  [("Accuracy", accuracyCell);
   ("Accuracy Change", accuracyChangeCell);
   ("Confidence", confidenceCell);
   ("Files Processed", filesProcessedCell)].

Definition accuracyRows : list (string * (value -> result value)) :=
  [("Test Set", testSetCell);
   ("Test Precision", precisionCell);
   ("Test Recall", recallCell);
   ("Test F1 Score", f1Cell)].

Definition costRows : list (string * (value -> result value)) :=
  [("Test Set", testSetCell);
   ("Test Cost", testCostCell);
   ("Baseline Cost", baselineCostCell);
   ("Cost Change", costChangeValue)].

Definition usageRows : list (string * (value -> result value)) :=
  [("Test Input Tokens", testInputTokensCell);
   ("Baseline Input Tokens", baselineInputTokensCell);
   ("Total Token Change", totalTokenChangeCell)].

Definition performanceTable := table "No completed test runs available" performanceRows.
Definition accuracyTable := table "No completed test runs available" accuracyRows.
Definition costTable := table "No cost data available" costRows.
Definition usageTable := table "No completed test runs available" usageRows.

(** Lines 124-501: the comparison proper.  Everything is computed inside one
    render, in this order; an exception anywhere leaves nothing rendered. *)
Definition renderComparison (preSelectedTestRunIds : list string)
    (comparisonData : value) : result comparisonView :=
  let* metrics := prop comparisonData "metrics" in
  let* configs := prop comparisonData "configs" in
  let* complete := completeTestRuns metrics in
  let* warn := hasIncompleteRuns metrics in
  let* perf := performanceTable complete in
  let* acc := accuracyTable complete in
  let* cst := costTable complete in
  let* usg := usageTable complete in
  Ok {| configuration := configSection preSelectedTestRunIds configs;
        incompleteWarning := warn;
        performance := perf;
        accuracy := acc;
        cost := cst;
        usage := usg |}.

(** Lines 112-122 and 137: the component body once the state is known.
    [comparing] is true while the query is in flight; [comparisonData] is
    [null] before the first answer, an object with an [error] member when the
    query failed, and the answer otherwise. *)
Definition render (comparing : bool) (preSelectedTestRunIds : list string)
    (comparisonData : value) : result screen :=
  if comparing then Ok Loading
  else if negb (truthy comparisonData) then Ok NoComparisonData
  else
    let* err := prop comparisonData "error" in
    if truthy err then Ok (ErrorBox err)
    else
      let* view := renderComparison preSelectedTestRunIds comparisonData in
      Ok (Comparison view).

(** *** Vocabulary of the properties *)

Definition status_is_COMPLETE (testRun : value) : bool :=
  strict_eq_str (get testRun "status") "COMPLETE".

Definition readable (e : string * value) : Prop := nullish (snd e) = false.

(** A cost (or score) that is absent, [null], or the number zero. *)
Definition missing_or_zero (v : value) : Prop :=
  v = VUndefined \/ v = VNull \/ exists q : Q, v = VNum (Fin q) /\ q == 0.

Definition is_table (v : configView) : bool :=
  match v with
  | ConfigTable _ _ => true
  | _ => false
  end.

(** The keys of a usage document that name a model-invocation source: the
    component recognises them by the substring "bedrock". *)
Definition model_invocation_keys (usage : value) : list string :=
  List.filter (fun k => includes k "bedrock") (map fst (own_entries usage)).

(** What an entry contributes for [field]: the number stored there, zero when
    the entry or the field is absent (or otherwise falsy); [None] when the
    field holds something that is not a finite count. *)
Definition token_count (entry : value) (field : string) : option Q :=
  if truthy entry then
    match get entry field with
    | VNum (Fin q) => Some q
    | v => if truthy v then None else Some 0
    end
  else Some 0.

(** The entries under those keys that are present (truthy), in key order. *)
Definition model_invocation_entries (usage : value) (keys : list string) : list value :=
  List.filter truthy
    (map (get usage) (List.filter (fun k => includes k "bedrock") keys)).

(** [0 + (e1.field || 0) + (e2.field || 0) + ...] with JavaScript's [+]. *)
Definition js_sum_field (field : string) (acc : value) (entries : list value) : value :=
  fold_left (js_add h) (map (fun e => js_or (get e field) (VNum (Fin 0))) entries) acc.

Definition token_fields : list string := ["inputTokens"; "outputTokens"; "totalTokens"].

Definition counts_are_numbers (usage : value) : Prop :=
  forall k field,
    In k (model_invocation_keys usage) -> In field token_fields ->
    token_count (get usage k) field <> None.

Definition sum_counts (usage : value) (field : string) (keys : list string) : Q :=
  fold_right Qplus 0
    (map (fun k => default 0 (token_count (get usage k) field))
         (List.filter (fun k => includes k "bedrock") keys)).

Definition missing (v : value) : Prop := nullish v = true.

(** A leaf of the metric documents on which [toFixed] is called. *)
Definition falsy_or_number (v : value) : Prop :=
  truthy v = false \/ exists n, v = VNum n.

Definition missing_or_number (v : value) : Prop :=
  missing v \/ exists n, v = VNum n.

(** A run whose two documents are objects or parse as JSON, and whose total
    costs and accuracy similarity are numbers where they are present. *)
Record sound_run (testRun : value) : Prop := {
  sound_test :
    exists test, side "test" testRun = Ok test /\ falsy_or_number (total_cost test);
  sound_baseline :
    exists baseline, side "baseline" testRun = Ok baseline /\
                     falsy_or_number (total_cost baseline);
  sound_similarity : missing_or_number (get testRun "accuracySimilarity")
}.

End Component.

(** Whether what the component returns shows the configuration table. *)
Definition shows_config_table (r : result screen) : bool :=
  match r with
  | Ok (Comparison view) => is_table (configuration view)
  | _ => false
  end.

(** ** Example data *)

(** An engine for running the examples.  Its conversions agree with a
    JavaScript engine on what the examples feed them: strings that are
    decimal literals, numbers with at most two decimals, and whole token
    counts printed for the en-US locale.  No example holds text to parse as
    JSON. *)
Definition example_StringToNumber (s : string) : number :=
  if String.eqb (trim_start s) "" then Fin 0 else parseFloat s.

Definition example_FiniteToString (q : Q) : string :=
  let r := round_at 2 (Qabs q) in
  let fp := (r mod 100)%Z in
  (if Qltb q 0 then "-" else "") +:+ digits (r / 100) +:+
  (if (fp =? 0)%Z then ""
   else "." +:+ (if (fp mod 10 =? 0)%Z then digits (fp / 10)
                 else (if (fp <? 10)%Z then "0" else "") +:+ digits fp)).

(** Commas between groups of three digits. *)
Fixpoint group_digits (s : string) (remaining : nat) : string :=
  match s with
  | EmptyString => ""
  | String c s' =>
      String c
        ((if (1 <? remaining)%nat && Nat.eqb ((remaining - 1) mod 3) 0 then "," else "") +:+
         group_digits s' (remaining - 1))
  end.

Definition example_toLocaleString (v : value) : string :=
  match v with
  | VNum (Fin q) =>
      let m := digits (round_at 0 (Qabs q)) in
      (if Qltb q 0 then "-" else "") +:+ group_digits m (String.length m)
  | VStr s => s
  | _ => ""
  end.

Definition example_host : Host :=
  {| JSON_parse := fun _ => None;
     StringToNumber := example_StringToNumber;
     FiniteToString := example_FiniteToString;
     toLocaleString := example_toLocaleString |}.

Definition num (q : Q) : value := VNum (Fin q).

Definition cost_doc (c : value) : value :=
  VObj [("cost", VObj [("total_cost", c)])].

Definition run_with_costs (status : string) (t b : value) : value :=
  VObj [("status", VStr status); ("test", cost_doc t); ("baseline", cost_doc b)].

(** Scenario C of the specification. *)
Definition scenario_C : value :=
  VObj [("run-1", run_with_costs "COMPLETE" (num 10) (num 8));
        ("run-2", run_with_costs "COMPLETE" (num 5) (num 0))].

(** Scenario D of the specification, with the statuses the documentation
    names. *)
Definition scenario_D : value :=
  VObj [("run-1", run_with_costs "COMPLETED" (num 10) (num 8));
        ("run-2", run_with_costs "COMPLETED" (num 5) (num 4));
        ("run-3", run_with_costs "FAILED" VUndefined VUndefined)].

(** A usage document with two model-invocation entries and one other. *)
Definition example_usage : value :=
  VObj [("bedrock/claude",
         VObj [("inputTokens", num 100); ("outputTokens", num 20); ("totalTokens", num 120)]);
        ("textract", VObj [("inputTokens", num 999); ("pages", num 3)]);
        ("bedrock/nova", VObj [("inputTokens", num 5); ("totalTokens", num 5)])].

(** A run with scores and costs of zero. *)
Definition zero_run : value :=
  VObj [("status", VStr "COMPLETE");
        ("test", VObj [("accuracy", VObj [("accuracy", num 0); ("precision", num 0);
                                          ("recall", num 0); ("f1_score", num 0)]);
                       ("cost", VObj [("total_cost", num 0)])]);
        ("baseline", VObj [("cost", VObj [("total_cost", num 0)])])].

(** Two complete runs with gaps of every kind: a test document that is
    [null], a baseline that is a number, an accuracy group that is a string,
    a cost group without a total. *)
Definition patchy_metrics : value :=
  VObj [("run-1",
         VObj [("status", VStr "COMPLETE"); ("test", VNull); ("baseline", num 7)]);
        ("run-2",
         VObj [("status", VStr "COMPLETE");
               ("test", VObj [("accuracy", VStr "high"); ("cost", VObj [])]);
               ("accuracySimilarity", VNull)]);
        ("run-3", VObj [("status", VStr "RUNNING")])].

Definition patchy_complete : list (string * value) :=
  [("run-1", VObj [("status", VStr "COMPLETE"); ("test", VNull); ("baseline", num 7)]);
   ("run-2",
    VObj [("status", VStr "COMPLETE");
          ("test", VObj [("accuracy", VStr "high"); ("cost", VObj [])]);
          ("accuracySimilarity", VNull)])].

(** Scenario D with the status the component tests for. *)
Definition scenario_D_tested : value :=
  VObj [("run-1", run_with_costs "COMPLETE" (num 10) (num 8));
        ("run-2", run_with_costs "COMPLETE" (num 5) (num 4));
        ("run-3", run_with_costs "FAILED" VUndefined VUndefined)].

(** One configuration row in which run-1 and run-2 differ. *)
Definition example_configs : value :=
  VArr [VObj [("setting", VStr "model");
              ("values", VObj [("run-1", VStr "small"); ("run-2", VStr "large")])]].

(** The number a decimal literal of a JSON document denotes: the nearest
    double. *)
Definition literal (q : Q) : value := VNum (round64 q).

(** A total cost that arrives as text makes [toFixed] raise, and with it the
    whole cost table and the whole rendering, although run-1 is sound. *)
Definition text_cost_metrics : value :=
  VObj [("run-1", run_with_costs "COMPLETE" (num 10) (num 8));
        ("run-2", run_with_costs "COMPLETE" (VStr "12.5") (num 8))].

End TestComparison.

(** ** Decimal numerals

    Vocabulary for the digits [toFixed] prints and [parseFloat] and the
    percentage pattern read back. *)

Module DecimalText.
Import JS.

(** Every character is a decimal digit. *)
Fixpoint all_digits (s : string) : bool :=
  match s with
  | EmptyString => true
  | String c s' =>
      match digit_of c with
      | Some _ => all_digits s'
      | None => false
      end
  end.

(** A run of digits ends here: the string is empty or starts with something
    else. *)
Definition stops (r : string) : bool :=
  match r with
  | EmptyString => true
  | String c _ =>
      match digit_of c with
      | Some _ => false
      | None => true
      end
  end.

(** The number a run of digits denotes, on top of [acc]. *)
Fixpoint digits_value (s : string) (acc : Z) : Z :=
  match s with
  | EmptyString => acc
  | String c s' =>
      match digit_of c with
      | Some d => digits_value s' (10 * acc + d)
      | None => acc
      end
  end.

(** The same for the digits of the standard library's decimal numbers. *)
Fixpoint uint_value (d : Decimal.uint) (acc : Z) : Z :=
  match d with
  | Decimal.Nil => acc
  | Decimal.D0 l => uint_value l (10 * acc + 0)
  | Decimal.D1 l => uint_value l (10 * acc + 1)
  | Decimal.D2 l => uint_value l (10 * acc + 2)
  | Decimal.D3 l => uint_value l (10 * acc + 3)
  | Decimal.D4 l => uint_value l (10 * acc + 4)
  | Decimal.D5 l => uint_value l (10 * acc + 5)
  | Decimal.D6 l => uint_value l (10 * acc + 6)
  | Decimal.D7 l => uint_value l (10 * acc + 7)
  | Decimal.D8 l => uint_value l (10 * acc + 8)
  | Decimal.D9 l => uint_value l (10 * acc + 9)
  end.

(** The numbers [toFixed(2)] prints digit by digit: rounded to hundredths
    they stay below 10^21. *)
Definition prints_in_full (x : Q) : Prop := (round_at 2 (Qabs x) < 10 ^ 23)%Z.

End DecimalText.

(** ** The columns of the metric tables *)

Module Columns.
Import JS TestComparison.

(** An item of a metric table as [row] computes it: the label and the cells,
    standing for [{ metric: label, ...Object.fromEntries(cells) }]. *)
Definition item : Type := (string * list (string * value))%type.

(** The properties written into the item object, in the order they are
    written. *)
Definition item_entries (it : item) : list (string * value) :=
  ("metric", VStr (fst it)) :: snd it.

(** [item[k]]: what was written last under [k]; [undefined] when nothing
    was. *)
Definition item_get (it : item) (k : string) : value :=
  fold_left (fun acc e => if String.eqb k (fst e) then snd e else acc)
            (item_entries it) VUndefined.

(** [v.includes(needle)] for a string needle: a substring test on a string,
    a membership test on an array, a TypeError on anything else. *)
Definition call_includes (v : value) (needle : string) : result bool :=
  match v with
  | VStr s => Ok (includes s needle)
  | VArr items => Ok (existsb (fun x => strict_eq_str x needle) items)
  | _ => Throw TypeError
  end.

(** What a table shows: the rows of cells, or the placeholder box. *)
Inductive shownTable : Type :=
| ShownRows (rows : list (value * list (string * value)))
| ShownPlaceholder (text : string).

Section Cells.

Variable h : Host.

(** The first column of every table: [(item) => item.metric]. *)
Definition metricColumn (it : item) : result value := Ok (item_get it "metric").

(** Lines 239-252: the column of [testRunId] in the performance table. *)
Definition performanceColumn (testRunId : string) (it : item) : result value :=
  let value := item_get it testRunId in
  if strict_eq_str (item_get it "metric") "Accuracy Change"
  then Ok (renderChangeValue h value)
  else Ok value.

(** Lines 312-319: the column of [testRunId] in the accuracy table. *)
Definition accuracyColumn (testRunId : string) (it : item) : result value :=
  Ok (item_get it testRunId).

(** Lines 389-402: the column of [testRunId] in the cost table. *)
Definition costColumn (testRunId : string) (it : item) : result value :=
  let value := item_get it testRunId in
  if strict_eq_str (item_get it "metric") "Cost Change"
  then costChangeCell h value
  else Ok value.

(** Lines 479-492: the column of [testRunId] in the usage table. *)
Definition usageColumn (testRunId : string) (it : item) : result value :=
  let value := item_get it testRunId in
  let* change := call_includes (item_get it "metric") "Change" in
  if change then usageChangeCell h value else Ok value.

(** The table calls the cell function of every column on every item: the
    metric column, then one column per key of [completeTestRuns]. *)
Definition showRows (column : string -> item -> result value)
    (complete : list (string * value)) (rows : list item) :
    result (list (value * list (string * value))) :=
  mapM (fun it =>
          let* m := metricColumn it in
          let* cs := mapM (fun id => let* c := column id it in Ok (id, c))
                          (map fst complete) in
          Ok (m, cs))
       rows.

Definition showTable (column : string -> item -> result value)
    (complete : list (string * value)) (t : tableView) : result shownTable :=
  match t with
  | Rows rows => let* rs := showRows column complete rows in Ok (ShownRows rs)
  | Placeholder text => Ok (ShownPlaceholder text)
  end.

End Cells.

(** *** Example data *)

(** A complete run whose cost rose by a thousandth of a percent and whose
    accuracy similarity is minus a quarter. *)
Definition slight_rise : value :=
  VObj [("status", VStr "COMPLETE");
        ("test", cost_doc (num 100001));
        ("baseline", cost_doc (num 100000));
        ("accuracySimilarity", num (- (1 # 4)))].

(** Two complete runs; the second has the costs 5 and 4 and no similarity. *)
Definition example_runs : list (string * value) :=
  [("run-1", slight_rise);
   ("run-2", run_with_costs "COMPLETE" (num 5) (num 4))].

(** The table a computation ended with. *)
Definition computed (r : result tableView) : tableView :=
  match r with
  | Ok t => t
  | Throw _ => Placeholder ""
  end.

End Columns.

(** ** Fetching the comparison *)

Module Fetch.
Import JS TestComparison.

(** The two pieces of state the effect writes. *)
Record state : Type := {
  comparing : bool;
  comparisonData : value
}.

(** How the awaited query settles: with a result, or rejected with whatever
    the client throws. *)
Inductive answer : Type :=
| Resolved (result : value)
| Rejected (reason : value).

(** [obj.k = v] on an object: the member is replaced where it stands, or
    added last. *)
Fixpoint set_assoc (k : string) (v : value) (l : list (string * value)) :
    list (string * value) :=
  match l with
  | [] => [(k, v)]
  | (k', v') :: l' =>
      if String.eqb k k' then (k, v) :: l' else (k', v') :: set_assoc k v l'
  end.

Section Effect.

Variable h : Host.

(** The text the engine puts in the [message] of an error it raises. *)
Variable message : error -> string.

(** The error object caught when the engine raises [e]: it has a [message]
    and no [errors]. *)
Definition thrown (e : error) : value := VObj [("message", VStr (message e))].

(** Lines 74-81, the rest of the [try] block once the query has resolved:
    what is handed to [setComparisonData].  Only an object can hold a
    [metrics] member that is a string, so the assignment acts on an object. *)
Definition received (result : value) : JS.result value :=
  let* data := prop result "data" in
  let* compareData := prop data "compareTestRuns" in
  let* metrics := prop compareData "metrics" in
  match metrics with
  | VStr s =>
      match JSON_parse h s with
      | Some m =>
          match compareData with
          | VObj fields => Ok (VObj (set_assoc "metrics" m fields))
          | _ => Ok compareData
          end
      | None => Throw SyntaxError
      end
  | _ => Ok compareData
  end.

(** [Array.prototype.join] with a separator: [null] and [undefined] elements
    print as nothing. *)
Fixpoint join (sep : string) (l : list value) : string :=
  match l with
  | [] => ""
  | x :: l' =>
      (if nullish x then "" else ToString h x) +:+
      match l' with
      | [] => ""
      | _ :: _ => sep +:+ join sep l'
      end
  end.

(** Lines 85-88: the message kept from what was caught.  Only an array has
    [map]; reading [message] from a [null] element raises. *)
Definition errorMessage (error : value) : JS.result value :=
  let* errors := prop error "errors" in
  if negb (nullish errors) && nonempty h errors then
    match errors with
    | VArr items =>
        let* messages := mapM (fun e => prop e "message") items in
        Ok (VStr (join "; " messages))
    | _ => Throw TypeError
    end
  else Ok (js_or (get error "message") (VStr "Error comparing test runs")).

(** Lines 61-95: the state once [fetchComparison] has run to its end.  With
    fewer than two ids nothing is written.  Otherwise [comparing] ends false
    whatever happened, and [comparisonData] is the answer, or an object
    holding the error message; when the handler itself raises, nothing is
    stored. *)
Definition fetchComparison (preSelectedTestRunIds : list string) (a : answer)
    (st : state) : state :=
  if (2 <=? List.length preSelectedTestRunIds)%nat then
    let tried :=
      match a with
      | Resolved result =>
          match received result with
          | Ok compareData => inl compareData
          | Throw e => inr (thrown e)
          end
      | Rejected reason => inr reason
      end in
    {| comparing := false;
       comparisonData :=
         match tried with
         | inl compareData => compareData
         | inr error =>
             match errorMessage error with
             | Ok errorMessage => VObj [("error", errorMessage)]
             | Throw _ => comparisonData st
             end
         end |}
  else st.

(** The screen after the effect has run. *)
Definition screenAfter (preSelectedTestRunIds : list string) (a : answer)
    (st : state) : JS.result screen :=
  let st' := fetchComparison preSelectedTestRunIds a st in
  render h (comparing st') preSelectedTestRunIds (comparisonData st').

End Effect.

(** *** Example data *)

Definition example_message (e : error) : string :=
  match e with
  | TypeError => "Cannot read properties of null"
  | SyntaxError => "Unexpected end of JSON input"
  end.

(** The engine of the examples, able to parse the one JSON text the answer
    below holds. *)
Definition parsing_host : Host :=
  {| JSON_parse := fun s => if String.eqb s "{}" then Some (VObj []) else None;
     StringToNumber := example_StringToNumber;
     FiniteToString := example_FiniteToString;
     toLocaleString := example_toLocaleString |}.

(** An answer whose metrics are the text of an empty object. *)
Definition text_answer : value :=
  VObj [("data",
         VObj [("compareTestRuns",
                VObj [("metrics", VStr "{}"); ("configs", VArr [])])])].

(** An answer without a comparison. *)
Definition empty_answer : value :=
  VObj [("data", VObj [("compareTestRuns", VNull)])].

(** A rejection carrying two errors. *)
Definition two_errors : value :=
  VObj [("errors",
         VArr [VObj [("message", VStr "Unauthorized")];
               VObj [("message", VStr "Timeout")]])].

Definition idle : state := {| comparing := false; comparisonData := VNull |}.

End Fetch.

(** ** Run orchestration

    The services that create and advance test runs (the TestRunner and
    TestFileCopier functions and the results resolver named in the Test Studio
    documentation) are not among the sources; this part follows the
    specification of the Run Record Store, the Concurrency Guard, the
    Submission Service and the Execution Worker. *)

Module Orchestration.

(** Modelled from the spec: the status field of a TestRun (section 3); the
    backend functions that write it are missing from the sources. *)
Inductive Status : Type :=
| QUEUED
| PROCESSING
| RUNNING
| COMPLETED
| FAILED.

(** Modelled from the spec: COMPLETED and FAILED are terminal, the other
    three are active (section 4.3); the backend is missing. *)
Definition terminal (s : Status) : bool :=
  match s with
  | COMPLETED | FAILED => true
  | _ => false
  end.

Definition active (s : Status) : bool := negb (terminal s).

(** Modelled from the spec: the order QUEUED < PROCESSING < RUNNING <
    {COMPLETED, FAILED} of section 8; the backend is missing. *)
Definition rank (s : Status) : nat :=
  match s with
  | QUEUED => 0
  | PROCESSING => 1
  | RUNNING => 2
  | COMPLETED | FAILED => 3
  end.

Definition Status_eqb (a b : Status) : bool :=
  match a, b with
  | QUEUED, QUEUED | PROCESSING, PROCESSING | RUNNING, RUNNING
  | COMPLETED, COMPLETED | FAILED, FAILED => true
  | _, _ => false
  end.

Lemma Status_eqb_eq (a b : Status) : Status_eqb a b = true <-> a = b.
Proof. destruct a, b; simpl; split; congruence. Qed.

(** Modelled from the spec: the TestRun entity of section 3 (times are
    counted in ticks); the backend that stores it is missing. *)
Record TestRun : Type := {
  testRunId : string;
  testSetName : string;
  status : Status;
  filesCount : nat;
  completedFiles : nat;
  failedFiles : nat;
  baseline : option JS.value;
  test : option JS.value;
  errorMessage : option string;
  createdAt : nat;
  completedAt : option nat;
  updatedAt : nat
}.

(** Modelled from the spec: the QueueMessage of sections 3 and 6; the queue
    and its consumer are missing. *)
Record QueueMessage : Type := {
  msgTestRunId : string;
  filePattern : string;
  inputBucket : string;
  baselineBucket : string;
  trackingTable : string
}.

(** Modelled from the spec: the TestSet of section 3; the service that keeps
    test sets is missing. *)
Record TestSet : Type := {
  setName : string;
  setFilePattern : string;
  setDescription : string
}.

Abbreviation Store := (gmap string TestRun).

(** Modelled from the spec: the answers of the store's writes in section
    4.1 (success, Conflict) and of a lookup that finds nothing (NotFound,
    section 7); the store is missing. *)
Inductive outcome : Type :=
| Written (s : Store)
| Conflict
| NotFound.

(** *** Run Record Store (section 4.1) and Concurrency Guard (section 4.2) *)

(** Modelled from the spec: [listActive] of section 4.1, the runs whose
    status is not terminal; the store is missing. *)
Definition listActive (s : Store) : list TestRun :=
  List.filter (fun r => active (status r)) (map snd (map_to_list s)).

(** Modelled from the spec: [canAdmit] of section 4.2, denied when
    [listActive] is not empty; the guard is missing. *)
Definition canAdmit (s : Store) : bool :=
  match listActive s with
  | [] => true
  | _ :: _ => false
  end.

(** Modelled from the spec: [create] of section 4.1 with the condition
    section 4.2 places on it (it fails when another active run is detected
    inside the same conditional write) and with identifiers never reused
    (section 3); the store is missing. *)
Definition create (run : TestRun) (s : Store) : outcome :=
  match s !! testRunId run with
  | Some _ => Conflict
  | None => if canAdmit s then Written (<[testRunId run := run]> s) else Conflict
  end.

(** Modelled from the spec: what a successful status update does to the
    record: the new status, [updatedAt] stamped (section 4.1), [completedAt]
    set on reaching a terminal status (section 3); the store is missing. *)
Definition with_status (new : Status) (now : nat) (r : TestRun) : TestRun :=
  {| testRunId := testRunId r;
     testSetName := testSetName r;
     status := new;
     filesCount := filesCount r;
     completedFiles := completedFiles r;
     failedFiles := failedFiles r;
     baseline := baseline r;
     test := test r;
     errorMessage := errorMessage r;
     createdAt := createdAt r;
     completedAt := if terminal new then Some now else completedAt r;
     updatedAt := now |}.

(** Modelled from the spec: the [fields] argument of [updateStatus]
    (section 4.1): the error message a failure records and the two metric
    documents [finalize] writes (section 4.4); the store is missing. *)
Record fields : Type := {
  newError : option string;
  newMetrics : option (JS.value * JS.value)
}.

Definition no_fields : fields := {| newError := None; newMetrics := None |}.

(** Modelled from the spec: the record with the carried fields written
    (sections 4.1 and 4.4); the store is missing. *)
Definition with_fields (f : fields) (r : TestRun) : TestRun :=
  {| testRunId := testRunId r;
     testSetName := testSetName r;
     status := status r;
     filesCount := filesCount r;
     completedFiles := completedFiles r;
     failedFiles := failedFiles r;
     baseline := match newMetrics f with Some (_, b) => Some b | None => baseline r end;
     test := match newMetrics f with Some (t, _) => Some t | None => test r end;
     errorMessage := match newError f with Some e => Some e | None => errorMessage r end;
     createdAt := createdAt r;
     completedAt := completedAt r;
     updatedAt := updatedAt r |}.

(** Modelled from the spec: [updateStatus] of section 4.1, a compare-and-swap
    keyed on the expected prior status (section 5): the write fails when the
    stored status is terminal and the new one is not, or when the stored
    status is no longer the expected one; a successful write stamps
    [updatedAt].  The store is missing. *)
Definition updateStatus (id : string) (expected new : Status) (f : fields) (now : nat)
    (s : Store) : outcome :=
  match s !! id with
  | None => NotFound
  | Some r =>
      if terminal (status r) && active new then Conflict
      else if Status_eqb (status r) expected
           then Written (<[id := with_status new now (with_fields f r)]> s)
           else Conflict
  end.

(** The store a caller is left with: the written one, or the one it had. *)
Definition after (o : outcome) (s : Store) : Store :=
  match o with
  | Written s' => s'
  | Conflict | NotFound => s
  end.

(** *** Submission Service (section 4.3) *)

(** Modelled from the spec: the answers of [submit] (section 4.3): the new
    run identifier with the published work order, NotFound, or Conflict; the
    Submission Service is missing. *)
Inductive submitted : Type :=
| Accepted (id : string) (msg : QueueMessage) (s : Store)
| RejectedNotFound
| RejectedConflict.

(** Modelled from the spec: the run identifier is derived from the test-set
    name and the submission time (section 3); the function that builds it is
    missing. *)
Definition newRunId (name : string) (now : nat) : string :=
  name +:+ "-" +:+ JS.string_of_nat now.

(** Modelled from the spec: the initial record of section 4.3 step 4: status
    QUEUED, [filesCount] set, all counters zero; the Submission Service is
    missing. *)
Definition initialRun (id name : string) (files now : nat) : TestRun :=
  {| testRunId := id; testSetName := name; status := QUEUED;
     filesCount := files; completedFiles := 0; failedFiles := 0;
     baseline := None; test := None; errorMessage := None;
     createdAt := now; completedAt := None; updatedAt := now |}.

Section Services.

(** The external collaborators: how many input files match a pattern, the
    buckets and table a work order names, and the file replication, which
    answers with an error message when it fails. *)
Variable matching_files : string -> nat.
Variable input_bucket baseline_bucket tracking_table : string.
Variable copy : QueueMessage -> option string.

(** Modelled from the spec: [submit] of section 4.3, steps 1 to 6; the
    Submission Service is missing. *)
Definition submit (sets : gmap string TestSet) (testSetId : string) (now : nat)
    (s : Store) : submitted :=
  match sets !! testSetId with
  | None => RejectedNotFound
  | Some ts =>
      let files := matching_files (setFilePattern ts) in
      if canAdmit s then
        let id := newRunId (setName ts) now in
        match create (initialRun id (setName ts) files now) s with
        | Written s' =>
            Accepted id
              {| msgTestRunId := id; filePattern := setFilePattern ts;
                 inputBucket := input_bucket; baselineBucket := baseline_bucket;
                 trackingTable := tracking_table |} s'
        | _ => RejectedConflict
        end
      else RejectedConflict
  end.

(** *** Execution Worker (section 4.4) *)

(** Modelled from the spec: the boundary of section 8 and step 2 of section
    4.3: a run for which no file matched ([filesCount = 0]) completes
    trivially: it moves from QUEUED straight to COMPLETED, its counters zero
    and no error recorded.  The spec does not name the service that writes
    this status; it is written here when the work order of the run is picked
    up, as a compare-and-swap on QUEUED like every other write (section 5).
    The backend is missing. *)
Definition completeEmpty (id : string) (now : nat) (s : Store) : outcome :=
  match s !! id with
  | None => NotFound
  | Some r =>
      if Nat.eqb (filesCount r) 0
      then updateStatus id QUEUED COMPLETED no_fields now s
      else Conflict
  end.

(** Modelled from the spec: the handling of one QueueMessage, steps 1 to 4 of
    section 4.4: the run is fetched again and the message discarded when the
    run is terminal (or unknown); a run without files completes at once
    (section 8); otherwise QUEUED becomes PROCESSING; the files are copied; a
    failure ends in FAILED with the error recorded, a success in RUNNING.  A
    refused write leaves the store as it was.  The worker is missing. *)
Definition processMessage (now : nat) (msg : QueueMessage) (s : Store) : Store :=
  let id := msgTestRunId msg in
  match s !! id with
  | None => s
  | Some run =>
      if terminal (status run) then s
      else if Nat.eqb (filesCount run) 0 then after (completeEmpty id now s) s
      else
        match updateStatus id QUEUED PROCESSING no_fields now s with
        | Written s1 =>
            match copy msg with
            | Some err =>
                after (updateStatus id PROCESSING FAILED
                         {| newError := Some err; newMetrics := None |} now s1) s1
            | None =>
                after (updateStatus id PROCESSING RUNNING no_fields now s1) s1
            end
        | Conflict | NotFound => s
        end
  end.

(** Modelled from the spec: the status argument of [finalize] (section 4.4
    step 5), COMPLETED or FAILED with its error; the finalizer is missing. *)
Inductive ending : Type :=
| Completes
| Fails (err : string).

Definition ending_status (e : ending) : Status :=
  match e with
  | Completes => COMPLETED
  | Fails _ => FAILED
  end.

Definition ending_error (e : ending) : option string :=
  match e with
  | Completes => None
  | Fails err => Some err
  end.

(** Modelled from the spec: [finalize] of section 4.4 step 5, the only path
    from RUNNING to COMPLETED or FAILED; it writes the metric documents and
    [completedAt].  The finalizer is missing. *)
Definition finalize (id : string) (e : ending) (metrics : JS.value * JS.value)
    (now : nat) (s : Store) : outcome :=
  updateStatus id RUNNING (ending_status e)
    {| newError := ending_error e; newMetrics := Some metrics |} now s.

(** Modelled from the spec: the error escape hatch of section 3, any
    non-terminal state to FAILED with the error recorded (section 4.4 names a
    reconciliation sweep as one user of it); the sweep is missing. *)
Definition failRun (id : string) (err : string) (now : nat) (s : Store) : outcome :=
  match s !! id with
  | None => NotFound
  | Some r =>
      if terminal (status r) then Conflict
      else updateStatus id (status r) FAILED
             {| newError := Some err; newMetrics := None |} now s
  end.

(** Modelled from the spec: [getStatus] of section 4.5; progress is
    [completedFiles / filesCount] when there are files and one once the run is
    terminal.  The Status Query Service is missing. *)
Definition progress (r : TestRun) : option Q :=
  if (0 <? filesCount r)%nat
  then Some (inject_Z (Z.of_nat (completedFiles r)) / inject_Z (Z.of_nat (filesCount r)))
  else if terminal (status r) then Some 1 else None.

(** *** Executions *)

(** Modelled from the spec: what can happen to the store, one atomic
    conditional write at a time (section 5): a submission, the completion of
    a run without files, the three writes of the worker, a finalization, a
    failure recorded from outside.  The services are missing. *)
Inductive event : Type :=
| Submit (sets : gmap string TestSet) (testSetId : string)
| CompleteEmpty (id : string)
| PickUp (id : string)
| CopyFailed (id : string) (err : string)
| CopyDone (id : string)
| Finalize (id : string) (e : ending) (metrics : JS.value * JS.value)
| FailRun (id : string) (err : string).

(** Modelled from the spec: the store after one event; a refused write
    leaves it as it was (section 5).  The services are missing. *)
Definition step (now : nat) (ev : event) (s : Store) : Store :=
  match ev with
  | Submit sets testSetId =>
      match submit sets testSetId now s with
      | Accepted _ _ s' => s'
      | _ => s
      end
  | CompleteEmpty id => after (completeEmpty id now s) s
  | PickUp id => after (updateStatus id QUEUED PROCESSING no_fields now s) s
  | CopyFailed id err =>
      after (updateStatus id PROCESSING FAILED
               {| newError := Some err; newMetrics := None |} now s) s
  | CopyDone id => after (updateStatus id PROCESSING RUNNING no_fields now s) s
  | Finalize id e metrics => after (finalize id e metrics now s) s
  | FailRun id err => after (failRun id err now s) s
  end.

(** An execution: events with the time at which each happens. *)
Fixpoint run (evs : list (nat * event)) (s : Store) : Store :=
  match evs with
  | [] => s
  | (now, ev) :: evs' => run evs' (step now ev s)
  end.

End Services.

(** Modelled from the spec: the two writing operations of the Run Record
    Store (section 4.1), addressed to it directly, whoever the caller; the
    store is missing. *)
Inductive write : Type :=
| Create (r : TestRun)
| Update (id : string) (expected new : Status) (f : fields) (now : nat).

Definition apply_write (w : write) (s : Store) : Store :=
  match w with
  | Create r => after (create r s) s
  | Update id expected new f now => after (updateStatus id expected new f now s) s
  end.

Definition apply_writes (ws : list write) (s : Store) : Store :=
  fold_left (fun s w => apply_write w s) ws s.

(** The status flow as the Test Studio documentation draws it:
    QUEUED (TestRunner), then RUNNING (TestFileCopier), then COMPLETED or
    FAILED (Document Processing). *)
Definition documented_flow : list (Status * Status) :=
  [(QUEUED, RUNNING); (RUNNING, COMPLETED); (RUNNING, FAILED)].

(** *** Vocabulary of the properties *)

Definition single_flight (s : Store) : Prop :=
  forall i j ri rj,
    s !! i = Some ri -> s !! j = Some rj ->
    active (status ri) = true -> active (status rj) = true -> i = j.

Definition status_of (s : Store) (id : string) : option Status :=
  status <$> (s !! id).

Definition files_of (s : Store) (id : string) : option nat :=
  filesCount <$> (s !! id).

(** The next status along QUEUED < PROCESSING < RUNNING < {COMPLETED, FAILED}. *)
Definition next_in_order (a b : Status) : Prop := rank b = S (rank a).

(** One step forward, or the jump from a non-terminal status to FAILED. *)
Definition permitted (a b : Status) : Prop :=
  next_in_order a b \/ (terminal a = false /\ b = FAILED).

(** How the status of one run identifier may differ between two consecutive
    stores: a run that does not exist may appear, as QUEUED; a run that exists
    stays, with the same status or a permitted next one. *)
Definition moves (before after : option Status) : Prop :=
  match before, after with
  | None, None => True
  | None, Some b => b = QUEUED
  | Some a, Some b => a = b \/ permitted a b
  | Some _, None => False
  end.

(** *** Example data *)

Definition invoices : gmap string TestSet :=
  {[ "invoices" := {| setName := "invoices"; setFilePattern := "invoice_*.pdf";
                      setDescription := "all invoices" |} ]}.

Definition three_files (pattern : string) : nat := 3.

Definition no_files (pattern : string) : nat := 0.

Definition example_step : nat -> event -> Store -> Store :=
  step three_files "input" "baseline" "tracking".

Definition example_run : list (nat * event) -> Store -> Store :=
  run three_files "input" "baseline" "tracking".

Definition no_metrics : JS.value * JS.value := (JS.VObj [], JS.VObj []).

Definition scenario_A : list (nat * event) :=
  [(1, Submit invoices "invoices");
   (2, PickUp "invoices-1");
   (3, CopyDone "invoices-1");
   (4, Finalize "invoices-1" Completes no_metrics)]%nat.

(** The store at the end of scenario A and the work order of its run. *)
Definition finished_store : Store := example_run scenario_A ∅.

Definition invoices_message : QueueMessage :=
  {| msgTestRunId := "invoices-1"; filePattern := "invoice_*.pdf";
     inputBucket := "input"; baselineBucket := "baseline"; trackingTable := "tracking" |}.

Definition finished_run : TestRun :=
  {| testRunId := "invoices-1"; testSetName := "invoices"; status := COMPLETED;
     filesCount := 3; completedFiles := 0; failedFiles := 0;
     baseline := Some (JS.VObj []); test := Some (JS.VObj []); errorMessage := None;
     createdAt := 1; completedAt := Some 4%nat; updatedAt := 4 |}.

(** A submission for which no file matches, and the store after its run has
    been completed. *)
Definition empty_submitted : Store :=
  step no_files "input" "baseline" "tracking" 1 (Submit invoices "invoices") ∅.

Definition empty_completed : Store :=
  step no_files "input" "baseline" "tracking" 2 (CompleteEmpty "invoices-1")
    empty_submitted.

End Orchestration.

(** * Properties of the arithmetic

    What the proofs below need of rounding to a double: it depends on the
    value only, keeps the sign, never takes a number of at least a power of
    two below that power, and leaves a significand of at most 53 bits. *)

Module RoundingFacts.
Import JS.

Lemma Qltb_lt (a b : Q) : Qltb a b = true <-> a < b.
Proof.
  unfold Qltb. rewrite negb_true_iff.
  destruct (Qle_bool b a) eqn:E.
  - apply Qle_bool_iff in E. split; [discriminate|]. intros Hlt.
    exfalso. exact (Qlt_not_le _ _ Hlt E).
  - split; [|reflexivity]. intros _.
    apply Qnot_le_lt. intros Hle. apply Qle_bool_iff in Hle. congruence.
Qed.

(** *** Rounding to an integer *)

Lemma round_half_even_comp (x y : Q) : x == y -> round_half_even x = round_half_even y.
Proof.
  intros E. unfold round_half_even. rewrite (Qfloor_comp _ _ E).
  assert (C : Qcompare (x - inject_Z (Qfloor y)) (1 # 2) =
              Qcompare (y - inject_Z (Qfloor y)) (1 # 2)) by now rewrite E.
  now rewrite C.
Qed.

Lemma round_half_even_floor (x : Q) : (Qfloor x <= round_half_even x)%Z.
Proof.
  unfold round_half_even.
  destruct (Qcompare (x - inject_Z (Qfloor x)) (1 # 2)); [destruct (Z.even (Qfloor x))| |]; lia.
Qed.

Lemma round_half_even_ceil (x : Q) : (round_half_even x <= Qfloor x + 1)%Z.
Proof.
  unfold round_half_even.
  destruct (Qcompare (x - inject_Z (Qfloor x)) (1 # 2)); [destruct (Z.even (Qfloor x))| |]; lia.
Qed.

(** An integer below [x] is below its rounding. *)
Lemma round_half_even_lower (x : Q) (n : Z) : inject_Z n <= x -> (n <= round_half_even x)%Z.
Proof.
  intros H. apply Z.le_trans with (Qfloor x); [|apply round_half_even_floor].
  rewrite <- (Qfloor_Z n). now apply Qfloor_resp_le.
Qed.

(** ... and [x] below an integer rounds to at most that integer. *)
Lemma round_half_even_upper (x : Q) (n : Z) : x < inject_Z n -> (round_half_even x <= n)%Z.
Proof.
  intros H. apply Z.le_trans with (Qfloor x + 1)%Z; [apply round_half_even_ceil|].
  assert (Qfloor x < n)%Z; [|lia].
  rewrite Zlt_Qlt. apply Qle_lt_trans with x; [apply Qfloor_le | exact H].
Qed.

(** *** Powers of two *)

Lemma pow2_pos (k : Z) : (0 <= k)%Z -> 0 < inject_Z (2 ^ k).
Proof.
  intros H. change 0 with (inject_Z 0). rewrite <- Zlt_Qlt.
  apply Z.pow_pos_nonneg; lia.
Qed.

Lemma dropped_bits_nonneg (s : Q) : (0 <= dropped_bits s)%Z.
Proof. unfold dropped_bits. lia. Qed.

Lemma dropped_bits_comp (s s' : Q) : s == s' -> dropped_bits s = dropped_bits s'.
Proof. intros E. unfold dropped_bits. now rewrite (Qfloor_comp _ _ E). Qed.

(** More units drop at least as many bits. *)
Lemma dropped_bits_mono (s s' : Q) : s <= s' -> (dropped_bits s <= dropped_bits s')%Z.
Proof.
  intros H. unfold dropped_bits.
  pose proof (Z.log2_le_mono _ _ (Qfloor_resp_le _ _ H)). lia.
Qed.

(** What is kept has at most 53 bits. *)
Lemma below_kept_bits (s : Q) : s < inject_Z (2 ^ (53 + dropped_bits s)).
Proof.
  unfold dropped_bits.
  destruct (Z.lt_ge_cases 0 (Qfloor s)) as [Hpos|Hneg].
  - destruct (Z.log2_spec _ Hpos) as [_ Hup].
    apply Qlt_le_trans with (inject_Z (Qfloor s + 1)); [apply Qlt_floor|].
    rewrite <- Zle_Qle.
    apply Z.le_trans with (2 ^ Z.succ (Z.log2 (Qfloor s)))%Z; [lia|].
    apply Z.pow_le_mono_r; lia.
  - apply Qlt_le_trans with (inject_Z (Qfloor s + 1)); [apply Qlt_floor|].
    rewrite <- Zle_Qle.
    apply Z.le_trans with 1%Z; [lia|].
    assert (0 < 2 ^ (53 + Z.max 0 (Z.log2 (Qfloor s) - 52)))%Z
      by (apply Z.pow_pos_nonneg; lia).
    lia.
Qed.

(** *** Rounding to whole units *)

Lemma rounded_units_comp (s s' : Q) : s == s' -> rounded_units s = rounded_units s'.
Proof.
  intros E. unfold rounded_units. rewrite (dropped_bits_comp _ _ E).
  f_equal. apply round_half_even_comp. now rewrite E.
Qed.

Lemma rounded_units_nonneg (s : Q) : 0 <= s -> (0 <= rounded_units s)%Z.
Proof.
  intros H. unfold rounded_units.
  pose proof (dropped_bits_nonneg s) as K. pose proof (pow2_pos _ K) as P.
  apply Z.mul_nonneg_nonneg; [|apply Z.pow_nonneg; lia].
  apply round_half_even_lower. change (inject_Z 0) with 0.
  apply Qle_shift_div_l; [exact P|]. now rewrite Qmult_0_l.
Qed.

(** A power of two below [s] is below its rounding. *)
Lemma rounded_units_lower (s : Q) (j : Z) :
  (0 <= j)%Z -> inject_Z (2 ^ j) <= s -> (2 ^ j <= rounded_units s)%Z.
Proof.
  intros Hj Hs. unfold rounded_units.
  pose proof (dropped_bits_nonneg s) as K. pose proof (pow2_pos _ K) as P.
  set (k := dropped_bits s) in *.
  destruct (Z.le_gt_cases k j) as [Hkj|Hjk].
  - assert (M : (2 ^ (j - k) <= round_half_even (s / inject_Z (2 ^ k)))%Z).
    { apply round_half_even_lower. apply Qle_shift_div_l; [exact P|].
      rewrite <- inject_Z_mult, <- Z.pow_add_r by lia.
      now replace (j - k + k)%Z with j by lia. }
    replace j with (j - k + k)%Z at 1 by lia. rewrite Z.pow_add_r by lia.
    apply Z.mul_le_mono_nonneg_r; [apply Z.pow_nonneg; lia | exact M].
  - assert (M : (1 <= round_half_even (s / inject_Z (2 ^ k)))%Z).
    { apply round_half_even_lower. apply Qle_shift_div_l; [exact P|].
      rewrite Qmult_1_l.
      assert (Hk : k = (Z.log2 (Qfloor s) - 52)%Z) by (unfold k, dropped_bits in *; lia).
      assert (Hpos : (0 < Qfloor s)%Z).
      { destruct (Z.lt_ge_cases 0 (Qfloor s)) as [H|H]; [exact H|].
        rewrite (Z.log2_nonpos _ H) in Hk. lia. }
      destruct (Z.log2_spec _ Hpos) as [Hlow _].
      apply Qle_trans with (inject_Z (Qfloor s)); [|apply Qfloor_le].
      rewrite <- Zle_Qle.
      apply Z.le_trans with (2 ^ Z.log2 (Qfloor s))%Z; [|exact Hlow].
      apply Z.pow_le_mono_r; lia. }
    apply Z.le_trans with (1 * 2 ^ k)%Z.
    + rewrite Z.mul_1_l. apply Z.pow_le_mono_r; lia.
    + apply Z.mul_le_mono_nonneg_r; [apply Z.pow_nonneg; lia | exact M].
Qed.

(** The rounding is a multiple of the dropped power of two, with a
    significand of at most 2^53. *)
Lemma rounded_units_upper (s : Q) :
  (rounded_units s <= 2 ^ 53 * 2 ^ dropped_bits s)%Z.
Proof.
  unfold rounded_units.
  pose proof (dropped_bits_nonneg s) as K. pose proof (pow2_pos _ K) as P.
  apply Z.mul_le_mono_nonneg_r; [apply Z.pow_nonneg; lia|].
  apply round_half_even_upper. apply Qlt_shift_div_r; [exact P|].
  rewrite <- inject_Z_mult, <- Z.pow_add_r by lia. apply below_kept_bits.
Qed.

(** *** Rounding to a double *)

Lemma two_1074_pos : 0 < two_1074.
Proof. apply pow2_pos. lia. Qed.

Lemma Qltb_comp (x y c : Q) : x == y -> Qltb x c = Qltb y c.
Proof.
  intros E. destruct (Qltb y c) eqn:B.
  - apply Qltb_lt. rewrite E. now apply Qltb_lt.
  - destruct (Qltb x c) eqn:A; [|reflexivity].
    apply Qltb_lt in A. rewrite E in A. apply Qltb_lt in A. congruence.
Qed.

Lemma in_units_comp (x y : Q) : x == y -> in_units x == in_units y.
Proof. intros E. unfold in_units. now rewrite E. Qed.

(** Equal rationals round to the same double. *)
Lemma round64_comp (x y : Q) : x == y -> round64 x = round64 y.
Proof.
  intros E. unfold round64.
  rewrite (rounded_units_comp _ _ (in_units_comp _ _ E)), (Qltb_comp _ _ 0 E).
  destruct (2 ^ 2098 <=? rounded_units (in_units y))%Z; [reflexivity|].
  f_equal.
Qed.

Lemma round64_zero (q : Q) : q == 0 -> round64 q = Fin 0.
Proof. intros E. rewrite (round64_comp _ _ E). vm_compute. reflexivity. Qed.

(** A magnitude that is not negative rounds to a double that is not
    negative, and that is the rounded number of units. *)
Lemma round64_nonneg (q : Q) :
  0 <= q ->
  round64 q = PInf \/
  exists r, round64 q = Fin r /\
            r == inject_Z (rounded_units (q * two_1074)) / two_1074.
Proof.
  intros H. unfold round64.
  assert (S : Qltb q 0 = false).
  { destruct (Qltb q 0) eqn:B; [|reflexivity]. apply Qltb_lt in B. lra. }
  assert (U : in_units q == q * two_1074).
  { unfold in_units. now rewrite (Qabs_pos _ H). }
  rewrite S, (rounded_units_comp _ _ U).
  destruct (2 ^ 2098 <=? rounded_units (q * two_1074))%Z; [now left|].
  right. eexists. split; [reflexivity|]. apply Qred_correct.
Qed.

Lemma round64_nonpos (q : Q) :
  q <= 0 -> round64 q = NInf \/ exists r, round64 q = Fin r /\ r <= 0.
Proof.
  intros H. destruct (Qltb q 0) eqn:B.
  - unfold round64. rewrite B.
    assert (U : 0 <= in_units q).
    { unfold in_units. apply Qmult_le_0_compat; [apply Qabs_nonneg|].
      apply Qlt_le_weak, two_1074_pos. }
    pose proof (rounded_units_nonneg _ U) as N.
    assert (Nq : 0 <= inject_Z (rounded_units (in_units q)))
      by (change 0 with (inject_Z 0); now rewrite <- Zle_Qle).
    pose proof two_1074_pos as P.
    destruct (2 ^ 2098 <=? rounded_units (in_units q))%Z; [now left|].
    right. eexists. split; [reflexivity|]. rewrite Qred_correct.
    apply Qle_shift_div_r; [exact P|]. rewrite Qmult_0_l. lra.
  - assert (Z0 : q == 0).
    { apply Qle_antisym; [exact H|].
      apply Qnot_lt_le. intros C. apply Qltb_lt in C. congruence. }
    right. exists 0. split; [now apply round64_zero | apply Qle_refl].
Qed.

(** A double at least as large as a power of two units stays so. *)
Lemma round64_at_least (q : Q) (j : Z) :
  (0 <= j)%Z -> inject_Z (2 ^ j) <= q * two_1074 ->
  round64 q = PInf \/
  exists r, round64 q = Fin r /\ inject_Z (2 ^ j) / two_1074 <= r.
Proof.
  intros Hj Hq.
  pose proof two_1074_pos as P. pose proof (pow2_pos j Hj) as Pj.
  assert (H0 : 0 <= q).
  { apply Qnot_lt_le. intros C.
    assert (q * two_1074 < 0); [|lra].
    rewrite <- (Qmult_0_l two_1074). apply Qmult_lt_compat_r; assumption. }
  destruct (round64_nonneg q H0) as [I | (r & E & Hr)]; [now left|].
  right. exists r. split; [exact E|]. rewrite Hr.
  apply Qle_shift_div_l; [exact P|].
  unfold Qdiv. rewrite <- Qmult_assoc, (Qmult_comm (/ two_1074)), Qmult_inv_r, Qmult_1_r
    by (intros C; rewrite C in P; apply (Qlt_irrefl 0 P)).
  rewrite <- Zle_Qle. now apply rounded_units_lower.
Qed.

(** A double, in units, is the whole number it rounds to. *)
Lemma double_units (q : Q) :
  is_double q = true -> 0 <= q ->
  q * two_1074 == inject_Z (rounded_units (q * two_1074)).
Proof.
  intros D H. unfold is_double in D.
  pose proof two_1074_pos as P.
  destruct (round64_nonneg q H) as [I | (r & E & Hr)]; [rewrite I in D; discriminate|].
  rewrite E in D. apply Qeq_bool_eq in D. rewrite <- D at 1. rewrite Hr.
  unfold Qdiv. rewrite <- Qmult_assoc, (Qmult_comm (/ two_1074)), Qmult_inv_r, Qmult_1_r
    by (intros C; rewrite C in P; apply (Qlt_irrefl 0 P)).
  reflexivity.
Qed.

(** Two doubles that differ are at least one unit of the smaller apart. *)
Lemma double_gap (t b : Q) :
  is_double t = true -> is_double b = true -> 0 < b -> b < t ->
  inject_Z (2 ^ dropped_bits (b * two_1074)) <= (t - b) * two_1074.
Proof.
  intros Dt Db Pb Hlt. pose proof two_1074_pos as P.
  assert (Pt : 0 <= t) by lra.
  pose proof (double_units t Dt Pt) as Et.
  pose proof (double_units b Db (Qlt_le_weak _ _ Pb)) as Eb.
  assert (Hs : b * two_1074 < t * two_1074) by (apply Qmult_lt_compat_r; assumption).
  pose proof (dropped_bits_mono _ _ (Qlt_le_weak _ _ Hs)) as Hk.
  pose proof (dropped_bits_nonneg (b * two_1074)) as Kb.
  assert (Hz : (rounded_units (b * two_1074) < rounded_units (t * two_1074))%Z).
  { rewrite Zlt_Qlt, <- Et, <- Eb. exact Hs. }
  assert (E : (t - b) * two_1074 ==
              inject_Z (rounded_units (t * two_1074) - rounded_units (b * two_1074))).
  { unfold Zminus. rewrite inject_Z_plus, inject_Z_opp, <- Et, <- Eb. ring. }
  rewrite E, <- Zle_Qle. clear E Et Eb Hs.
  unfold rounded_units in *.
  set (kt := dropped_bits (t * two_1074)) in *.
  set (kb := dropped_bits (b * two_1074)) in *.
  set (mt := round_half_even (t * two_1074 / inject_Z (2 ^ kt))) in *.
  set (mb := round_half_even (b * two_1074 / inject_Z (2 ^ kb))) in *.
  clearbody mt mb kt kb.
  assert (Hp : (0 < 2 ^ kb)%Z) by (apply Z.pow_pos_nonneg; lia).
  replace kt with (kt - kb + kb)%Z in * by lia.
  rewrite Z.pow_add_r in * by lia.
  rewrite Z.mul_assoc in *. rewrite <- Z.mul_sub_distr_r.
  assert (1 <= mt * 2 ^ (kt - kb) - mb)%Z; [|nia].
  assert (mb * 2 ^ kb < mt * 2 ^ (kt - kb) * 2 ^ kb)%Z by exact Hz. nia.
Qed.

(** The sign of a relative change computed in doubles: for a positive
    baseline [(t - b) / b] is positive exactly when [t] exceeds [b]; the
    difference of two doubles is never lost to rounding, nor is its quotient
    by the smaller one. *)
Lemma relative_sign (t b : Q) :
  is_double t = true -> is_double b = true -> 0 < b ->
  (ngtb (ndiv (nsub (Fin t) (Fin b)) (Fin b)) (Fin 0) = true <-> b < t).
Proof.
  intros Dt Db Pb. pose proof two_1074_pos as P.
  assert (Nb : Qeq_bool b 0 = false).
  { destruct (Qeq_bool b 0) eqn:E; [|reflexivity]. apply Qeq_bool_eq in E. lra. }
  assert (Sb : Qltb b 0 = false).
  { destruct (Qltb b 0) eqn:E; [|reflexivity]. apply Qltb_lt in E. lra. }
  cbn [nsub]. split.
  - intros G. apply Qnot_le_lt. intros Hle.
    destruct (round64_nonpos (t - b)) as [I | (r & E & Hr)]; [lra| |].
    + rewrite I in G. cbn [ndiv] in G. rewrite Sb in G. discriminate G.
    + rewrite E in G. cbn [ndiv] in G. rewrite Nb in G.
      assert (Hq : r / b <= 0).
      { apply Qle_shift_div_r; [exact Pb|]. now rewrite Qmult_0_l. }
      destruct (round64_nonpos _ Hq) as [I | (r' & E' & Hr')]; rewrite ?I, ?E' in G.
      * discriminate G.
      * cbn [ngtb] in G. apply Qltb_lt in G. lra.
  - intros Hlt.
    pose proof (double_gap t b Dt Db Pb Hlt) as Gap.
    pose proof (dropped_bits_nonneg (b * two_1074)) as Kb.
    pose proof (pow2_pos _ Kb) as Pa.
    destruct (round64_at_least (t - b) _ Kb Gap) as [I | (d & E & Hd)].
    + rewrite I. cbn [ndiv]. now rewrite Sb.
    + rewrite E. cbn [ndiv]. rewrite Nb.
      set (A := inject_Z (2 ^ dropped_bits (b * two_1074))) in *.
      assert (H1 : A <= d * two_1074).
      { apply Qle_trans with (A / two_1074 * two_1074).
        - unfold Qdiv. rewrite <- Qmult_assoc, (Qmult_comm (/ two_1074)), Qmult_inv_r, Qmult_1_r
            by (intros C; rewrite C in P; apply (Qlt_irrefl 0 P)).
          apply Qle_refl.
        - apply Qmult_le_compat_r; [exact Hd | now apply Qlt_le_weak]. }
      assert (H2 : b * two_1074 <= inject_Z (2 ^ 53) * A).
      { rewrite (double_units b Db (Qlt_le_weak _ _ Pb)). unfold A.
        rewrite <- inject_Z_mult, <- Zle_Qle. apply rounded_units_upper. }
      assert (H3 : b <= A).
      { apply (Qmult_lt_0_le_reg_r _ _ two_1074 P).
        apply Qle_trans with (inject_Z (2 ^ 53) * A); [exact H2|].
        rewrite (Qmult_comm A). apply Qmult_le_compat_r; [|now apply Qlt_le_weak].
        unfold two_1074. rewrite <- Zle_Qle. apply Z.pow_le_mono_r; lia. }
      assert (H4 : inject_Z (2 ^ 0) <= d / b * two_1074).
      { change (inject_Z (2 ^ 0)) with 1.
        assert (E4 : d / b * two_1074 == d * two_1074 / b) by (field; lra).
        rewrite E4. apply Qle_shift_div_l; [exact Pb|]. rewrite Qmult_1_l. lra. }
      destruct (round64_at_least (d / b) 0 (Z.le_refl 0) H4) as [I | (r & E' & Hr)].
      * now rewrite I.
      * rewrite E'. cbn [ngtb]. apply Qltb_lt.
        apply Qlt_le_trans with (inject_Z (2 ^ 0) / two_1074); [|exact Hr].
        apply Qlt_shift_div_l; [exact P|]. rewrite Qmult_0_l. reflexivity.
Qed.

(** Equal doubles: the difference, the relative change and the change in
    percent are all zero. *)
Lemma change_of_equal (t b : Q) :
  t == b -> ~ b == 0 ->
  ndiv (nsub (Fin t) (Fin b)) (Fin b) = Fin 0 /\
  nmul (ndiv (nsub (Fin t) (Fin b)) (Fin b)) (Fin 100) = Fin 0.
Proof.
  intros E Nb.
  assert (Z0 : nsub (Fin t) (Fin b) = Fin 0).
  { cbn [nsub]. apply round64_zero. rewrite E. ring. }
  assert (Z1 : ndiv (Fin 0) (Fin b) = Fin 0).
  { cbn [ndiv]. destruct (Qeq_bool b 0) eqn:B; [apply Qeq_bool_eq in B; contradiction|].
    apply round64_zero. unfold Qdiv. ring. }
  rewrite Z0, Z1. split; [reflexivity|].
  cbn [nmul]. apply round64_zero. ring.
Qed.

End RoundingFacts.

(** * Properties of the comparison component *)

Module ComparisonFacts.
Import JS TestComparison.

Section Facts.

Variable h : Host.

Local Abbreviation parse_doc := (TestComparison.parse_doc h).
Local Abbreviation side := (TestComparison.side h).
Local Abbreviation nonempty := (TestComparison.nonempty h).
Local Abbreviation configSection := (TestComparison.configSection h).
Local Abbreviation presentPercentCell := (TestComparison.presentPercentCell h).
Local Abbreviation accuracyCell := (TestComparison.accuracyCell h).
Local Abbreviation confidenceCell := (TestComparison.confidenceCell h).
Local Abbreviation accuracyChangeCell := (TestComparison.accuracyChangeCell h).
Local Abbreviation truthyPercentCell := (TestComparison.truthyPercentCell h).
Local Abbreviation precisionCell := (TestComparison.precisionCell h).
Local Abbreviation recallCell := (TestComparison.recallCell h).
Local Abbreviation f1Cell := (TestComparison.f1Cell h).
Local Abbreviation costCell := (TestComparison.costCell h).
Local Abbreviation testCostCell := (TestComparison.testCostCell h).
Local Abbreviation baselineCostCell := (TestComparison.baselineCostCell h).
Local Abbreviation relative_change := (TestComparison.relative_change h).
Local Abbreviation costChangeText := (TestComparison.costChangeText h).
Local Abbreviation costChangeValue := (TestComparison.costChangeValue h).
Local Abbreviation calculateChange_change := (TestComparison.calculateChange_change h).
Local Abbreviation calculateChange := (TestComparison.calculateChange h).
Local Abbreviation add_field := (TestComparison.add_field h).
Local Abbreviation aggregate_step := (TestComparison.aggregate_step h).
Local Abbreviation aggregateTokens := (TestComparison.aggregateTokens h).
Local Abbreviation usage_of := (TestComparison.usage_of h).
Local Abbreviation inputTokensCell := (TestComparison.inputTokensCell h).
Local Abbreviation testInputTokensCell := (TestComparison.testInputTokensCell h).
Local Abbreviation baselineInputTokensCell := (TestComparison.baselineInputTokensCell h).
Local Abbreviation totalTokenChangeCell := (TestComparison.totalTokenChangeCell h).
Local Abbreviation magnitude_and_arrow := (TestComparison.magnitude_and_arrow h).
Local Abbreviation renderChangeValue := (TestComparison.renderChangeValue h).
Local Abbreviation display_change := (TestComparison.display_change h).
Local Abbreviation costChangeCell := (TestComparison.costChangeCell h).
Local Abbreviation usageChangeCell := (TestComparison.usageChangeCell h).
Local Abbreviation performanceRows := (TestComparison.performanceRows h).
Local Abbreviation accuracyRows := (TestComparison.accuracyRows h).
Local Abbreviation costRows := (TestComparison.costRows h).
Local Abbreviation usageRows := (TestComparison.usageRows h).
Local Abbreviation performanceTable := (TestComparison.performanceTable h).
Local Abbreviation accuracyTable := (TestComparison.accuracyTable h).
Local Abbreviation costTable := (TestComparison.costTable h).
Local Abbreviation usageTable := (TestComparison.usageTable h).
Local Abbreviation renderComparison := (TestComparison.renderComparison h).
Local Abbreviation sound_run := (TestComparison.sound_run h).
Local Abbreviation js_sum_field := (TestComparison.js_sum_field h).

(** *** Reading documents *)

Lemma truthy_not_nullish (v : value) : truthy v = true -> nullish v = false.
Proof. destruct v; simpl; congruence. Qed.

Lemma nullish_not_truthy (v : value) : nullish v = true -> truthy v = false.
Proof. destruct v; simpl; congruence. Qed.

(** When an optional chain [d?.g?.f] yields something other than [null] or
    [undefined], the plain member reads [d.g.f] succeed and yield the same. *)
Lemma opt_chain_prop (d : value) (g f : string) :
  nullish (opt_prop (opt_prop d g) f) = false ->
  prop d g = Ok (get d g) /\
  prop (get d g) f = Ok (opt_prop (opt_prop d g) f).
Proof.
  unfold opt_prop, prop.
  destruct (nullish d) eqn:Hd; simpl.
  - discriminate.
  - destruct (nullish (get d g)) eqn:Hg; simpl; [discriminate | auto].
Qed.

Lemma Qeq_bool_false (q : Q) : ~ q == 0 -> Qeq_bool q 0 = false.
Proof.
  intros Hq. destruct (Qeq_bool q 0) eqn:E; [|reflexivity].
  exfalso. apply Hq. now apply Qeq_bool_eq.
Qed.

Lemma Qltb_true (a b : Q) : Qltb a b = true <-> a < b.
Proof.
  unfold Qltb. rewrite negb_true_iff.
  destruct (Qle_bool b a) eqn:E.
  - apply Qle_bool_iff in E. split; [discriminate|]. intros Hlt.
    exfalso. exact (Qlt_not_le _ _ Hlt E).
  - split; [|reflexivity]. intros _.
    apply Qnot_le_lt. intros Hle. apply Qle_bool_iff in Hle. congruence.
Qed.

Lemma Qltb_false (a b : Q) : Qltb a b = false <-> b <= a.
Proof.
  unfold Qltb. rewrite negb_false_iff. apply Qle_bool_iff.
Qed.

Lemma truthy_num (q : Q) : ~ q == 0 -> truthy (VNum (Fin q)) = true.
Proof. intros Hq; simpl. now rewrite Qeq_bool_false. Qed.

Lemma strict_eq_zero_num (q : Q) : ~ q == 0 -> strict_eq_zero (VNum (Fin q)) = false.
Proof. intros Hq; simpl. now apply Qeq_bool_false. Qed.

Lemma relative_change_numbers (t b : Q) :
  relative_change (VNum (Fin t)) (VNum (Fin b)) = ndiv (nsub (Fin t) (Fin b)) (Fin b).
Proof. reflexivity. Qed.

(** *** Printing zero *)

Lemma round_at_zero (d : nat) (a : Q) : a == 0 -> round_at d a = 0%Z.
Proof.
  intros Ha. unfold round_at.
  assert (E : a * pow10 d + (1 # 2) == 1 # 2) by (rewrite Ha; ring).
  rewrite (Qfloor_comp _ _ E). reflexivity.
Qed.

Lemma toFixed_2_zero (x : Q) : x == 0 -> toFixed h 2 (Fin x) = "0.00".
Proof.
  intros Hx. unfold toFixed.
  assert (Hn : Qltb x 0 = false) by (apply Qltb_false; rewrite Hx; apply Qle_refl).
  assert (Ha : Qabs x == 0) by (rewrite Hx; reflexivity).
  assert (Hb : Qle_bool (pow10 21) (Qabs x) = false).
  { destruct (Qle_bool (pow10 21) (Qabs x)) eqn:E; [|reflexivity].
    apply Qle_bool_iff in E. rewrite Ha in E.
    exfalso. apply (Qle_not_lt _ _ E). reflexivity. }
  rewrite Hn, Hb, (round_at_zero 2 _ Ha). reflexivity.
Qed.

(** *** Complete and incomplete runs *)

(** On a metrics object all of whose runs can be read, the filter keeps
    exactly the entries whose status is the string COMPLETE. *)
Lemma completeTestRuns_filter (fields : list (string * value)) :
  Forall readable fields ->
  completeTestRuns (VObj fields) =
  Ok (List.filter (fun e => status_is_COMPLETE (snd e)) fields).
Proof.
  unfold completeTestRuns, Object_entries; simpl.
  induction 1 as [|e l He _ IH]; simpl; [reflexivity|].
  unfold is_complete at 1, prop. rewrite He; simpl.
  rewrite IH; simpl. unfold status_is_COMPLETE.
  destruct (strict_eq_str (get (snd e) "status") "COMPLETE"); reflexivity.
Qed.

(** ... and the warning is raised exactly when some entry has another status. *)
Lemma hasIncompleteRuns_existsb (fields : list (string * value)) :
  Forall readable fields ->
  hasIncompleteRuns (VObj fields) =
  Ok (existsb (fun e => negb (status_is_COMPLETE (snd e))) fields).
Proof.
  unfold hasIncompleteRuns, Object_values, Object_entries; simpl.
  induction 1 as [|e l He _ IH]; simpl; [reflexivity|].
  unfold is_incomplete at 1, prop. rewrite He; simpl.
  unfold status_is_COMPLETE at 1.
  destruct (strict_eq_str (get (snd e) "status") "COMPLETE"); simpl; [exact IH | reflexivity].
Qed.

(** *** The cost-change row *)

(** Both costs numbers other than zero: the row holds the relative change in
    percent to two decimals, then the arrow chosen by its sign. *)
Lemma costChangeValue_numbers (testRun test baseline : value) (t b : Q) :
  side "test" testRun = Ok test ->
  side "baseline" testRun = Ok baseline ->
  total_cost test = VNum (Fin t) ->
  total_cost baseline = VNum (Fin b) ->
  ~ t == 0 -> ~ b == 0 ->
  costChangeValue testRun =
  Ok (VStr (toFixed h 2 (nmul (ndiv (nsub (Fin t) (Fin b)) (Fin b)) (Fin 100)) +:+ "%" +:+
            (if ngtb (ndiv (nsub (Fin t) (Fin b)) (Fin b)) (Fin 0) then UP else DOWN))).
Proof.
  intros Ht Hb Et Eb Nt Nb. unfold costChangeValue.
  rewrite Ht, Hb; simpl.
  assert (Tt : truthy (total_cost test) = true)
    by (rewrite Et; simpl; now rewrite Qeq_bool_false).
  assert (Tb : truthy (total_cost baseline) = true)
    by (rewrite Eb; simpl; now rewrite Qeq_bool_false).
  rewrite Tt, Tb; simpl.
  destruct (opt_chain_prop test "cost" "total_cost" (truthy_not_nullish _ Tt)) as [P1 P2].
  destruct (opt_chain_prop baseline "cost" "total_cost" (truthy_not_nullish _ Tb)) as [P3 P4].
  rewrite P1; simpl. rewrite P2; simpl. rewrite P3; simpl. rewrite P4; simpl.
  fold (total_cost test) (total_cost baseline). rewrite Et, Eb.
  reflexivity.
Qed.

(** One cost falsy (zero, absent, null, ...): the row holds the sentinel. *)
Lemma costChangeValue_falsy (testRun test baseline : value) :
  side "test" testRun = Ok test ->
  side "baseline" testRun = Ok baseline ->
  truthy (total_cost test) = false \/ truthy (total_cost baseline) = false ->
  costChangeValue testRun = Ok NA.
Proof.
  intros Ht Hb Hf. unfold costChangeValue. rewrite Ht, Hb; simpl.
  destruct Hf as [E|E]; rewrite E; [|rewrite andb_false_r]; reflexivity.
Qed.

Lemma missing_or_zero_falsy (v : value) : missing_or_zero v -> truthy v = false.
Proof.
  intros [-> | [-> | [q [-> Hq]]]]; simpl; try reflexivity.
  now rewrite (Qeq_eq_bool _ _ Hq).
Qed.

(** C2, as the component computes it: for a complete run whose two documents
    can be read, when both total costs are numbers other than zero the Cost
    Change row holds [(test - baseline) / baseline * 100], each of the three
    operations rounded to a double, printed to two decimals, then a percent
    sign, and an up arrow when the relative change is positive, a down arrow
    otherwise; when the total cost of either side is zero, absent or null the
    row holds the sentinel N/A. *)
Theorem cost_change_row (testRun test baseline : value) :
  side "test" testRun = Ok test ->
  side "baseline" testRun = Ok baseline ->
  (forall t b : Q,
      total_cost test = VNum (Fin t) ->
      total_cost baseline = VNum (Fin b) ->
      ~ t == 0 -> ~ b == 0 ->
      costChangeValue testRun =
      Ok (VStr (toFixed h 2 (nmul (ndiv (nsub (Fin t) (Fin b)) (Fin b)) (Fin 100)) +:+
                "%" +:+
                (if ngtb (ndiv (nsub (Fin t) (Fin b)) (Fin b)) (Fin 0)
                 then UP else DOWN)))) /\
  (missing_or_zero (total_cost test) \/ missing_or_zero (total_cost baseline) ->
   costChangeValue testRun = Ok NA).
Proof.
  intros Ht Hb. split.
  - intros t b. now apply costChangeValue_numbers.
  - intros Hz. apply (costChangeValue_falsy _ _ _ Ht Hb).
    destruct Hz as [Hz|Hz]; [left|right]; now apply missing_or_zero_falsy.
Qed.

(** C10: for a complete run whose two total costs are numbers other than
    zero, the raw cost-change string of two positive costs ends with the up
    arrow exactly when the test cost is strictly greater than the baseline
    cost, and with the down arrow otherwise; with equal costs the string is
    "0.00%" followed by the down arrow, whereas [calculateChange] on equal
    totals appends no arrow. *)
Theorem cost_arrow_direction (testRun test baseline : value) (t b : Q) :
  side "test" testRun = Ok test ->
  side "baseline" testRun = Ok baseline ->
  total_cost test = VNum (Fin t) ->
  total_cost baseline = VNum (Fin b) ->
  ~ t == 0 -> ~ b == 0 ->
  (is_double t = true -> is_double b = true -> 0 < t -> 0 < b ->
   costChangeValue testRun =
   Ok (VStr (toFixed h 2 (nmul (ndiv (nsub (Fin t) (Fin b)) (Fin b)) (Fin 100)) +:+
             "%" +:+ (if Qltb b t then UP else DOWN)))) /\
  (t == b -> costChangeValue testRun = Ok (VStr "0.00% ↓")) /\
  (t == b ->
   calculateChange (VNum (Fin t)) (VNum (Fin b)) =
   NumberToString h (nabs (ToNumber h (VStr "0.00"))) +:+ "%").
Proof.
  intros Ht Hb Et Eb Nt Nb.
  pose proof (costChangeValue_numbers _ _ _ _ _ Ht Hb Et Eb Nt Nb) as Hrow.
  split; [|split].
  - intros Dt Db Pt Pb. rewrite Hrow.
    pose proof (RoundingFacts.relative_sign t b Dt Db Pb) as Hs.
    destruct (Qltb b t) eqn:L.
    + apply Qltb_true in L. now rewrite (proj2 Hs L).
    + destruct (ngtb (ndiv (nsub (Fin t) (Fin b)) (Fin b)) (Fin 0)); [|reflexivity].
      apply Qltb_false in L. pose proof (proj1 Hs eq_refl) as C.
      exfalso. exact (Qlt_not_le _ _ C L).
  - intros E. rewrite Hrow.
    destruct (RoundingFacts.change_of_equal t b E Nb) as [-> ->]. reflexivity.
  - intros E. unfold calculateChange, calculateChange_change.
    rewrite (truthy_num _ Nb), (strict_eq_zero_num _ Nb), relative_change_numbers.
    cbn [negb orb].
    destruct (RoundingFacts.change_of_equal t b E Nb) as [_ ->]. reflexivity.
Qed.

(** C9: in the accuracy and cost breakdowns a precision, recall, F1 score or
    total cost that is the number zero gives the same cell as one that is
    absent, the sentinel N/A; the Accuracy row of the performance table tests
    for null and undefined instead and prints an accuracy of zero as
    "0.00%". *)
Theorem zero_shown_as_missing (testRun test baseline : value) :
  side "test" testRun = Ok test ->
  side "baseline" testRun = Ok baseline ->
  (missing_or_zero (opt_prop (opt_prop test "accuracy") "precision") ->
   precisionCell testRun = Ok NA) /\
  (missing_or_zero (opt_prop (opt_prop test "accuracy") "recall") ->
   recallCell testRun = Ok NA) /\
  (missing_or_zero (opt_prop (opt_prop test "accuracy") "f1_score") ->
   f1Cell testRun = Ok NA) /\
  (missing_or_zero (total_cost test) -> testCostCell testRun = Ok NA) /\
  (missing_or_zero (total_cost baseline) -> baselineCostCell testRun = Ok NA) /\
  (forall q : Q,
      opt_prop (opt_prop test "accuracy") "accuracy" = VNum (Fin q) -> q == 0 ->
      accuracyCell testRun = Ok (VStr "0.00%")) /\
  (nullish (opt_prop (opt_prop test "accuracy") "accuracy") = true ->
   accuracyCell testRun = Ok NA).
Proof.
  intros Ht Hb.
  assert (Hp : forall f, missing_or_zero (opt_prop (opt_prop test "accuracy") f) ->
                         truthyPercentCell f testRun = Ok NA).
  { intros f Hz. unfold truthyPercentCell. rewrite Ht; simpl.
    now rewrite (missing_or_zero_falsy _ Hz). }
  assert (Hc : forall which doc, side which testRun = Ok doc ->
                 missing_or_zero (total_cost doc) -> costCell which testRun = Ok NA).
  { intros which doc Hd Hz. unfold costCell. rewrite Hd; simpl.
    now rewrite (missing_or_zero_falsy _ Hz). }
  repeat split.
  - apply Hp.
  - apply Hp.
  - apply Hp.
  - apply (Hc "test" test Ht).
  - apply (Hc "baseline" baseline Hb).
  - intros q Eq Zq. unfold accuracyCell, presentPercentCell. rewrite Ht; cbn [bind].
    assert (Nn : nullish (opt_prop (opt_prop test "accuracy") "accuracy") = false)
      by now rewrite Eq.
    rewrite Nn; cbn [negb].
    destruct (opt_chain_prop _ _ _ Nn) as [P1 P2].
    rewrite P1; cbn [bind]. rewrite P2; cbn [bind]. rewrite Eq.
    unfold js_mul; cbn [ToNumber nmul].
    assert (Z1 : q * 100 == 0) by (rewrite Zq; ring).
    now rewrite (RoundingFacts.round64_zero _ Z1).
  - intros Nn. unfold accuracyCell, presentPercentCell. rewrite Ht; simpl.
    now rewrite Nn.
Qed.

(** *** Configuration differences *)

(** The configuration section by cases: a table exactly for two ids and a
    list of rows that is present and not empty; for any other number of ids
    the note that names the number supplied. *)
Lemma configSection_cases (ids : list string) (configs : value) :
  (is_table (configSection ids configs) = true <->
   List.length ids = 2%nat /\ truthy configs = true /\ nonempty configs = true) /\
  (is_table (configSection ids configs) = true ->
   configSection ids configs = ConfigTable configs ("setting" :: ids)) /\
  (List.length ids <> 2%nat ->
   configSection ids configs = OnlyForTwoRuns (List.length ids)).
Proof.
  unfold configSection, js_or.
  destruct (Nat.eqb_spec (List.length ids) 2) as [E|E];
    destruct (truthy configs) eqn:T; cbn [andb];
    try destruct (nonempty configs) eqn:N; cbn [is_table];
    repeat split; try congruence; try tauto; try discriminate; intuition congruence.
Qed.

(** The configuration section of a rendered comparison. *)
Lemma rendered_configuration (comparing : bool) (ids : list string)
    (comparisonData : value) (view : comparisonView) :
  TestComparison.render h comparing ids comparisonData = Ok (Comparison view) ->
  configuration view = configSection ids (get comparisonData "configs").
Proof.
  unfold TestComparison.render. destruct comparing; [discriminate|].
  destruct (truthy comparisonData) eqn:Td; cbn [negb]; [|discriminate].
  unfold prop at 1. rewrite (truthy_not_nullish _ Td). cbn [bind].
  destruct (truthy (get comparisonData "error")); [discriminate|].
  unfold TestComparison.renderComparison, prop.
  rewrite (truthy_not_nullish _ Td). cbn [bind].
  destruct (completeTestRuns (get comparisonData "metrics")) as [complete|];
    cbn [bind]; [|discriminate].
  destruct (hasIncompleteRuns (get comparisonData "metrics")) as [warn|];
    cbn [bind]; [|discriminate].
  destruct (TestComparison.performanceTable h complete) as [p|]; cbn [bind]; [|discriminate].
  destruct (TestComparison.accuracyTable h complete) as [a|]; cbn [bind]; [|discriminate].
  destruct (TestComparison.costTable h complete) as [c|]; cbn [bind]; [|discriminate].
  destruct (TestComparison.usageTable h complete) as [u|]; cbn [bind]; [|discriminate].
  intros [= <-]. reflexivity.
Qed.

(** C5, as the component renders: whatever the state, the configuration
    table is on the screen exactly when a comparison is rendered, two run
    ids are supplied and the list of configuration rows is present and not
    empty; and whenever a comparison is rendered for any other number of ids,
    its configuration section is the note that differences are only
    available for exactly two runs, naming the number supplied. *)
Theorem config_diff_gate (comparing : bool) (ids : list string) (comparisonData : value) :
  (shows_config_table (TestComparison.render h comparing ids comparisonData) = true <->
   (exists view,
       TestComparison.render h comparing ids comparisonData = Ok (Comparison view)) /\
   List.length ids = 2%nat /\
   truthy (get comparisonData "configs") = true /\
   nonempty (get comparisonData "configs") = true) /\
  (forall view,
      TestComparison.render h comparing ids comparisonData = Ok (Comparison view) ->
      List.length ids <> 2%nat ->
      configuration view = OnlyForTwoRuns (List.length ids)).
Proof.
  split.
  - destruct (TestComparison.render h comparing ids comparisonData)
      as [[| |msg|view]|e] eqn:R; cbn [shows_config_table];
      try (split; [discriminate | intros [[v Hv] _]; discriminate Hv]).
    rewrite (rendered_configuration _ _ _ _ R).
    destruct (configSection_cases ids (get comparisonData "configs")) as [Hiff _].
    rewrite Hiff. split; [intros H; split; [now exists view | exact H] | tauto].
  - intros view R Hn. rewrite (rendered_configuration _ _ _ _ R).
    now apply configSection_cases.
Qed.

(** The branch of the configuration section that announces identical
    configurations is never taken: an empty list of rows is caught by the
    test before it. *)
Theorem identical_branch_unreachable (ids : list string) (configs : value) :
  configSection ids configs <> ConfigsIdentical.
Proof.
  unfold configSection, js_or.
  destruct (Nat.eqb (List.length ids) 2); [|discriminate].
  destruct (truthy configs) eqn:T; cbn [andb]; [|discriminate].
  destruct (nonempty configs) eqn:N; discriminate.
Qed.

(** *** Token aggregation *)

Lemma falsy_no_entries (v : value) : truthy v = false -> own_entries v = [].
Proof.
  destruct v as [| | | |s| |]; simpl; try reflexivity; try discriminate.
  destruct s; simpl; [reflexivity | discriminate].
Qed.

Lemma add_field_count (a : Q) (entry : value) (field : string) (q : Q) :
  truthy entry = true ->
  token_count entry field = Some q ->
  exists q', add_field (VNum (Fin a)) entry field = VNum (Fin (a + q')) /\ q' == q.
Proof.
  unfold token_count, add_field, js_or. intros T. rewrite T.
  destruct (get entry field) as [| |[|]|[x| | |]|s| |] eqn:G; simpl;
    try discriminate;
    try (intros [= <-]; exists 0; split; reflexivity).
  - intros [= <-]. destruct (Qeq_bool x 0) eqn:Z; simpl.
    + exists 0. split; [reflexivity|]. symmetry. now apply Qeq_bool_eq.
    + exists x. split; reflexivity.
  - destruct (String.eqb s "") eqn:Es; simpl; [|discriminate].
    intros [= <-]. exists 0. split; reflexivity.
Qed.

Lemma aggregate_fold (usage : value) (keys : list string) (i o t : Q) :
  (forall k field, In k (List.filter (fun k => includes k "bedrock") keys) ->
                   In field token_fields -> token_count (get usage k) field <> None) ->
  exists i' o' t',
    fold_left (aggregate_step usage) keys
      {| inputTokens := VNum (Fin i); outputTokens := VNum (Fin o); totalTokens := VNum (Fin t) |} =
    {| inputTokens := VNum (Fin i'); outputTokens := VNum (Fin o'); totalTokens := VNum (Fin t') |} /\
    i' == i + sum_counts usage "inputTokens" keys /\
    o' == o + sum_counts usage "outputTokens" keys /\
    t' == t + sum_counts usage "totalTokens" keys.
Proof.
  revert i o t. induction keys as [|k keys IH]; intros i o t Hnum.
  - exists i, o, t. unfold sum_counts; cbn [List.filter map fold_right fold_left].
    split; [reflexivity|]. split; [|split].
    all: rewrite Qplus_0_r; reflexivity.
  - cbn [fold_left]. unfold aggregate_step at 2. unfold sum_counts. cbn [List.filter].
    destruct (includes k "bedrock") eqn:Hk; cbn [andb].
    + assert (Hrest : forall k' field,
                 In k' (List.filter (fun k => includes k "bedrock") keys) ->
                 In field token_fields -> token_count (get usage k') field <> None).
      { intros k' f Hin. apply Hnum. cbn [List.filter]. rewrite Hk. now right. }
      assert (Hhere : forall field, In field token_fields ->
                 exists q, token_count (get usage k) field = Some q).
      { intros f Hf. specialize (Hnum k f). cbn [List.filter] in Hnum. rewrite Hk in Hnum.
        destruct (token_count (get usage k) f) as [q|]; [eauto|].
        exfalso. apply Hnum; [now left | exact Hf | reflexivity]. }
      destruct (Hhere "inputTokens") as [qi Hi]; [simpl; tauto|].
      destruct (Hhere "outputTokens") as [qo Ho]; [simpl; tauto|].
      destruct (Hhere "totalTokens") as [qt Hq]; [simpl; tauto|].
      cbn [map fold_right]. rewrite Hi, Ho, Hq. cbn [default].
      destruct (truthy (get usage k)) eqn:T.
      * cbn [inputTokens outputTokens totalTokens].
        destruct (add_field_count i _ _ _ T Hi) as [qi' [-> Ei]].
        destruct (add_field_count o _ _ _ T Ho) as [qo' [-> Eo]].
        destruct (add_field_count t _ _ _ T Hq) as [qt' [-> Et]].
        destruct (IH (i + qi') (o + qo') (t + qt') Hrest) as [i' [o' [t' [F [A [B C]]]]]].
        exists i', o', t'. split; [exact F|]. unfold sum_counts in A, B, C.
        rewrite A, B, C, Ei, Eo, Et. split; [|split].
        all: now rewrite Qplus_assoc.
      * unfold token_count in Hi, Ho, Hq. rewrite T in Hi, Ho, Hq.
        injection Hi as <-. injection Ho as <-. injection Hq as <-.
        destruct (IH i o t Hrest) as [i' [o' [t' [F [A [B C]]]]]].
        exists i', o', t'. split; [exact F|]. unfold sum_counts in A, B, C.
        rewrite A, B, C. split; [|split].
        all: now rewrite Qplus_0_l.
    + apply IH. intros k' f Hin. apply Hnum. cbn [List.filter]. now rewrite Hk.
Qed.

(** Keys without "bedrock" in them never reach the aggregate, whatever they
    hold. *)
Lemma aggregate_skips_other_keys (usage : value) (keys : list string) (acc : tokens) :
  fold_left (aggregate_step usage) keys acc =
  fold_left (aggregate_step usage)
            (List.filter (fun k => includes k "bedrock") keys) acc.
Proof.
  revert acc. induction keys as [|k keys IH]; intros acc; [reflexivity|].
  cbn [fold_left List.filter]. destruct (includes k "bedrock") eqn:Hk.
  - cbn [fold_left]. apply IH.
  - rewrite <- IH. f_equal. unfold aggregate_step. now rewrite Hk.
Qed.

(** The loop of [aggregateTokens] as three sums over the present
    model-invocation entries. *)
Lemma aggregate_fold_entries (usage : value) (keys : list string) (acc : tokens) :
  fold_left (aggregate_step usage) keys acc =
  {| inputTokens :=
       js_sum_field "inputTokens" (inputTokens acc) (model_invocation_entries usage keys);
     outputTokens :=
       js_sum_field "outputTokens" (outputTokens acc) (model_invocation_entries usage keys);
     totalTokens :=
       js_sum_field "totalTokens" (totalTokens acc) (model_invocation_entries usage keys) |}.
Proof.
  revert acc. induction keys as [|k keys IH]; intros acc.
  - now destruct acc.
  - cbn [fold_left]. rewrite IH. unfold aggregate_step, model_invocation_entries.
    cbn [List.filter]. destruct (includes k "bedrock"); cbn [andb map List.filter].
    + destruct (truthy (get usage k)); reflexivity.
    + reflexivity.
Qed.

(** C6: for every usage document [aggregateTokens] returns one aggregate whose
    inputTokens, outputTokens and totalTokens are the sums, starting from 0 and
    taken with JavaScript's [+], over exactly the present entries whose key
    contains "bedrock", of that entry's field, an absent field counting as 0;
    entries under every other key contribute nothing.  When those entries
    hold numbers (or nothing) in their three token fields the aggregate holds
    three numbers, equal to the sums of the counts. *)
Theorem aggregateTokens_sums (usage : value) :
  aggregateTokens usage =
    {| inputTokens :=
         js_sum_field "inputTokens" (VNum (Fin 0))
           (model_invocation_entries usage (map fst (own_entries usage)));
       outputTokens :=
         js_sum_field "outputTokens" (VNum (Fin 0))
           (model_invocation_entries usage (map fst (own_entries usage)));
       totalTokens :=
         js_sum_field "totalTokens" (VNum (Fin 0))
           (model_invocation_entries usage (map fst (own_entries usage))) |} /\
  (counts_are_numbers usage ->
   exists i o t : Q,
     aggregateTokens usage =
     {| inputTokens := VNum (Fin i); outputTokens := VNum (Fin o);
        totalTokens := VNum (Fin t) |} /\
     i == sum_counts usage "inputTokens" (map fst (own_entries usage)) /\
     o == sum_counts usage "outputTokens" (map fst (own_entries usage)) /\
     t == sum_counts usage "totalTokens" (map fst (own_entries usage))).
Proof.
  split.
  - unfold aggregateTokens. destruct (truthy usage) eqn:T.
    + apply aggregate_fold_entries.
    + now rewrite (falsy_no_entries _ T).
  - intros Hnum. unfold aggregateTokens.
    destruct (truthy usage) eqn:T.
    + destruct (aggregate_fold usage (map fst (own_entries usage)) 0 0 0 Hnum)
        as [i [o [t [F [A [B C]]]]]].
      exists i, o, t. split; [exact F|].
      rewrite A, B, C. split; [|split].
      all: now rewrite Qplus_0_l.
    + rewrite (falsy_no_entries _ T). exists 0, 0, 0. unfold sum_counts; simpl.
      split; [reflexivity|]. split; [|split]; reflexivity.
Qed.

(** *** No exception on sound documents *)

Lemma mapM_ok {A B : Type} (f : A -> result B) (l : list A) :
  Forall (fun a => exists b, f a = Ok b) l -> exists bs, mapM f l = Ok bs.
Proof.
  induction 1 as [|a l [b Hb] _ [bs Hbs]]; simpl.
  - now exists [].
  - rewrite Hb; simpl. rewrite Hbs; simpl. now exists (b :: bs).
Qed.

Lemma filterM_kept {A : Type} (f : A -> result bool) (l r : list A) :
  filterM f l = Ok r -> forall a, In a r -> f a = Ok true.
Proof.
  revert r. induction l as [|x l IH]; simpl; intros r.
  - intros [= <-] a [].
  - destruct (f x) as [b|] eqn:Fx; simpl; [|discriminate].
    destruct (filterM f l) as [r'|] eqn:Fl; simpl; [|discriminate].
    intros [= <-] a Ha. destruct b.
    + destruct Ha as [<-|Ha]; [exact Fx | now apply (IH r')].
    + now apply (IH r').
Qed.

(** Every run kept as complete is an object that could be read and whose
    status is the string COMPLETE. *)
Lemma complete_run_readable (metrics : value) (complete : list (string * value)) :
  completeTestRuns metrics = Ok complete ->
  forall e, In e complete -> nullish (snd e) = false /\ status_is_COMPLETE (snd e) = true.
Proof.
  unfold completeTestRuns. destruct (truthy metrics).
  - destruct (Object_entries metrics) as [es|]; simpl; [|discriminate].
    intros Hf e He. pose proof (filterM_kept _ _ _ Hf e He) as Hc.
    unfold is_complete, prop, status_is_COMPLETE in *.
    destruct (nullish (snd e)); simpl in Hc; [discriminate|].
    split; [reflexivity | congruence].
  - intros [= <-] e [].
Qed.

Lemma presentPercentCell_ok (g f : string) (testRun test : value) :
  side "test" testRun = Ok test ->
  exists v, presentPercentCell g f testRun = Ok v.
Proof.
  intros Ht. unfold presentPercentCell. rewrite Ht; cbn [bind].
  destruct (nullish (opt_prop (opt_prop test g) f)) eqn:N; cbn [negb].
  - now eexists.
  - destruct (opt_chain_prop _ _ _ N) as [P1 P2].
    rewrite P1; cbn [bind]. rewrite P2; cbn [bind]. now eexists.
Qed.

Lemma presentPercentCell_missing (g f : string) (testRun test : value) :
  side "test" testRun = Ok test ->
  missing (opt_prop (opt_prop test g) f) ->
  presentPercentCell g f testRun = Ok NA.
Proof.
  intros Ht N. unfold presentPercentCell. rewrite Ht; cbn [bind]. now rewrite N.
Qed.

Lemma truthyPercentCell_ok (f : string) (testRun test : value) :
  side "test" testRun = Ok test ->
  exists v, truthyPercentCell f testRun = Ok v.
Proof.
  intros Ht. unfold truthyPercentCell. rewrite Ht; cbn [bind].
  destruct (truthy (opt_prop (opt_prop test "accuracy") f)) eqn:T.
  - destruct (opt_chain_prop _ _ _ (truthy_not_nullish _ T)) as [P1 P2].
    rewrite P1; cbn [bind]. rewrite P2; cbn [bind]. now eexists.
  - now eexists.
Qed.

Lemma truthyPercentCell_missing (f : string) (testRun test : value) :
  side "test" testRun = Ok test ->
  missing (opt_prop (opt_prop test "accuracy") f) ->
  truthyPercentCell f testRun = Ok NA.
Proof.
  intros Ht N. unfold truthyPercentCell. rewrite Ht; cbn [bind].
  now rewrite (nullish_not_truthy _ N).
Qed.

Lemma accuracyChangeCell_ok (testRun : value) :
  nullish testRun = false ->
  missing_or_number (get testRun "accuracySimilarity") ->
  exists v, accuracyChangeCell testRun = Ok v.
Proof.
  intros Hr Hs. unfold accuracyChangeCell, prop. rewrite Hr; cbn [bind].
  destruct Hs as [N | [n E]].
  - rewrite N. now eexists.
  - rewrite E. cbn. now eexists.
Qed.

Lemma accuracyChangeCell_missing (testRun : value) :
  nullish testRun = false ->
  missing (get testRun "accuracySimilarity") ->
  accuracyChangeCell testRun = Ok NA.
Proof.
  intros Hr N. unfold accuracyChangeCell, prop. rewrite Hr; cbn [bind]. now rewrite N.
Qed.

Lemma or_default_ok (name : string) (testRun : value) :
  nullish testRun = false ->
  (let* n := prop testRun name in Ok (js_or n NA)) = Ok (js_or (get testRun name) NA).
Proof. intros Hr. unfold prop. now rewrite Hr. Qed.

Lemma costCell_ok (which : string) (testRun doc : value) :
  side which testRun = Ok doc ->
  falsy_or_number (total_cost doc) ->
  exists v, costCell which testRun = Ok v.
Proof.
  intros Hd Hn. unfold costCell. rewrite Hd; cbn [bind].
  destruct (truthy (total_cost doc)) eqn:T; [|now eexists].
  destruct Hn as [F | [n E]]; [congruence|].
  destruct (opt_chain_prop doc "cost" "total_cost" (truthy_not_nullish _ T)) as [P1 P2].
  rewrite P1; cbn [bind]. rewrite P2; cbn [bind].
  fold (total_cost doc). rewrite E. cbn [call_toFixed bind]. now eexists.
Qed.

Lemma costCell_missing (which : string) (testRun doc : value) :
  side which testRun = Ok doc ->
  missing (total_cost doc) ->
  costCell which testRun = Ok NA.
Proof.
  intros Hd N. unfold costCell. rewrite Hd; cbn [bind].
  now rewrite (nullish_not_truthy _ N).
Qed.

Lemma costChangeValue_ok (testRun test baseline : value) :
  side "test" testRun = Ok test ->
  side "baseline" testRun = Ok baseline ->
  exists v, costChangeValue testRun = Ok v.
Proof.
  intros Ht Hb. unfold costChangeValue. rewrite Ht, Hb; cbn [bind].
  destruct (truthy (total_cost test)) eqn:T1; cbn [andb]; [|now eexists].
  destruct (truthy (total_cost baseline)) eqn:T2; [|now eexists].
  destruct (opt_chain_prop test "cost" "total_cost" (truthy_not_nullish _ T1)) as [P1 P2].
  destruct (opt_chain_prop baseline "cost" "total_cost" (truthy_not_nullish _ T2)) as [P3 P4].
  rewrite P1; cbn [bind]. rewrite P2; cbn [bind].
  rewrite P3; cbn [bind]. rewrite P4; cbn [bind]. now eexists.
Qed.

Lemma aggregateTokens_missing (usage : value) :
  missing usage -> aggregateTokens usage = zero_tokens.
Proof.
  intros N. unfold aggregateTokens. now rewrite (nullish_not_truthy _ N).
Qed.

Lemma inputTokensCell_ok (which : string) (testRun doc : value) :
  side which testRun = Ok doc ->
  inputTokensCell which testRun =
  Ok (VStr (toLocaleString h (inputTokens (aggregateTokens (opt_prop doc "usage"))))).
Proof.
  intros Hd. unfold inputTokensCell, usage_of. now rewrite Hd.
Qed.

Lemma totalTokenChangeCell_ok (testRun test baseline : value) :
  side "test" testRun = Ok test ->
  side "baseline" testRun = Ok baseline ->
  totalTokenChangeCell testRun =
  Ok (VStr (calculateChange (totalTokens (aggregateTokens (opt_prop test "usage")))
                            (totalTokens (aggregateTokens (opt_prop baseline "usage"))))).
Proof.
  intros Ht Hb. unfold totalTokenChangeCell. now rewrite Ht, Hb.
Qed.

Lemma table_ok (empty_text : string) (rows : list (string * (value -> result value)))
    (complete : list (string * value)) :
  Forall (fun r => Forall (fun e => exists v, snd r (snd e) = Ok v) complete) rows ->
  exists t, table empty_text rows complete = Ok t.
Proof.
  intros Hrows. unfold table.
  destruct (0 <? List.length complete)%nat; [|now eexists].
  assert (Hr : exists rs, mapM (fun r => row (fst r) (snd r) complete) rows = Ok rs).
  { apply mapM_ok. eapply Forall_impl; [|exact Hrows].
    intros r Hc. unfold row.
    assert (Hm : exists cs, mapM (fun e => let* c := snd r (snd e) in Ok (fst e, c)) complete = Ok cs).
    { apply mapM_ok. eapply Forall_impl; [|exact Hc].
      intros e [v Hv]. rewrite Hv. now eexists. }
    destruct Hm as [cs Hm]. rewrite Hm. now eexists. }
  destruct Hr as [rs Hr]. rewrite Hr. now eexists.
Qed.

(** C7, as the component computes it: when every complete run is sound (its
    test and baseline documents are objects or parse as JSON, and its total
    costs and accuracy
    similarity are numbers where present), whatever else is absent, null or
    not an object, computing the four metric tables raises nothing; a cell of
    the accuracy, confidence, accuracy-change, precision, recall, F1, cost and
    cost-change rows whose field is missing is the sentinel N/A; with the
    usage document missing the input-token cell is the count zero as the
    engine prints it, and with the baseline usage missing the token change is
    N/A. *)
Theorem tables_never_throw (metrics : value) (complete : list (string * value)) :
  completeTestRuns metrics = Ok complete ->
  Forall (fun e => sound_run (snd e)) complete ->
  (exists p a c u,
      performanceTable complete = Ok p /\ accuracyTable complete = Ok a /\
      costTable complete = Ok c /\ usageTable complete = Ok u) /\
  (forall id testRun test baseline,
      In (id, testRun) complete ->
      side "test" testRun = Ok test ->
      side "baseline" testRun = Ok baseline ->
      (missing (opt_prop (opt_prop test "accuracy") "accuracy") ->
       accuracyCell testRun = Ok NA) /\
      (missing (opt_prop (opt_prop test "confidence") "average_confidence") ->
       confidenceCell testRun = Ok NA) /\
      (missing (get testRun "accuracySimilarity") -> accuracyChangeCell testRun = Ok NA) /\
      (missing (opt_prop (opt_prop test "accuracy") "precision") ->
       precisionCell testRun = Ok NA) /\
      (missing (opt_prop (opt_prop test "accuracy") "recall") ->
       recallCell testRun = Ok NA) /\
      (missing (opt_prop (opt_prop test "accuracy") "f1_score") ->
       f1Cell testRun = Ok NA) /\
      (missing (total_cost test) -> testCostCell testRun = Ok NA) /\
      (missing (total_cost baseline) -> baselineCostCell testRun = Ok NA) /\
      (missing (total_cost test) \/ missing (total_cost baseline) ->
       costChangeValue testRun = Ok NA) /\
      (missing (opt_prop test "usage") ->
       testInputTokensCell testRun = Ok (VStr (toLocaleString h (VNum (Fin 0))))) /\
      (missing (opt_prop baseline "usage") ->
       baselineInputTokensCell testRun = Ok (VStr (toLocaleString h (VNum (Fin 0)))) /\
       totalTokenChangeCell testRun = Ok NA)).
Proof.
  intros Hc Hs. split.
  - assert (Hcell : forall cell : value -> result value,
               (forall testRun, nullish testRun = false -> sound_run testRun ->
                                exists v, cell testRun = Ok v) ->
               Forall (fun e => exists v, cell (snd e) = Ok v) complete).
    { intros cell Hcell. apply List.Forall_forall. intros e He.
      apply Hcell.
      - now apply (complete_run_readable _ _ Hc e He).
      - now apply (proj1 (List.Forall_forall _ _) Hs e He). }
    assert (P : exists p, performanceTable complete = Ok p).
    { apply table_ok. repeat constructor; cbn [snd]; apply Hcell; intros r Hr [[t [Ht _]] _ Hsim].
      - now apply (presentPercentCell_ok _ _ _ t).
      - now apply accuracyChangeCell_ok.
      - now apply (presentPercentCell_ok _ _ _ t).
      - unfold filesProcessedCell. rewrite or_default_ok by assumption. now eexists. }
    assert (A : exists a, accuracyTable complete = Ok a).
    { apply table_ok. repeat constructor; cbn [snd]; apply Hcell; intros r Hr [[t [Ht _]] _ _].
      - unfold testSetCell. rewrite or_default_ok by assumption. now eexists.
      - now apply (truthyPercentCell_ok _ _ t).
      - now apply (truthyPercentCell_ok _ _ t).
      - now apply (truthyPercentCell_ok _ _ t). }
    assert (C : exists c, costTable complete = Ok c).
    { apply table_ok. repeat constructor; cbn [snd]; apply Hcell;
        intros r Hr [[t [Ht Nt]] [b [Hb Nb]] _].
      - unfold testSetCell. rewrite or_default_ok by assumption. now eexists.
      - now apply (costCell_ok _ _ t).
      - now apply (costCell_ok _ _ b).
      - now apply (costChangeValue_ok _ t b). }
    assert (U : exists u, usageTable complete = Ok u).
    { apply table_ok. repeat constructor; cbn [snd]; apply Hcell;
        intros r Hr [[t [Ht _]] [b [Hb _]] _].
      - unfold testInputTokensCell. rewrite (inputTokensCell_ok _ _ _ Ht). now eexists.
      - unfold baselineInputTokensCell. rewrite (inputTokensCell_ok _ _ _ Hb). now eexists.
      - rewrite (totalTokenChangeCell_ok _ _ _ Ht Hb). now eexists. }
    destruct P as [p P], A as [a A], C as [c C], U as [u U].
    exists p, a, c, u. auto.
  - intros id testRun test baseline Hin Ht Hb.
    destruct (complete_run_readable _ _ Hc _ Hin) as [Hr _]. cbn [snd] in Hr.
    split; [now apply presentPercentCell_missing|].
    split; [now apply presentPercentCell_missing|].
    split; [now apply accuracyChangeCell_missing|].
    split; [now apply truthyPercentCell_missing|].
    split; [now apply truthyPercentCell_missing|].
    split; [now apply truthyPercentCell_missing|].
    split; [now apply costCell_missing|].
    split; [now apply costCell_missing|].
    split.
    { intros Hm. apply (costChangeValue_falsy _ _ _ Ht Hb).
      destruct Hm as [N|N]; [left|right]; now apply nullish_not_truthy. }
    split.
    { intros N. unfold testInputTokensCell.
      now rewrite (inputTokensCell_ok _ _ _ Ht), (aggregateTokens_missing _ N). }
    intros N. split.
    + unfold baselineInputTokensCell.
      now rewrite (inputTokensCell_ok _ _ _ Hb), (aggregateTokens_missing _ N).
    + rewrite (totalTokenChangeCell_ok _ _ _ Ht Hb), (aggregateTokens_missing _ N).
      reflexivity.
Qed.

End Facts.

(** ** Worked examples *)

(** C1: a run whose status is the string COMPLETE is kept as complete and
    raises no warning, although COMPLETE is a status other than COMPLETED;
    a run whose status is COMPLETED is dropped and raises the warning. *)
Lemma partition_tests_COMPLETE :
  completeTestRuns (VObj [("run-1", run_with_costs "COMPLETE" (num 10) (num 8))]) =
    Ok [("run-1", run_with_costs "COMPLETE" (num 10) (num 8))] /\
  hasIncompleteRuns (VObj [("run-1", run_with_costs "COMPLETE" (num 10) (num 8))]) =
    Ok false /\
  completeTestRuns (VObj [("run-1", run_with_costs "COMPLETED" (num 10) (num 8))]) =
    Ok [] /\
  hasIncompleteRuns (VObj [("run-1", run_with_costs "COMPLETED" (num 10) (num 8))]) =
    Ok true.
Proof. repeat split. Qed.

Lemma ten_nonzero : ~ 10 == 0.
Proof. discriminate. Qed.

Lemma eight_nonzero : ~ 8 == 0.
Proof. discriminate. Qed.

(** The two rows of scenario C, obtained from [cost_change_row]. *)
Lemma cost_change_row_scenario_C :
  costChangeValue example_host (run_with_costs "COMPLETE" (num 10) (num 8)) =
    Ok (VStr "25.00% ↑") /\
  costChangeValue example_host (run_with_costs "COMPLETE" (num 5) (num 0)) = Ok NA.
Proof.
  split.
  - exact (proj1 (cost_change_row example_host
                    (run_with_costs "COMPLETE" (num 10) (num 8)) _ _ eq_refl eq_refl)
                 10 8 eq_refl eq_refl ten_nonzero eight_nonzero).
  - apply (proj2 (cost_change_row example_host
                    (run_with_costs "COMPLETE" (num 5) (num 0)) _ _ eq_refl eq_refl)).
    right. right. right. exists 0. split; reflexivity.
Defined.

(** The same cells as the table displays them. *)
Example cost_change_displayed_scenario_C :
  costChangeCell example_host (VStr "25.00% ↑") = Ok (VStr "25.00% ↑") /\
  costChangeCell example_host NA = Ok NA.
Proof. split; vm_compute; reflexivity. Qed.

(** The digits are those of double-precision arithmetic: 183 against 160
    prints 14.37 where the exact quotient 14.375 would print 14.38, and the
    literals 28.35 against 2.24 print 1165.62, not 1165.63. *)
Example cost_change_rounded_digits :
  costChangeValue example_host (run_with_costs "COMPLETE" (num 183) (num 160)) =
    Ok (VStr "14.37% ↑") /\
  costChangeValue example_host
    (run_with_costs "COMPLETE" (literal (2835 # 100)) (literal (224 # 100))) =
    Ok (VStr "1165.62% ↑").
Proof. split; vm_compute; reflexivity. Qed.

(** C2: a test cost of zero against a baseline of 8 gives N/A where the
    formula gives -100.00%; and with a baseline cost that is text no cell is
    N/A: the cost table raises a TypeError. *)
Lemma cost_change_zero_test_cost :
  costChangeValue example_host (run_with_costs "COMPLETE" (num 0) (num 8)) = Ok NA /\
  toFixed example_host 2 (nmul (ndiv (nsub (Fin 0) (Fin 8)) (Fin 8)) (Fin 100)) +:+
    "%" +:+ DOWN = "-100.00% ↓" /\
  costTable example_host
    [("run-1", run_with_costs "COMPLETE" (num 10) (VStr "8"))] = Throw TypeError.
Proof. repeat split; vm_compute; reflexivity. Qed.

(** A dearer test run and two equal costs, obtained from
    [cost_arrow_direction]. *)
Lemma cost_arrow_examples :
  costChangeValue example_host (run_with_costs "COMPLETE" (num 10) (num 8)) =
    Ok (VStr "25.00% ↑") /\
  costChangeValue example_host (run_with_costs "COMPLETE" (num 8) (num 8)) =
    Ok (VStr "0.00% ↓") /\
  calculateChange example_host (num 8) (num 8) = "0%".
Proof.
  pose proof (cost_arrow_direction example_host
                (run_with_costs "COMPLETE" (num 10) (num 8)) _ _ 10 8
                eq_refl eq_refl eq_refl eq_refl ten_nonzero eight_nonzero)
    as (Hup & _ & _).
  pose proof (cost_arrow_direction example_host
                (run_with_costs "COMPLETE" (num 8) (num 8)) _ _ 8 8
                eq_refl eq_refl eq_refl eq_refl eight_nonzero eight_nonzero)
    as (_ & Hrow & Hchange).
  split; [|split].
  - exact (Hup eq_refl eq_refl eq_refl eq_refl).
  - apply Hrow. reflexivity.
  - apply Hchange. reflexivity.
Defined.

Lemma example_usage_counts : counts_are_numbers example_usage.
Proof.
  intros k f Hk Hf. cbv in Hk. cbv in Hf.
  destruct Hk as [<-|[<-|[]]]; destruct Hf as [<-|[<-|[<-|[]]]]; discriminate.
Qed.

(** The aggregate of [example_usage], obtained from [aggregateTokens_sums]. *)
Lemma aggregateTokens_example :
  exists i o t : Q,
    aggregateTokens example_host example_usage =
    {| inputTokens := VNum (Fin i); outputTokens := VNum (Fin o); totalTokens := VNum (Fin t) |} /\
    i == 105 /\ o == 20 /\ t == 125.
Proof.
  destruct (proj2 (aggregateTokens_sums example_host example_usage) example_usage_counts)
    as (i & o & t & E & Hi & Ho & Ht).
  exists i, o, t. split; [exact E|].
  split; [|split].
  - rewrite Hi. reflexivity.
  - rewrite Ho. reflexivity.
  - rewrite Ht. reflexivity.
Defined.

(** The cells of [zero_run], obtained from [zero_shown_as_missing]. *)
Lemma zero_run_cells :
  precisionCell example_host zero_run = Ok NA /\
  recallCell example_host zero_run = Ok NA /\
  f1Cell example_host zero_run = Ok NA /\
  testCostCell example_host zero_run = Ok NA /\
  baselineCostCell example_host zero_run = Ok NA /\
  accuracyCell example_host zero_run = Ok (VStr "0.00%").
Proof.
  pose proof (zero_shown_as_missing example_host zero_run _ _ eq_refl eq_refl)
    as (Hp & Hr & Hf & Ht & Hb & Ha & _).
  assert (Z : missing_or_zero (num 0)) by (right; right; exists 0; split; reflexivity).
  split; [exact (Hp Z)|].
  split; [exact (Hr Z)|].
  split; [exact (Hf Z)|].
  split; [exact (Ht Z)|].
  split; [exact (Hb Z)|].
  exact (Ha 0 eq_refl (Qeq_refl 0)).
Defined.

Lemma patchy_sound : Forall (fun e => sound_run example_host (snd e)) patchy_complete.
Proof.
  assert (S : forall testRun test baseline,
             side example_host "test" testRun = Ok test ->
             side example_host "baseline" testRun = Ok baseline ->
             truthy (total_cost test) = false ->
             truthy (total_cost baseline) = false ->
             nullish (get testRun "accuracySimilarity") = true ->
             sound_run example_host testRun).
  { intros r t b Ht Hb Ft Fb Ns. split.
    - exists t. split; [exact Ht | now left].
    - exists b. split; [exact Hb | now left].
    - now left. }
  apply Forall_cons; [|apply Forall_cons; [|apply Forall_nil]]; cbn [snd].
  - now apply (S _ VNull (num 7)).
  - now apply (S _ (VObj [("accuracy", VStr "high"); ("cost", VObj [])]) VUndefined).
Qed.

(** The tables of [patchy_metrics] are computed, from [tables_never_throw]. *)
Lemma patchy_tables :
  exists p a c u,
    performanceTable example_host patchy_complete = Ok p /\
    accuracyTable example_host patchy_complete = Ok a /\
    costTable example_host patchy_complete = Ok c /\
    usageTable example_host patchy_complete = Ok u.
Proof.
  exact (proj1 (tables_never_throw example_host patchy_metrics patchy_complete
                  eq_refl patchy_sound)).
Defined.

Lemma text_cost_aborts_tables :
  testCostCell example_host (run_with_costs "COMPLETE" (VStr "12.5") (num 8)) =
    Throw TypeError /\
  costTable example_host
    [("run-1", run_with_costs "COMPLETE" (num 10) (num 8));
     ("run-2", run_with_costs "COMPLETE" (VStr "12.5") (num 8))] = Throw TypeError /\
  renderComparison example_host ["run-1"; "run-2"]
    (VObj [("metrics", text_cost_metrics); ("configs", VNull)]) = Throw TypeError.
Proof. repeat split; vm_compute; reflexivity. Qed.

(** C5: two ids are supplied and no configuration table is on the screen:
    the comparison is rendered, its list of configuration rows empty or
    absent; and nothing but the loading box is shown while the query runs. *)
Lemma no_config_rows_no_table :
  List.length ["run-1"; "run-2"] = 2%nat /\
  match render example_host false ["run-1"; "run-2"]
          (VObj [("metrics", scenario_C); ("configs", VArr [])]) with
  | Ok (Comparison view) => is_table (configuration view) = false
  | _ => False
  end /\
  match render example_host false ["run-1"; "run-2"]
          (VObj [("metrics", scenario_C)]) with
  | Ok (Comparison view) => is_table (configuration view) = false
  | _ => False
  end /\
  render example_host true ["run-1"; "run-2"]
    (VObj [("metrics", scenario_C); ("configs", example_configs)]) = Ok Loading.
Proof. repeat split; vm_compute; reflexivity. Qed.

(** Scenario D: three ids, obtained from [config_diff_gate]. *)
Lemma config_diff_scenario_D :
  exists view,
    render example_host false ["run-1"; "run-2"; "run-3"]
      (VObj [("metrics", scenario_D_tested); ("configs", example_configs)]) =
      Ok (Comparison view) /\
    configuration view = OnlyForTwoRuns 3.
Proof.
  destruct (render example_host false ["run-1"; "run-2"; "run-3"]
              (VObj [("metrics", scenario_D_tested); ("configs", example_configs)]))
    as [[| |msg|view]|e] eqn:R; try (vm_compute in R; discriminate R).
  exists view. split; [reflexivity|].
  apply (proj2 (config_diff_gate example_host false _ _) view R). discriminate.
Defined.

End ComparisonFacts.

(** * Properties of what the tables show

    [toFixed] prints a number as digits, and the change renderers read those
    digits back with the percentage pattern and [parseFloat]; the first part
    relates the two. *)

Module DecimalTextFacts.
Import JS DecimalText.

(** *** Scanning digits *)

(** The scanner of [parseFloat] reads a run of digits to its end. *)
Lemma read_digits_app (ds r : string) (acc : Z) (cnt : nat) :
  all_digits ds = true -> stops r = true ->
  read_digits (ds +:+ r) acc cnt = (digits_value ds acc, (cnt + String.length ds)%nat, r).
Proof.
  revert acc cnt. induction ds as [|c ds IH]; intros acc cnt Hd Hr; simpl.
  - rewrite Nat.add_0_r. destruct r as [|c r]; [reflexivity|].
    simpl in Hr. simpl. destruct (digit_of c); [discriminate | reflexivity].
  - simpl in Hd. destruct (digit_of c) as [d|]; [|discriminate].
    rewrite IH by assumption. f_equal. f_equal. lia.
Qed.

(** ... and so does the scanner of the percentage pattern. *)
Lemma take_digits_app (ds r : string) :
  all_digits ds = true -> stops r = true -> take_digits (ds +:+ r) = (ds, r).
Proof.
  induction ds as [|c ds IH]; intros Hd Hr; simpl.
  - destruct r as [|c r]; [reflexivity|].
    simpl in Hr. simpl. destruct (digit_of c); [discriminate | reflexivity].
  - simpl in Hd. destruct (digit_of c) as [d|]; [|discriminate].
    now rewrite IH.
Qed.

(** *** Printing digits *)

Lemma string_of_uint_digits (d : Decimal.uint) :
  all_digits (NilEmpty.string_of_uint d) = true.
Proof. induction d; simpl; auto. Qed.

Lemma string_of_uint_value (d : Decimal.uint) (acc : Z) :
  digits_value (NilEmpty.string_of_uint d) acc = uint_value d acc.
Proof. revert acc. induction d; intros acc; simpl; auto. Qed.

Lemma uint_value_acc (d : Decimal.uint) (p : positive) :
  Zpos (Pos.of_uint_acc d p) = uint_value d (Zpos p).
Proof.
  revert p. induction d; intros p; simpl; try reflexivity; rewrite IHd; f_equal; lia.
Qed.

Lemma uint_value_of_uint (d : Decimal.uint) :
  Z.of_N (Pos.of_uint d) = uint_value d 0.
Proof.
  induction d; simpl; try reflexivity; try exact IHd; apply uint_value_acc.
Qed.

(** The digits printed for a natural number are digits, denote it, and are
    not empty. *)
Lemma digits_spec (n : Z) :
  (0 <= n)%Z ->
  all_digits (digits n) = true /\ digits_value (digits n) 0 = n /\ digits n <> "".
Proof.
  intros Hn. unfold digits.
  assert (E : NilZero.string_of_uint (N.to_uint (Z.to_N n)) =
              NilEmpty.string_of_uint (N.to_uint (Z.to_N n)) /\
              N.to_uint (Z.to_N n) <> Decimal.Nil).
  { destruct (Z.to_N n) as [|p]; simpl; [split; [reflexivity | discriminate]|].
    pose proof (DecimalPos.Unsigned.to_uint_nonnil p) as Hp.
    split; [|exact Hp]. unfold NilZero.string_of_uint. now destruct (Pos.to_uint p). }
  destruct E as [E Hnil]. rewrite E. split; [apply string_of_uint_digits|]. split.
  - rewrite string_of_uint_value, <- uint_value_of_uint.
    change (Pos.of_uint (N.to_uint (Z.to_N n))) with (N.of_uint (N.to_uint (Z.to_N n))).
    rewrite DecimalN.Unsigned.of_to. now apply Z2N.id.
  - destruct (N.to_uint (Z.to_N n)); simpl; congruence.
Qed.

Lemma all_digits_app (a b : string) :
  all_digits (a +:+ b) = all_digits a && all_digits b.
Proof.
  induction a as [|c a IH]; simpl; [reflexivity|].
  destruct (digit_of c); [exact IH | reflexivity].
Qed.

Lemma digits_value_app (a b : string) (acc : Z) :
  all_digits a = true -> digits_value (a +:+ b) acc = digits_value b (digits_value a acc).
Proof.
  revert acc. induction a as [|c a IH]; intros acc Ha; simpl; [reflexivity|].
  simpl in Ha. destruct (digit_of c); [now apply IH | discriminate].
Qed.

Lemma digits_value_shift (s : string) (acc : Z) :
  all_digits s = true ->
  digits_value s acc = (acc * 10 ^ Z.of_nat (String.length s) + digits_value s 0)%Z.
Proof.
  revert acc. induction s as [|c s IH]; intros acc Hs.
  - simpl. lia.
  - simpl in Hs. cbn [digits_value String.length]. destruct (digit_of c) as [d|]; [|discriminate].
    rewrite (IH (10 * acc + d)%Z Hs), (IH (10 * 0 + d)%Z Hs).
    rewrite Nat2Z.inj_succ, Z.pow_succ_r by lia. ring.
Qed.

Lemma zeros_digits (k : nat) : all_digits (zeros k) = true /\ digits_value (zeros k) 0 = 0%Z.
Proof. induction k as [|k [IH1 IH2]]; simpl; auto. Qed.

Lemma length_zeros (k : nat) : String.length (zeros k) = k.
Proof. induction k; simpl; auto. Qed.

Lemma length_app (a b : string) :
  String.length (a +:+ b) = (String.length a + String.length b)%nat.
Proof. induction a; simpl; auto. Qed.

Lemma substring_all (s : string) : substring 0 (String.length s) s = s.
Proof. induction s as [|c s IH]; simpl; [reflexivity | now f_equal]. Qed.

(** Cutting a string in two at position [a]. *)
Lemma substring_split (s : string) (a : nat) :
  (a <= String.length s)%nat ->
  s = substring 0 a s +:+ substring a (String.length s - a) s /\
  String.length (substring 0 a s) = a.
Proof.
  revert a. induction s as [|c s IH]; intros a Ha.
  - simpl in Ha. assert (a = 0%nat) by lia. subst. simpl. auto.
  - destruct a as [|a].
    + rewrite Nat.sub_0_r, substring_all. split; reflexivity.
    + cbn [String.length] in Ha. assert (Ha' : (a <= String.length s)%nat) by lia.
      destruct (IH a Ha') as [E L].
      cbn [substring String.length Nat.sub]. split; [|now f_equal].
      change (String c s =
              String c (substring 0 a s +:+ substring a (String.length s - a) s)).
      now f_equal.
Qed.

(** Where [insert_point 2] cuts a digit string: an integer part that is not
    empty and two fraction digits, which together are worth what the digits
    were worth. *)
Lemma insert_point_2 (m : string) :
  all_digits m = true -> m <> "" ->
  exists ip fp,
    insert_point 2 m = ip +:+ "." +:+ fp /\
    all_digits ip = true /\ ip <> "" /\ all_digits fp = true /\
    String.length fp = 2%nat /\
    (digits_value ip 0 * 100 + digits_value fp 0)%Z = digits_value m 0.
Proof.
  intros Hm Hne. unfold insert_point. cbn [Nat.eqb].
  set (m' := zeros (3 - String.length m) +:+ m).
  assert (Hlen : (3 <= String.length m')%nat).
  { unfold m'. rewrite length_app, length_zeros. lia. }
  assert (Hd : all_digits m' = true).
  { unfold m'. rewrite all_digits_app, Hm. now rewrite (proj1 (zeros_digits _)). }
  assert (Hv : digits_value m' 0 = digits_value m 0).
  { unfold m'. rewrite digits_value_app by apply zeros_digits.
    now rewrite (proj2 (zeros_digits _)). }
  destruct (substring_split m' (String.length m' - 2) ltac:(lia)) as [E L].
  replace (String.length m' - (String.length m' - 2))%nat with 2%nat in E by lia.
  set (ip := substring 0 (String.length m' - 2) m') in *.
  set (fp := substring (String.length m' - 2) 2 m') in *.
  assert (Hboth : all_digits ip && all_digits fp = true)
    by (rewrite <- all_digits_app, <- E; exact Hd).
  apply andb_true_iff in Hboth as [Hip Hfp].
  assert (Lfp : String.length fp = 2%nat).
  { pose proof (f_equal String.length E) as HL. rewrite length_app, L in HL. lia. }
  exists ip, fp. split; [reflexivity|]. clearbody ip fp. split; [exact Hip|]. split.
  - intros Hnil. rewrite Hnil in L. simpl in L. lia.
  - split; [exact Hfp|]. split; [exact Lfp|].
    rewrite <- Hv, E. rewrite digits_value_app by exact Hip.
    rewrite (digits_value_shift fp (digits_value ip 0) Hfp), Lfp. reflexivity.
Qed.

Lemma append_nil_r (s : string) : s +:+ "" = s.
Proof.
  induction s as [|c s IH]; [reflexivity|].
  change (String c (s +:+ "") = String c s). now rewrite IH.
Qed.

Lemma append_assoc (a b c : string) : (a +:+ b) +:+ c = a +:+ b +:+ c.
Proof.
  induction a as [|x a IH]; [reflexivity|].
  change (String x ((a +:+ b) +:+ c) = String x (a +:+ b +:+ c)). now rewrite IH.
Qed.

(** The ten digit characters. *)
Lemma digit_cases (c : ascii) :
  digit_of c <> None ->
  In c ["0"; "1"; "2"; "3"; "4"; "5"; "6"; "7"; "8"; "9"]%char.
Proof.
  destruct c as [[|] [|] [|] [|] [|] [|] [|] [|]]; vm_compute; intros H;
    try (exfalso; apply H; reflexivity); tauto.
Qed.

Lemma round_at_nonneg (d : nat) (a : Q) : 0 <= a -> (0 <= round_at d a)%Z.
Proof.
  intros Ha. unfold round_at. change 0%Z with (Qfloor 0). apply Qfloor_resp_le.
  apply Qle_trans with (a * pow10 d + 0).
  - rewrite Qplus_0_r. apply Qmult_le_0_compat; [exact Ha|].
    unfold pow10. change 0 with (inject_Z 0). rewrite <- Zle_Qle. apply Z.pow_nonneg. lia.
  - apply Qplus_le_r. discriminate.
Qed.

Section Printing.

Variable h : Host.

(** What [toFixed(2)] prints for a number below 10^21 in magnitude: a minus
    sign when it is negative, an integer part, a point, two digits; read as
    digits they are the magnitude rounded to hundredths. *)
Lemma toFixed_2_shape (x : Q) :
  Qabs x < pow10 21 ->
  exists ip fp,
    toFixed h 2 (Fin x) = (if Qltb x 0 then "-" else "") +:+ ip +:+ "." +:+ fp /\
    all_digits ip = true /\ ip <> "" /\ all_digits fp = true /\
    String.length fp = 2%nat /\
    (digits_value ip 0 * 100 + digits_value fp 0)%Z = round_at 2 (Qabs x).
Proof.
  intros Hsmall. unfold toFixed.
  assert (Hb : Qle_bool (pow10 21) (Qabs x) = false).
  { destruct (Qle_bool (pow10 21) (Qabs x)) eqn:E; [|reflexivity].
    apply Qle_bool_iff in E. exfalso. exact (Qlt_not_le _ _ Hsmall E). }
  rewrite Hb.
  destruct (digits_spec (round_at 2 (Qabs x)) (round_at_nonneg 2 _ (Qabs_nonneg x)))
    as (Hd & Hv & Hne).
  destruct (insert_point_2 _ Hd Hne) as (ip & fp & E & Hip & Nip & Hfp & Lfp & V).
  exists ip, fp. rewrite E, <- Hv. auto 10.
Qed.

End Printing.

Lemma digit_not_space (c : ascii) : digit_of c <> None -> is_space c = false.
Proof.
  intros H. apply digit_cases in H. simpl in H.
  repeat (destruct H as [<- | H]; [reflexivity|]). contradiction.
Qed.

(** [parseFloat] reads back a signed decimal numeral. *)
Lemma parseFloat_numeral (neg : bool) (ip fp : string) :
  all_digits ip = true -> ip <> "" -> all_digits fp = true ->
  parseFloat ((if neg then "-" else "") +:+ ip +:+ "." +:+ fp) =
  Fin (let q := (inject_Z (digits_value ip 0) +
                 inject_Z (digits_value fp 0) / pow10 (String.length fp)) *
                inject_Z (10 ^ 0) in
       if neg then - q else q).
Proof.
  intros Hip Nip Hfp.
  destruct ip as [|c ip]; [contradiction|].
  assert (Hc : digit_of c <> None).
  { simpl in Hip. destruct (digit_of c); [discriminate | discriminate]. }
  assert (Hread : read_decimal (String c ip +:+ "." +:+ fp) =
                  Some ((inject_Z (digits_value (String c ip) 0) +
                         inject_Z (digits_value fp 0) / pow10 (String.length fp)) *
                        inject_Z (10 ^ 0))).
  { unfold read_decimal.
    rewrite (read_digits_app (String c ip) ("." +:+ fp) 0 0 Hip eq_refl).
    change ("." +:+ fp) with (String "." fp).
    rewrite <- (append_nil_r fp) at 1.
    rewrite (read_digits_app fp "" 0 0 Hfp eq_refl). reflexivity. }
  unfold parseFloat. destruct neg.
  - change ("-" +:+ String c ip +:+ "." +:+ fp) with (String "-" (String c ip +:+ "." +:+ fp)).
    cbn [trim_start]. change (is_space "-") with false. cbv iota.
    cbv beta iota. 
    apply digit_cases in Hc. simpl in Hc.
    repeat (destruct Hc as [<- | Hc]; [cbn [String.prefix]; simpl String.prefix; rewrite Hread; reflexivity|]).
    contradiction.
  - change ("" +:+ String c ip +:+ "." +:+ fp) with (String c (ip +:+ "." +:+ fp)).
    cbn [trim_start]. rewrite (digit_not_space c Hc).
    change (String c (ip +:+ "." +:+ fp)) with (String c ip +:+ "." +:+ fp) in *.
    apply digit_cases in Hc. simpl in Hc.
    repeat (destruct Hc as [<- | Hc]; [cbn; rewrite Hread; reflexivity|]).
    contradiction.
Qed.

(** The pattern of the change renderers matches a signed numeral followed by
    a percent sign, and captures the numeral. *)
Lemma match_percent_numeral (neg : bool) (ip fp rest : string) :
  all_digits ip = true -> ip <> "" -> all_digits fp = true ->
  match_percent (((if neg then "-" else "") +:+ ip +:+ "." +:+ fp) +:+ "%" +:+ rest) =
  Some ((if neg then "-" else "") +:+ ip +:+ "." +:+ fp).
Proof.
  intros Hip Nip Hfp. rewrite !append_assoc.
  destruct ip as [|c ip]; [contradiction|].
  assert (Hc : digit_of c <> None).
  { simpl in Hip. destruct (digit_of c); [discriminate | discriminate]. }
  assert (Htail : forall sign,
    (let '(ip0, r1) := take_digits (String c ip +:+ "." +:+ fp +:+ "%" +:+ rest) in
     if String.eqb ip0 "" then None
     else
       let '(dot, r2) :=
         match r1 with
         | String "." r => (".", r)
         | _ => ("", r1)
         end in
       let '(fp0, r3) := take_digits r2 in
       match r3 with
       | String "%" _ => Some (sign +:+ ip0 +:+ dot +:+ fp0)
       | _ => None
       end) = Some (sign +:+ String c ip +:+ "." +:+ fp)).
  { intros sign.
    rewrite (take_digits_app (String c ip) ("." +:+ fp +:+ "%" +:+ rest) Hip eq_refl).
    change (String.eqb (String c ip) "") with false. cbv iota.
    change ("." +:+ fp +:+ "%" +:+ rest) with (String "." (fp +:+ "%" +:+ rest)).
    cbv iota.
    rewrite (take_digits_app fp ("%" +:+ rest) Hfp eq_refl). reflexivity. }
  unfold match_percent. destruct neg.
  - change ("-" +:+ String c ip +:+ "." +:+ fp +:+ "%" +:+ rest)
      with (String "-" (String c ip +:+ "." +:+ fp +:+ "%" +:+ rest)).
    cbv iota. exact (Htail "-").
  - change ("" +:+ String c ip +:+ "." +:+ fp +:+ "%" +:+ rest)
      with (String c ip +:+ "." +:+ fp +:+ "%" +:+ rest).
    specialize (Htail "").
    apply digit_cases in Hc. simpl in Hc.
    repeat (destruct Hc as [<- | Hc]; [exact Htail|]).
    contradiction.
Qed.

(** The integer nearest to a whole number of hundredths is that number. *)
Lemma round_at_hundredths (n : Z) : round_at 2 (inject_Z n / 100) = n.
Proof.
  unfold round_at.
  assert (E : inject_Z n / 100 * pow10 2 + (1 # 2) == (2 * n + 1) # 2).
  { unfold pow10. change (inject_Z (10 ^ Z.of_nat 2)) with 100.
    unfold Qeq, Qdiv, Qmult, Qplus, Qinv, inject_Z. simpl. lia. }
  rewrite (Qfloor_comp _ _ E). unfold Qfloor.
  symmetry. apply (Z.div_unique _ 2 n 1); lia.
Qed.

Lemma prints_in_full_small (x : Q) : prints_in_full x -> Qabs x < pow10 21.
Proof.
  unfold prints_in_full, round_at. intros Hn.
  apply Qnot_le_lt. intros Hge.
  assert (H1 : inject_Z (10 ^ 23) <= Qabs x * pow10 2 + (1 # 2)).
  { apply Qle_trans with (pow10 21 * pow10 2 + 0).
    - vm_compute. discriminate.
    - apply Qplus_le_compat; [|discriminate].
      apply Qmult_le_compat_r; [exact Hge | vm_compute; discriminate]. }
  apply Qfloor_resp_le in H1. rewrite Qfloor_Z in H1. lia.
Qed.

Section Scan.

Variable h : Host.

Lemma toFixed_2_small (a : Q) :
  Qabs a < pow10 21 ->
  toFixed h 2 (Fin a) =
  (if Qltb a 0 then "-" else "") +:+ insert_point 2 (digits (round_at 2 (Qabs a))).
Proof.
  intros Hs. unfold toFixed.
  destruct (Qle_bool (pow10 21) (Qabs a)) eqn:E; [|reflexivity].
  apply Qle_bool_iff in E. exfalso. exact (Qlt_not_le _ _ Hs E).
Qed.

End Scan.

End DecimalTextFacts.

(** ** The change renderers on printed numbers *)

Module DisplayFacts.
Import JS TestComparison DecimalText DecimalTextFacts.

Section Display.

Variable h : Host.

(** Reading back what [toFixed(2)] printed gives the number rounded to
    hundredths, with its sign. *)
Lemma parse_printed (x : Q) :
  prints_in_full x ->
  exists q,
    parseFloat (toFixed h 2 (Fin x)) = Fin q /\
    q == (if Qltb x 0 then - (inject_Z (round_at 2 (Qabs x)) / 100)
          else inject_Z (round_at 2 (Qabs x)) / 100).
Proof.
  intros Hx.
  destruct (toFixed_2_shape h x (prints_in_full_small x Hx))
    as (ip & fp & E & Hip & Nip & Hfp & Lfp & V).
  rewrite E, (parseFloat_numeral _ ip fp Hip Nip Hfp), Lfp.
  eexists; split; [reflexivity|]. cbv zeta.
  assert (Q0 : (inject_Z (digits_value ip 0) + inject_Z (digits_value fp 0) / pow10 2) *
               inject_Z (10 ^ 0) == inject_Z (round_at 2 (Qabs x)) / 100).
  { rewrite <- V, inject_Z_plus, inject_Z_mult.
    unfold pow10. change (inject_Z (10 ^ Z.of_nat 2)) with 100.
    change (inject_Z (10 ^ 0)) with 1. change (inject_Z 100) with 100. field. }
  destruct (Qltb x 0); rewrite Q0; reflexivity.
Qed.

Lemma round_at_comp (d : nat) (a b : Q) : a == b -> round_at d a = round_at d b.
Proof.
  intros E. unfold round_at. apply Qfloor_comp. now rewrite E.
Qed.

Lemma round_at_le (d : nat) (a : Q) : inject_Z (round_at d a) <= a * pow10 d + (1 # 2).
Proof. apply Qfloor_le. Qed.

(** A magnitude is printed without a sign, digit by digit. *)
Lemma toFixed_2_magnitude (a : Q) (n : Z) :
  0 <= a -> round_at 2 a = n -> (n < 10 ^ 23)%Z ->
  toFixed h 2 (Fin a) = insert_point 2 (digits n).
Proof.
  intros Ha Hn Hlt.
  assert (Eabs : Qabs a == a) by now apply Qabs_pos.
  assert (Hfull : prints_in_full a).
  { unfold prints_in_full. now rewrite (round_at_comp 2 _ _ Eabs), Hn. }
  rewrite (toFixed_2_small h a (prints_in_full_small a Hfull)).
  rewrite (proj2 (ComparisonFacts.Qltb_false a 0) Ha).
  now rewrite (round_at_comp 2 _ _ Eabs), Hn.
Qed.

(** The fragment the change renderers build from a printed change: the same
    digits without the sign, and an up arrow exactly when the change is at
    least half a hundredth. *)
Lemma shown_after_reading (x : Q) :
  prints_in_full x ->
  magnitude_and_arrow h (parseFloat (toFixed h 2 (Fin x))) =
  toFixed h 2 (Fin (Qabs x)) +:+ "%" +:+ (if Qle_bool (1 # 200) x then UP else DOWN).
Proof.
  intros Hx. destruct (parse_printed x Hx) as (q & P & Hq). rewrite P.
  unfold magnitude_and_arrow. cbn [nabs ngtb].
  pose proof (round_at_nonneg 2 _ (Qabs_nonneg x)) as Hn0.
  pose proof (round_at_le 2 (Qabs x)) as Hle.
  set (n := round_at 2 (Qabs x)) in *.
  assert (Hn0q : 0 <= inject_Z n / 100).
  { apply Qle_shift_div_l; [reflexivity|]. rewrite Qmult_0_l.
    change 0 with (inject_Z 0). now rewrite <- Zle_Qle. }
  assert (Eq : Qabs q == inject_Z n / 100).
  { destruct (Qltb x 0); rewrite Hq; [rewrite Qabs_opp|]; now apply Qabs_pos. }
  assert (Hr : round_at 2 (Qabs q) = n)
    by (rewrite (round_at_comp 2 _ _ Eq); apply round_at_hundredths).
  rewrite (toFixed_2_magnitude (Qabs q) n (Qabs_nonneg q) Hr Hx).
  rewrite (toFixed_2_magnitude (Qabs x) n (Qabs_nonneg x) eq_refl Hx).
  do 2 f_equal.
  assert (Harrow : Qltb 0 q = Qle_bool (1 # 200) x); [|now rewrite Harrow].
  unfold pow10 in Hle. change (inject_Z (10 ^ Z.of_nat 2)) with 100 in Hle.
  destruct (Qle_bool (1 # 200) x) eqn:B.
  - apply Qle_bool_iff in B. apply ComparisonFacts.Qltb_true.
    assert (Hpos : Qltb x 0 = false) by (apply ComparisonFacts.Qltb_false; lra).
    rewrite Hpos in Hq. rewrite Hq.
    assert (Habs : Qabs x == x) by (apply Qabs_pos; lra).
    assert (H1 : (1 <= n)%Z).
    { change 1%Z with (Qfloor 1). unfold n, round_at. apply Qfloor_resp_le.
      unfold pow10. change (inject_Z (10 ^ Z.of_nat 2)) with 100. lra. }
    apply Qlt_shift_div_l; [reflexivity|]. rewrite Qmult_0_l.
    change 0 with (inject_Z 0). rewrite <- Zlt_Qlt. lia.
  - apply ComparisonFacts.Qltb_false.
    assert (Blt : x < 1 # 200).
    { apply Qnot_le_lt. intros C. apply Qle_bool_iff in C. congruence. }
    destruct (Qltb x 0) eqn:S; rewrite Hq.
    + lra.
    + apply ComparisonFacts.Qltb_false in S.
      assert (Habs : Qabs x == x) by (apply Qabs_pos; lra).
      assert (H1 : (n < 1)%Z).
      { rewrite Zlt_Qlt. apply Qle_lt_trans with (Qabs x * 100 + (1 # 2)); [exact Hle|].
        change (inject_Z 1) with 1. lra. }
      assert (E0 : n = 0%Z) by lia. rewrite E0. vm_compute. discriminate.
Qed.

(** What the cost and usage renderers show for a change printed by
    [toFixed(2)] and followed by a percent sign. *)
Lemma display_change_printed (x : Q) (rest : string) :
  prints_in_full x ->
  display_change h (VStr (toFixed h 2 (Fin x) +:+ "%" +:+ rest)) =
  Ok (VStr (toFixed h 2 (Fin (Qabs x)) +:+ "%" +:+
            (if Qle_bool (1 # 200) x then UP else DOWN))).
Proof.
  intros Hx. unfold display_change.
  destruct (toFixed_2_shape h x (prints_in_full_small x Hx))
    as (ip & fp & E & Hip & Nip & Hfp & Lfp & V).
  assert (M : match_percent (toFixed h 2 (Fin x) +:+ "%" +:+ rest) =
              Some (toFixed h 2 (Fin x))).
  { rewrite E. now apply match_percent_numeral. }
  rewrite M. now rewrite shown_after_reading.
Qed.

(** A printed number starts with a minus sign or a digit. *)
Lemma printed_head (x : Q) :
  prints_in_full x ->
  exists c0 tail, toFixed h 2 (Fin x) = String c0 tail /\ c0 <> "N"%char.
Proof.
  intros Hx.
  destruct (toFixed_2_shape h x (prints_in_full_small x Hx))
    as (ip & fp & E & Hip & Nip & Hfp & Lfp & V).
  rewrite E. destruct ip as [|c ip]; [contradiction|].
  destruct (Qltb x 0).
  - exists "-"%char, (String c ip +:+ "." +:+ fp). split; [reflexivity | discriminate].
  - exists c, (ip +:+ "." +:+ fp). split; [reflexivity|].
    assert (Hc : digit_of c <> None).
    { simpl in Hip. destruct (digit_of c); discriminate. }
    apply digit_cases in Hc. simpl in Hc.
    repeat (destruct Hc as [<- | Hc]; [discriminate|]). contradiction.
Qed.

(** ... so followed by anything it is neither empty nor the sentinel. *)
Lemma printed_not_sentinel (x : Q) (rest : string) :
  prints_in_full x ->
  String.eqb (toFixed h 2 (Fin x) +:+ rest) "" = false /\
  String.eqb (toFixed h 2 (Fin x) +:+ rest) "N/A" = false.
Proof.
  intros Hx. destruct (printed_head x Hx) as (c0 & tail & E & Hc). rewrite E.
  change (String c0 tail +:+ rest) with (String c0 (tail +:+ rest)).
  split; [reflexivity|]. cbn [String.eqb].
  now rewrite (proj2 (Ascii.eqb_neq c0 "N") Hc).
Qed.

(** What [renderChangeValue] shows for a number printed by [toFixed(2)]. *)
Lemma renderChangeValue_printed (x : Q) :
  prints_in_full x ->
  renderChangeValue h (VStr (toFixed h 2 (Fin x))) =
  VStr (toFixed h 2 (Fin (Qabs x)) +:+ "%" +:+
        (if Qle_bool (1 # 200) x then UP else DOWN)).
Proof.
  intros Hx. unfold renderChangeValue. cbn [strict_eq_str ToString].
  destruct (printed_not_sentinel x "" Hx) as [_ N].
  rewrite append_nil_r in N. rewrite N. now rewrite shown_after_reading.
Qed.

Lemma costChangeCell_printed (x : Q) (rest : string) :
  prints_in_full x ->
  costChangeCell h (VStr (toFixed h 2 (Fin x) +:+ "%" +:+ rest)) =
  Ok (VStr (toFixed h 2 (Fin (Qabs x)) +:+ "%" +:+
            (if Qle_bool (1 # 200) x then UP else DOWN))).
Proof.
  intros Hx. unfold costChangeCell.
  destruct (printed_not_sentinel x ("%" +:+ rest) Hx) as [N1 N2].
  cbn [js_or truthy strict_eq_str]. rewrite N1, N2. cbn [negb orb].
  now apply display_change_printed.
Qed.

(** The arrow [calculateChange] appends to a printed change: up from half a
    hundredth, down from minus half a hundredth, none in between. *)
Lemma calculateChange_arrow_printed (x : Q) :
  prints_in_full x ->
  calculateChange_arrow (toFixed h 2 (Fin x)) =
  if Qle_bool (1 # 200) x then UP
  else if Qle_bool x (- (1 # 200)) then DOWN else "".
Proof.
  intros Hx. destruct (parse_printed x Hx) as (q & P & Hq).
  unfold calculateChange_arrow. rewrite P. cbn [ngtb neqb].
  pose proof (round_at_nonneg 2 _ (Qabs_nonneg x)) as Hn0.
  pose proof (round_at_le 2 (Qabs x)) as Hle.
  assert (Hlt : Qabs x * 100 + (1 # 2) < inject_Z (round_at 2 (Qabs x) + 1)).
  { unfold round_at. apply Qlt_floor. }
  unfold pow10 in Hle. change (inject_Z (10 ^ Z.of_nat 2)) with 100 in Hle.
  set (n := round_at 2 (Qabs x)) in *.
  rewrite inject_Z_plus in Hlt. change (inject_Z 1) with 1 in Hlt.
  assert (Hnq : 0 <= inject_Z n).
  { change 0 with (inject_Z 0). now rewrite <- Zle_Qle. }
  assert (Hn1 : (0 < n)%Z -> 1 <= inject_Z n).
  { intros H. change 1 with (inject_Z 1). rewrite <- Zle_Qle. lia. }
  assert (Hn2 : inject_Z n < 1 -> n = 0%Z).
  { intros H. change 1 with (inject_Z 1) in H. rewrite <- Zlt_Qlt in H. lia. }
  assert (Hdiv : inject_Z n / 100 == inject_Z n * (1 # 100)) by reflexivity.
  destruct (Qltb x 0) eqn:S.
  - apply ComparisonFacts.Qltb_true in S.
    assert (Habs : Qabs x == - x) by (apply Qabs_neg; lra).
    assert (B1 : Qle_bool (1 # 200) x = false).
    { destruct (Qle_bool (1 # 200) x) eqn:B; [|reflexivity].
      apply Qle_bool_iff in B. lra. }
    assert (G : Qltb 0 q = false) by (apply ComparisonFacts.Qltb_false; lra).
    rewrite B1, G.
    destruct (Qle_bool x (- (1 # 200))) eqn:B2.
    + apply Qle_bool_iff in B2.
      assert (Hpos : (0 < n)%Z).
      { destruct (Z.eq_dec n 0) as [E0|]; [|lia]. rewrite E0 in Hlt.
        change (inject_Z 0) with 0 in Hlt. lra. }
      apply Hn1 in Hpos.
      assert (Nz : Qeq_bool q 0 = false) by (apply ComparisonFacts.Qeq_bool_false; lra).
      now rewrite Nz.
    + assert (Bgt : - (1 # 200) < x).
      { apply Qnot_le_lt. intros C. apply Qle_bool_iff in C. congruence. }
      assert (E0 : n = 0%Z) by (apply Hn2; lra).
      assert (Z0 : Qeq_bool q 0 = true).
      { apply Qeq_bool_iff. rewrite Hq, E0. reflexivity. }
      now rewrite Z0.
  - apply ComparisonFacts.Qltb_false in S.
    assert (Habs : Qabs x == x) by (apply Qabs_pos; lra).
    destruct (Qle_bool (1 # 200) x) eqn:B1.
    + apply Qle_bool_iff in B1.
      assert (Hpos : (0 < n)%Z).
      { destruct (Z.eq_dec n 0) as [E0|]; [|lia]. rewrite E0 in Hlt.
        change (inject_Z 0) with 0 in Hlt. lra. }
      apply Hn1 in Hpos.
      assert (Nz : Qeq_bool q 0 = false) by (apply ComparisonFacts.Qeq_bool_false; lra).
      assert (G : Qltb 0 q = true) by (apply ComparisonFacts.Qltb_true; lra).
      now rewrite Nz, G.
    + assert (Blt : x < 1 # 200).
      { apply Qnot_le_lt. intros C. apply Qle_bool_iff in C. congruence. }
      assert (E0 : n = 0%Z) by (apply Hn2; lra).
      assert (Z0 : Qeq_bool q 0 = true).
      { apply Qeq_bool_iff. rewrite Hq, E0. reflexivity. }
      rewrite Z0. cbn [negb].
      destruct (Qle_bool x (- (1 # 200))) eqn:B2; [|reflexivity].
      apply Qle_bool_iff in B2. lra.
Qed.

End Display.

End DisplayFacts.

(** ** Rows, columns and shown cells *)

Module ColumnFacts.
Import JS TestComparison Columns DecimalText DecimalTextFacts DisplayFacts.

Lemma mapM_Forall2 {A B : Type} (f : A -> result B) (l : list A) (bs : list B) :
  mapM f l = Ok bs -> Forall2 (fun a b => f a = Ok b) l bs.
Proof.
  revert bs. induction l as [|a l IH]; simpl; intros bs.
  - intros [= <-]. constructor.
  - destruct (f a) as [b|] eqn:Fa; simpl; [|discriminate].
    destruct (mapM f l) as [bs'|] eqn:Fl; simpl; [|discriminate].
    intros [= <-]. constructor; [exact Fa | now apply IH].
Qed.

(** Writing under other keys leaves what [k] holds. *)
Lemma last_write_other (k : string) (l : list (string * value)) (acc : value) :
  ~ In k (map fst l) ->
  fold_left (fun acc e => if String.eqb k (fst e) then snd e else acc) l acc = acc.
Proof.
  revert acc. induction l as [|e l IH]; simpl; intros acc Hk; [reflexivity|].
  destruct (String.eqb_spec k (fst e)) as [E|_].
  - exfalso. apply Hk. left. now symmetry.
  - apply IH. tauto.
Qed.

Lemma last_write_in (k : string) (v : value) (l : list (string * value)) (acc : value) :
  NoDup (map fst l) -> In (k, v) l ->
  fold_left (fun acc e => if String.eqb k (fst e) then snd e else acc) l acc = v.
Proof.
  revert acc. induction l as [|e l IH]; simpl; intros acc Hnd Hin; [contradiction|].
  apply NoDup_cons_iff in Hnd. destruct Hnd as [Hfresh Hnd].
  destruct Hin as [->|Hin].
  - simpl. rewrite String.eqb_refl. now apply last_write_other.
  - now apply IH.
Qed.

(** [item[id]] is the cell written for [id]. *)
Lemma item_get_cell (label id : string) (cells : list (string * value)) (c : value) :
  NoDup (map fst cells) -> In (id, c) cells -> item_get (label, cells) id = c.
Proof.
  intros Hnd Hin. unfold item_get, item_entries. cbn [fst snd fold_left].
  now apply last_write_in.
Qed.

(** [item.metric] is the label unless a cell was written under that name. *)
Lemma item_get_label (label : string) (cells : list (string * value)) :
  ~ In "metric" (map fst cells) -> item_get (label, cells) "metric" = VStr label.
Proof.
  intros Hk. unfold item_get, item_entries. cbn [fst snd fold_left].
  change (String.eqb "metric" "metric") with true. cbv iota.
  now apply last_write_other.
Qed.

(** The cells of a row: one per complete run, under its id, in order. *)
Lemma row_cells (label : string) (cell : value -> result value)
    (complete : list (string * value)) (it : item) :
  row label cell complete = Ok it ->
  fst it = label /\
  Forall2 (fun e c => fst c = fst e /\ cell (snd e) = Ok (snd c)) complete (snd it).
Proof.
  unfold row.
  destruct (mapM (fun e => let* c := cell (snd e) in Ok (fst e, c)) complete)
    as [cells|] eqn:M; simpl; [|discriminate].
  intros [= <-]. split; [reflexivity|]. simpl.
  apply mapM_Forall2 in M. eapply List.Forall2_impl; [|exact M].
  intros e c. simpl. destruct (cell (snd e)) as [v|]; simpl; [|discriminate].
  now intros [= <-].
Qed.

Lemma row_keys (label : string) (cell : value -> result value)
    (complete : list (string * value)) (it : item) :
  row label cell complete = Ok it -> map fst (snd it) = map fst complete.
Proof.
  intros R. destruct (row_cells _ _ _ _ R) as [_ F]. clear R.
  induction F as [|e c l cs [E _] _ IH]; simpl; [reflexivity|]. congruence.
Qed.

Lemma row_cell_of (label : string) (cell : value -> result value)
    (complete : list (string * value)) (it : item) (id : string) (run : value) :
  row label cell complete = Ok it -> In (id, run) complete ->
  exists c, cell run = Ok c /\ In (id, c) (snd it).
Proof.
  intros R. destruct (row_cells _ _ _ _ R) as [_ F]. clear R.
  induction F as [|e c l cs [E Hc] _ IH]; simpl; [contradiction|].
  intros [->|Hin].
  - exists (snd c). split; [exact Hc|]. left. destruct c; simpl in *. now subst.
  - destruct (IH Hin) as (c' & Hc' & Hin'). exists c'. auto.
Qed.

Section Shown.

Variable h : Host.

(** Reading an item of a row back: under the id of a run, the cell computed for
    that run. *)
Lemma row_item_cell (label : string) (cell : value -> result value)
    (complete : list (string * value)) (it : item) (id : string) (run : value) :
  NoDup (map fst complete) ->
  In (id, run) complete ->
  row label cell complete = Ok it ->
  exists c, cell run = Ok c /\ item_get it id = c.
Proof.
  intros Hnd Hin R.
  destruct (row_cell_of _ _ _ _ _ _ R Hin) as (c & Hc & Hcell).
  pose proof (row_keys _ _ _ _ R) as K.
  destruct it as [l cells]. cbn [snd] in *.
  exists c. split; [exact Hc|].
  apply item_get_cell; [now rewrite K | exact Hcell].
Qed.

(** ... and under [metric] the label, unless a run bears that name. *)
Lemma row_item_label (label : string) (cell : value -> result value)
    (complete : list (string * value)) (it : item) :
  ~ In "metric" (map fst complete) ->
  row label cell complete = Ok it ->
  item_get it "metric" = VStr label.
Proof.
  intros Hm R.
  pose proof (row_keys _ _ _ _ R) as K.
  destruct (row_cells _ _ _ _ R) as [L _].
  destruct it as [l cells]. cbn [fst snd] in *. subst l.
  apply item_get_label. now rewrite K.
Qed.

(** Every column shows, in every row, the cell computed for its own run, and
    the first column shows the row label, as long as the run ids are distinct
    and none of them is the word metric; a run of that name puts its own cell
    in the place of the label. *)
Theorem column_reads_own_cell (label : string) (cell : value -> result value)
    (complete : list (string * value)) (it : item) (id : string) (run : value) :
  NoDup (map fst complete) ->
  In (id, run) complete ->
  row label cell complete = Ok it ->
  exists c,
    cell run = Ok c /\ item_get it id = c /\
    (~ In "metric" (map fst complete) -> item_get it "metric" = VStr label).
Proof.
  intros Hnd Hin R.
  destruct (row_item_cell _ _ _ _ _ _ Hnd Hin R) as (c & Hc & Hget).
  exists c. split; [exact Hc|]. split; [exact Hget|].
  intros Hm. exact (row_item_label _ _ _ _ Hm R).
Qed.

(** The cost-change cell as the table shows it.  For a complete run whose two
    total costs are numbers other than zero, with run ids distinct and none of
    them the word metric, let [x] be the change in percent as the row computes
    it, each operation rounded to a double.  The column of the run shows in
    the row Cost Change the magnitude of [x] to two decimals, without its
    sign, and an up arrow exactly when [x] is at least 0.005: the renderer
    reads the printed digits back, so a rise that prints as 0.00 is shown
    with a down arrow. *)
Theorem cost_change_shown (complete : list (string * value)) (it : item)
    (id : string) (testRun test baseline : value) (t b x : Q) :
  NoDup (map fst complete) ->
  ~ In "metric" (map fst complete) ->
  In (id, testRun) complete ->
  side h "test" testRun = Ok test ->
  side h "baseline" testRun = Ok baseline ->
  total_cost test = VNum (Fin t) ->
  total_cost baseline = VNum (Fin b) ->
  ~ t == 0 -> ~ b == 0 ->
  nmul (ndiv (nsub (Fin t) (Fin b)) (Fin b)) (Fin 100) = Fin x ->
  prints_in_full x ->
  row "Cost Change" (costChangeValue h) complete = Ok it ->
  costColumn h id it =
  Ok (VStr (toFixed h 2 (Fin (Qabs x)) +:+ "%" +:+
            (if Qle_bool (1 # 200) x then UP else DOWN))).
Proof.
  intros Hnd Hm Hin Ht Hb Et Eb Nt Nb Ex Hx R.
  destruct (row_item_cell _ _ _ _ _ _ Hnd Hin R) as (c & Hc & Hget).
  pose proof (row_item_label _ _ _ _ Hm R) as Hlabel.
  rewrite (ComparisonFacts.costChangeValue_numbers h _ _ _ t b Ht Hb Et Eb Nt Nb), Ex in Hc.
  assert (Ec : c = VStr (toFixed h 2 (Fin x) +:+ "%" +:+
                         (if ngtb (ndiv (nsub (Fin t) (Fin b)) (Fin b)) (Fin 0)
                          then UP else DOWN))) by congruence.
  unfold costColumn. rewrite Hlabel, Hget, Ec.
  change (strict_eq_str (VStr "Cost Change") "Cost Change") with true. cbv iota.
  exact (costChangeCell_printed h x _ Hx).
Qed.

(** The accuracy-change cell as the table shows it: for a run whose accuracy
    similarity is a number, the magnitude to two decimals followed by a percent
    sign, and an up arrow exactly when the similarity is at least 0.005. *)
Theorem accuracy_change_shown (complete : list (string * value)) (it : item)
    (id : string) (testRun : value) (s : Q) :
  NoDup (map fst complete) ->
  ~ In "metric" (map fst complete) ->
  In (id, testRun) complete ->
  get testRun "accuracySimilarity" = VNum (Fin s) ->
  prints_in_full s ->
  row "Accuracy Change" (accuracyChangeCell h) complete = Ok it ->
  performanceColumn h id it =
  Ok (VStr (toFixed h 2 (Fin (Qabs s)) +:+ "%" +:+
            (if Qle_bool (1 # 200) s then UP else DOWN))).
Proof.
  intros Hnd Hm Hin Es Hx R.
  destruct (row_item_cell _ _ _ _ _ _ Hnd Hin R) as (c & Hc & Hget).
  pose proof (row_item_label _ _ _ _ Hm R) as Hlabel.
  assert (Hcell : accuracyChangeCell h testRun = Ok (VStr (toFixed h 2 (Fin s)))).
  { unfold accuracyChangeCell, prop.
    destruct (nullish testRun) eqn:N.
    - destruct testRun; try discriminate N; discriminate Es.
    - cbn [bind]. rewrite Es. reflexivity. }
  rewrite Hcell in Hc.
  assert (Ec : c = VStr (toFixed h 2 (Fin s))) by congruence.
  unfold performanceColumn. rewrite Hlabel, Hget, Ec.
  change (strict_eq_str (VStr "Accuracy Change") "Accuracy Change") with true. cbv iota.
  rewrite (renderChangeValue_printed h s Hx). reflexivity.
Qed.

(** The token change of two numeric totals, the baseline not zero.  With [x]
    the change in percent as the helper computes it, each operation rounded to
    a double: the magnitude of the printed [x] as the engine converts and
    prints it, a percent sign, and an arrow that is up when [x] is at least
    0.005, down when it is at most -0.005 and absent in between. *)
Theorem token_change_arrow (t b x : Q) :
  ~ b == 0 ->
  nmul (ndiv (nsub (Fin t) (Fin b)) (Fin b)) (Fin 100) = Fin x ->
  prints_in_full x ->
  calculateChange h (VNum (Fin t)) (VNum (Fin b)) =
  NumberToString h (nabs (StringToNumber h (toFixed h 2 (Fin x)))) +:+
  "%" +:+
  (if Qle_bool (1 # 200) x then UP
   else if Qle_bool x (- (1 # 200)) then DOWN else "").
Proof.
  intros Nb Ex Hx. unfold calculateChange.
  rewrite (ComparisonFacts.truthy_num b Nb), (ComparisonFacts.strict_eq_zero_num b Nb).
  cbn [negb orb]. unfold calculateChange_change.
  rewrite (ComparisonFacts.relative_change_numbers h t b), Ex. cbn [ToNumber].
  rewrite (calculateChange_arrow_printed h _ Hx). reflexivity.
Qed.

(** *** Showing the tables *)

Lemma table_rows (empty_text : string) (rows : list (string * (value -> result value)))
    (complete : list (string * value)) (t : tableView) :
  table empty_text rows complete = Ok t ->
  match t with
  | Placeholder text => complete = [] /\ text = empty_text
  | Rows rs =>
      complete <> [] /\
      Forall2 (fun r it => row (fst r) (snd r) complete = Ok it) rows rs
  end.
Proof.
  unfold table. destruct complete as [|e complete]; cbn [List.length Nat.ltb Nat.leb].
  - intros [= <-]. auto.
  - destruct (mapM (fun r => row (fst r) (snd r) (e :: complete)) rows) as [rs|] eqn:M;
      cbn [bind]; [|discriminate].
    intros [= <-]. split; [discriminate|]. now apply mapM_Forall2.
Qed.

(** The rows and the cells of a table.  The placeholder is shown exactly
    when no run is complete; otherwise the table has its rows in their fixed
    order, and every row has one cell per complete run, under its id and in
    the order of the runs. *)
Theorem table_shape (empty_text : string) (rows : list (string * (value -> result value)))
    (complete : list (string * value)) (t : tableView) :
  table empty_text rows complete = Ok t ->
  match t with
  | Placeholder text => complete = [] /\ text = empty_text
  | Rows rs =>
      complete <> [] /\
      map fst rs = map fst rows /\
      Forall (fun it => map fst (snd it) = map fst complete) rs
  end.
Proof.
  intros T. apply table_rows in T. destruct t as [rs|text]; [|exact T].
  destruct T as [Hne F]. split; [exact Hne|].
  induction F as [|r it rows' rs' R _ IH]; cbn [map]; [split; constructor|].
  destruct IH as [IH1 IH2]. split.
  - f_equal; [|exact IH1]. now destruct (row_cells _ _ _ _ R).
  - constructor; [|exact IH2]. exact (row_keys _ _ _ _ R).
Qed.

Lemma showRows_ok (column : string -> item -> result value)
    (complete : list (string * value)) (rs : list item) :
  (forall it id, In it rs -> In id (map fst complete) -> exists v, column id it = Ok v) ->
  exists out, showRows column complete rs = Ok out.
Proof.
  intros Hc. unfold showRows. apply ComparisonFacts.mapM_ok.
  apply List.Forall_forall. intros it Hit. unfold metricColumn. cbn [bind].
  assert (Hm : exists cs, mapM (fun id => let* c := column id it in Ok (id, c))
                               (map fst complete) = Ok cs).
  { apply ComparisonFacts.mapM_ok. apply List.Forall_forall. intros id Hid.
    destruct (Hc it id Hit Hid) as [v Hv]. rewrite Hv. now eexists. }
  destruct Hm as [cs Hm]. rewrite Hm. now eexists.
Qed.

Lemma costChangeValue_is_text (testRun c : value) :
  costChangeValue h testRun = Ok c -> exists s, c = VStr s.
Proof.
  unfold costChangeValue.
  destruct (side h "test" testRun) as [test|]; cbn [bind]; [|discriminate].
  destruct (side h "baseline" testRun) as [baseline|]; cbn [bind]; [|discriminate].
  destruct (truthy (total_cost test) && truthy (total_cost baseline)).
  - destruct (prop test "cost") as [tc|]; cbn [bind]; [|discriminate].
    destruct (prop tc "total_cost") as [t|]; cbn [bind]; [|discriminate].
    destruct (prop baseline "cost") as [bc|]; cbn [bind]; [|discriminate].
    destruct (prop bc "total_cost") as [b|]; cbn [bind]; [|discriminate].
    intros [= <-]. now eexists.
  - intros [= <-]. now eexists.
Qed.

Lemma totalTokenChangeCell_is_text (testRun c : value) :
  totalTokenChangeCell h testRun = Ok c -> exists s, c = VStr s.
Proof.
  unfold totalTokenChangeCell.
  destruct (side h "test" testRun) as [test|]; cbn [bind]; [|discriminate].
  destruct (side h "baseline" testRun) as [baseline|]; cbn [bind]; [|discriminate].
  intros [= <-]. now eexists.
Qed.

Lemma display_change_text (s : string) : exists v, display_change h (VStr s) = Ok v.
Proof. unfold display_change. destruct (match_percent s); now eexists. Qed.

Lemma costChangeCell_text (s : string) : exists v, costChangeCell h (VStr s) = Ok v.
Proof.
  unfold costChangeCell.
  destruct (negb (truthy (js_or VUndefined (VStr s))) ||
            strict_eq_str (js_or VUndefined (VStr s)) "N/A"); [now eexists|].
  apply display_change_text.
Qed.

Lemma usageChangeCell_text (s : string) : exists v, usageChangeCell h (VStr s) = Ok v.
Proof.
  unfold usageChangeCell.
  destruct (strict_eq_str (VStr s) "N/A"); [now eexists|]. apply display_change_text.
Qed.

Lemma id_has_run (complete : list (string * value)) (id : string) :
  In id (map fst complete) -> exists run, In (id, run) complete.
Proof.
  intros Hid. apply List.in_map_iff in Hid. destruct Hid as ([i run] & E & Hin).
  simpl in E. subst i. now exists run.
Qed.

Lemma Forall2_in_right {A B : Type} (R : A -> B -> Prop) (l : list A) (k : list B) (b : B) :
  Forall2 R l k -> In b k -> exists a, In a l /\ R a b.
Proof.
  induction 1 as [|a0 b0 l k Hab _ IH]; cbn [In]; [contradiction|].
  intros [<-|Hin].
  - exists a0. auto.
  - destruct (IH Hin) as (a & Ha & Hr). exists a. auto.
Qed.

(** A table is shown without an exception as soon as the cell function of its
    columns returns on every cell its rows can hold. *)
Lemma showTable_ok (column : string -> item -> result value) (empty_text : string)
    (rows : list (string * (value -> result value)))
    (complete : list (string * value)) (t : tableView) :
  NoDup (map fst complete) ->
  ~ In "metric" (map fst complete) ->
  table empty_text rows complete = Ok t ->
  (forall label cell run c id it,
      In (label, cell) rows -> cell run = Ok c ->
      item_get it id = c -> item_get it "metric" = VStr label ->
      exists v, column id it = Ok v) ->
  exists t', showTable column complete t = Ok t'.
Proof.
  intros Hnd Hm T Hcol. apply table_rows in T.
  destruct t as [rs|text]; cbn [showTable]; [|now eexists].
  destruct T as [_ F].
  destruct (showRows_ok column complete rs) as [out E].
  - intros it id Hit Hid. destruct (id_has_run _ _ Hid) as [run Hrun].
    destruct (Forall2_in_right _ _ _ _ F Hit) as ([label cell] & Hr & R).
    cbn [fst snd] in R.
    destruct (row_item_cell _ _ _ _ _ _ Hnd Hrun R) as (c & Hc & Hget).
    exact (Hcol label cell run c id it Hr Hc Hget (row_item_label _ _ _ _ Hm R)).
  - rewrite E. now eexists.
Qed.

(** Showing the tables raises nothing.  With run ids distinct and none of them
    the word metric, once the four tables are computed every cell function of
    every column returns: the cells of the change rows are text, which is all
    the change renderers can read. *)
Theorem shown_tables_never_throw (complete : list (string * value))
    (p a c u : tableView) :
  NoDup (map fst complete) ->
  ~ In "metric" (map fst complete) ->
  performanceTable h complete = Ok p ->
  accuracyTable h complete = Ok a ->
  costTable h complete = Ok c ->
  usageTable h complete = Ok u ->
  exists p' a' c' u',
    showTable (performanceColumn h) complete p = Ok p' /\
    showTable accuracyColumn complete a = Ok a' /\
    showTable (costColumn h) complete c = Ok c' /\
    showTable (usageColumn h) complete u = Ok u'.
Proof.
  intros Hnd Hm Tp Ta Tc Tu.
  destruct (showTable_ok (performanceColumn h) _ _ _ _ Hnd Hm Tp) as [p' Sp].
  { intros label cell run v id it _ _ _ _. unfold performanceColumn.
    destruct (strict_eq_str (item_get it "metric") "Accuracy Change"); now eexists. }
  destruct (showTable_ok accuracyColumn _ _ _ _ Hnd Hm Ta) as [a' Sa].
  { intros label cell run v id it _ _ _ _. unfold accuracyColumn. now eexists. }
  destruct (showTable_ok (costColumn h) _ _ _ _ Hnd Hm Tc) as [c' Sc].
  { intros label cell run v id it Hr Hv Hget Hlabel.
    unfold costColumn. rewrite Hlabel, Hget.
    cbn [costRows In] in Hr.
    destruct Hr as [E|[E|[E|[E|[]]]]]; injection E as <- <-;
      try (change (strict_eq_str (VStr ?l) "Cost Change") with false; cbv iota; now eexists).
    change (strict_eq_str (VStr "Cost Change") "Cost Change") with true. cbv iota.
    destruct (costChangeValue_is_text _ _ Hv) as [s ->]. apply costChangeCell_text. }
  destruct (showTable_ok (usageColumn h) _ _ _ _ Hnd Hm Tu) as [u' Su].
  { intros label cell run v id it Hr Hv Hget Hlabel.
    unfold usageColumn. rewrite Hlabel, Hget. cbn [call_includes bind].
    cbn [usageRows In] in Hr.
    destruct Hr as [E|[E|[E|[]]]]; injection E as <- <-.
    - change (includes "Test Input Tokens" "Change") with false. cbv iota. now eexists.
    - change (includes "Baseline Input Tokens" "Change") with false. cbv iota. now eexists.
    - change (includes "Total Token Change" "Change") with true. cbv iota.
      destruct (totalTokenChangeCell_is_text _ _ Hv) as [s ->]. apply usageChangeCell_text. }
  exists p', a', c', u'. auto.
Qed.

End Shown.

Lemma example_runs_distinct : NoDup (map fst example_runs).
Proof.
  repeat constructor; cbn; intuition discriminate.
Qed.

Lemma example_runs_no_metric : ~ In "metric" (map fst example_runs).
Proof. cbn. intuition discriminate. Qed.

(** The row of test costs of [example_runs], read back by the column of
    run-1. *)
Lemma column_reads_own_cell_example :
  exists c,
    testCostCell example_host slight_rise = Ok c /\
    item_get ("Test Cost", [("run-1", VStr "$100001.0000"); ("run-2", VStr "$5.0000")])
             "run-1" = c /\
    (~ In "metric" (map fst example_runs) ->
     item_get ("Test Cost", [("run-1", VStr "$100001.0000"); ("run-2", VStr "$5.0000")])
              "metric" = VStr "Test Cost").
Proof.
  apply (column_reads_own_cell "Test Cost" (testCostCell example_host) example_runs
           ("Test Cost", [("run-1", VStr "$100001.0000"); ("run-2", VStr "$5.0000")])
           "run-1" slight_rise example_runs_distinct).
  - left. reflexivity.
  - vm_compute. reflexivity.
Defined.

(** A rise of a thousandth of a percent is computed as 0.00 with an up arrow
    and shown as 0.00 with a down arrow. *)
Lemma cost_change_shown_example :
  costChangeValue example_host slight_rise = Ok (VStr "0.00% ↑") /\
  costColumn example_host "run-1"
    ("Cost Change", [("run-1", VStr "0.00% ↑"); ("run-2", VStr "25.00% ↑")]) =
  Ok (VStr "0.00% ↓").
Proof.
  split; [vm_compute; reflexivity|].
  apply (cost_change_shown example_host example_runs
           ("Cost Change", [("run-1", VStr "0.00% ↑"); ("run-2", VStr "25.00% ↑")])
           "run-1" slight_rise (cost_doc (num 100001)) (cost_doc (num 100000))
           100001 100000
           (finite (nmul (ndiv (nsub (Fin 100001) (Fin 100000)) (Fin 100000)) (Fin 100)))
           example_runs_distinct example_runs_no_metric).
  - left. reflexivity.
  - reflexivity.
  - reflexivity.
  - reflexivity.
  - reflexivity.
  - discriminate.
  - discriminate.
  - vm_compute. reflexivity.
  - vm_compute. reflexivity.
  - vm_compute. reflexivity.
Defined.

Lemma accuracy_change_shown_example :
  performanceColumn example_host "run-1"
    ("Accuracy Change", [("run-1", VStr "-0.25"); ("run-2", VStr "N/A")]) =
  Ok (VStr "0.25% ↓").
Proof.
  apply (accuracy_change_shown example_host example_runs
           ("Accuracy Change", [("run-1", VStr "-0.25"); ("run-2", VStr "N/A")])
           "run-1" slight_rise (- (1 # 4))
           example_runs_distinct example_runs_no_metric).
  - left. reflexivity.
  - reflexivity.
  - vm_compute. reflexivity.
  - vm_compute. reflexivity.
Defined.

Lemma token_change_arrow_example :
  calculateChange example_host (num 150) (num 100) = "50% ↑" /\
  calculateChange example_host (num 100001) (num 100000) = "0%".
Proof.
  split.
  - apply (token_change_arrow example_host 150 100 50);
      [discriminate | vm_compute; reflexivity | vm_compute; reflexivity].
  - apply (token_change_arrow example_host 100001 100000
             (finite (nmul (ndiv (nsub (Fin 100001) (Fin 100000)) (Fin 100000))
                           (Fin 100))));
      [discriminate | vm_compute; reflexivity | vm_compute; reflexivity].
Defined.

Lemma table_shape_example :
  exists rs,
    costTable example_host example_runs = Ok (Rows rs) /\
    map fst rs = ["Test Set"; "Test Cost"; "Baseline Cost"; "Cost Change"] /\
    Forall (fun it => map fst (snd it) = ["run-1"; "run-2"]) rs.
Proof.
  eexists. split; [vm_compute; reflexivity|].
  exact (proj2 (table_shape "No cost data available" (costRows example_host) example_runs
                  (Rows _) eq_refl)).
Defined.

Lemma shown_tables_example :
  exists p' a' c' u',
    showTable (performanceColumn example_host) example_runs
      (computed (performanceTable example_host example_runs)) = Ok p' /\
    showTable accuracyColumn example_runs
      (computed (accuracyTable example_host example_runs)) = Ok a' /\
    showTable (costColumn example_host) example_runs
      (computed (costTable example_host example_runs)) = Ok c' /\
    showTable (usageColumn example_host) example_runs
      (computed (usageTable example_host example_runs)) = Ok u'.
Proof.
  apply (shown_tables_never_throw example_host example_runs _ _ _ _
           example_runs_distinct example_runs_no_metric);
    vm_compute; reflexivity.
Defined.

End ColumnFacts.

(** ** The partition of the runs and the render *)

Module RenderFacts.
Import JS TestComparison.

Section Render.

Variable h : Host.

Lemma entries_of_truthy (v : value) : own_entries v <> [] -> truthy v = true.
Proof.
  intros Hne. destruct (truthy v) eqn:T; [reflexivity|].
  exfalso. apply Hne. now apply ComparisonFacts.falsy_no_entries.
Qed.

Lemma filterM_length {A : Type} (f : A -> result bool) (l r : list A) :
  filterM f l = Ok r -> (List.length r <= List.length l)%nat.
Proof.
  revert r. induction l as [|a l IH]; cbn [filterM]; intros r.
  - intros [= <-]. reflexivity.
  - destruct (f a) as [b|]; cbn [bind]; [|discriminate].
    destruct (filterM f l) as [r'|]; cbn [bind]; [|discriminate].
    intros [= <-]. specialize (IH r' eq_refl). destruct b; cbn [List.length]; lia.
Qed.

Lemma partition_warning (es : list (string * value)) (complete : list (string * value)) :
  filterM (fun e => is_complete (snd e)) es = Ok complete ->
  someM is_incomplete (map snd es) =
  Ok (List.length complete <? List.length es)%nat.
Proof.
  revert complete. induction es as [|e es IH]; cbn [filterM someM map]; intros complete.
  - now intros [= <-].
  - unfold is_complete at 1, is_incomplete at 1.
    destruct (prop (snd e) "status") as [st|]; cbn [bind]; [|discriminate].
    destruct (filterM (fun e => is_complete (snd e)) es) as [r|] eqn:F; cbn [bind];
      [|discriminate].
    intros [= <-]. destruct (strict_eq_str st "COMPLETE"); cbn [negb].
    + rewrite (IH r eq_refl). reflexivity.
    + pose proof (filterM_length _ _ _ F) as L. f_equal. symmetry.
      apply Nat.ltb_lt. cbn [List.length]. lia.
Qed.

(** The warning about incomplete runs is raised exactly when the partition
    dropped a run: once the complete runs are computed, the warning is
    computed too, and it is on if and only if fewer runs were kept than the
    metrics hold. *)
Theorem warning_iff_dropped (metrics : value) (complete : list (string * value)) :
  completeTestRuns metrics = Ok complete ->
  hasIncompleteRuns metrics =
  Ok (List.length complete <? List.length (own_entries metrics))%nat.
Proof.
  unfold completeTestRuns, hasIncompleteRuns, Object_values, Object_entries.
  destruct (truthy metrics) eqn:T.
  - rewrite (ComparisonFacts.truthy_not_nullish _ T). cbn [bind].
    apply partition_warning.
  - intros [= <-]. now rewrite (ComparisonFacts.falsy_no_entries _ T).
Qed.

(** When every run is dropped, the warning is on unless there was none. *)
Lemma warning_without_complete_runs (metrics : value) :
  completeTestRuns metrics = Ok [] ->
  hasIncompleteRuns metrics = Ok (0 <? List.length (own_entries metrics))%nat.
Proof.
  unfold completeTestRuns, hasIncompleteRuns, Object_values, Object_entries.
  destruct (truthy metrics) eqn:T.
  - rewrite (ComparisonFacts.truthy_not_nullish _ T). cbn [bind].
    exact (partition_warning (own_entries metrics) []).
  - intros _. now rewrite (ComparisonFacts.falsy_no_entries _ T).
Qed.

(** What the two traversals of the metrics compute, when they return. *)
Lemma partition_filter (es complete : list (string * value)) :
  filterM (fun e => is_complete (snd e)) es = Ok complete ->
  complete = List.filter (fun e => status_is_COMPLETE (snd e)) es /\
  someM is_incomplete (map snd es) =
  Ok (existsb (fun e => negb (status_is_COMPLETE (snd e))) es).
Proof.
  revert complete.
  induction es as [|e es IH]; cbn [filterM someM map List.filter existsb]; intros complete.
  - now intros [= <-].
  - unfold is_complete at 1, is_incomplete at 1, prop.
    destruct (nullish (snd e)); cbn [bind]; [discriminate|].
    destruct (filterM (fun e => is_complete (snd e)) es) as [r|]; cbn [bind];
      [|discriminate].
    destruct (IH r eq_refl) as [Er Hs]. intros [= <-].
    change (status_is_COMPLETE (snd e))
      with (strict_eq_str (get (snd e) "status") "COMPLETE").
    destruct (strict_eq_str (get (snd e) "status") "COMPLETE"); cbn [negb orb];
      rewrite Er; split; try reflexivity; exact Hs.
Qed.

Lemma partition_of_metrics (metrics : value) (complete : list (string * value)) :
  completeTestRuns metrics = Ok complete ->
  complete = List.filter (fun e => status_is_COMPLETE (snd e)) (own_entries metrics) /\
  hasIncompleteRuns metrics =
  Ok (existsb (fun e => negb (status_is_COMPLETE (snd e))) (own_entries metrics)).
Proof.
  unfold completeTestRuns, hasIncompleteRuns, Object_values, Object_entries.
  destruct (truthy metrics) eqn:T.
  - rewrite (ComparisonFacts.truthy_not_nullish _ T). cbn [bind].
    apply partition_filter.
  - intros [= <-]. now rewrite (ComparisonFacts.falsy_no_entries _ T).
Qed.

(** C1, as the component computes it: whenever a comparison is rendered, the
    runs of [comparisonData.metrics] are partitioned by status: exactly the
    runs whose status is the string COMPLETE are kept, in their order, each of
    the four metric tables is computed from these runs and from nothing else,
    and the warning about incomplete runs is on if and only if at least one
    run has any other status. *)
Theorem partition_by_status (comparing : bool) (ids : list string)
    (comparisonData : value) (view : comparisonView) :
  render h comparing ids comparisonData = Ok (Comparison view) ->
  let runs := own_entries (get comparisonData "metrics") in
  let complete := List.filter (fun e => status_is_COMPLETE (snd e)) runs in
  (incompleteWarning view = true <->
   exists e, In e runs /\ status_is_COMPLETE (snd e) = false) /\
  performanceTable h complete = Ok (performance view) /\
  accuracyTable h complete = Ok (accuracy view) /\
  costTable h complete = Ok (cost view) /\
  usageTable h complete = Ok (usage view).
Proof.
  unfold render. destruct comparing; [discriminate|].
  destruct (truthy comparisonData) eqn:Td; cbn [negb]; [|discriminate].
  unfold prop at 1. rewrite (ComparisonFacts.truthy_not_nullish _ Td). cbn [bind].
  destruct (truthy (get comparisonData "error")); [discriminate|].
  unfold renderComparison, prop.
  rewrite (ComparisonFacts.truthy_not_nullish _ Td). cbn [bind].
  destruct (completeTestRuns (get comparisonData "metrics")) as [complete|] eqn:Hc;
    cbn [bind]; [|discriminate].
  destruct (partition_of_metrics _ _ Hc) as [-> Hw]. rewrite Hw. cbn [bind].
  destruct (performanceTable h _) as [p|] eqn:P; cbn [bind]; [|discriminate].
  destruct (accuracyTable h _) as [a|] eqn:A; cbn [bind]; [|discriminate].
  destruct (costTable h _) as [c|] eqn:C; cbn [bind]; [|discriminate].
  destruct (usageTable h _) as [u|] eqn:U; cbn [bind]; [|discriminate].
  intros [= <-]. cbn. repeat split; try reflexivity.
  - intros E. apply existsb_exists in E. destruct E as (e & He & Hn).
    exists e. split; [exact He|]. now apply negb_true_iff.
  - intros (e & He & Hn). apply existsb_exists. exists e.
    split; [exact He|]. now apply negb_true_iff.
Qed.

Lemma filterM_unreadable (es : list (string * value)) :
  Exists (fun e => nullish (snd e) = true) es ->
  filterM (fun e => is_complete (snd e)) es = Throw TypeError.
Proof.
  induction 1 as [e es He|e es _ IH]; cbn [filterM].
  - unfold is_complete, prop. now rewrite He.
  - rewrite IH. unfold is_complete, prop.
    destruct (nullish (snd e)); reflexivity.
Qed.

(** One run that is [null] or [undefined] aborts the whole comparison: the
    partition reads the status of every run, so the render raises a TypeError
    whatever the other runs hold. *)
Theorem unreadable_run_aborts_render (ids : list string) (comparisonData : value) :
  truthy comparisonData = true ->
  truthy (get comparisonData "error") = false ->
  Exists (fun e => nullish (snd e) = true) (own_entries (get comparisonData "metrics")) ->
  render h false ids comparisonData = Throw TypeError.
Proof.
  intros Td Te Hex. unfold render. rewrite Td. cbn [negb].
  unfold prop at 1. rewrite (ComparisonFacts.truthy_not_nullish _ Td). cbn [bind].
  rewrite Te. unfold renderComparison, prop.
  rewrite (ComparisonFacts.truthy_not_nullish _ Td). cbn [bind].
  unfold completeTestRuns, Object_entries.
  assert (Tm : truthy (get comparisonData "metrics") = true).
  { apply entries_of_truthy. intros E. rewrite E in Hex. inversion Hex. }
  rewrite Tm, (ComparisonFacts.truthy_not_nullish _ Tm). cbn [bind].
  now rewrite (filterM_unreadable _ Hex).
Qed.

(** With no complete run the comparison is still rendered: four placeholders,
    and the warning exactly when the metrics hold a run at all. *)
Theorem render_without_complete_runs (ids : list string) (comparisonData : value) :
  truthy comparisonData = true ->
  truthy (get comparisonData "error") = false ->
  completeTestRuns (get comparisonData "metrics") = Ok [] ->
  render h false ids comparisonData =
  Ok (Comparison
        {| configuration := configSection h ids (get comparisonData "configs");
           incompleteWarning :=
             (0 <? List.length (own_entries (get comparisonData "metrics")))%nat;
           performance := Placeholder "No completed test runs available";
           accuracy := Placeholder "No completed test runs available";
           cost := Placeholder "No cost data available";
           usage := Placeholder "No completed test runs available" |}).
Proof.
  intros Td Te Hc. unfold render. rewrite Td. cbn [negb].
  unfold prop at 1. rewrite (ComparisonFacts.truthy_not_nullish _ Td). cbn [bind].
  rewrite Te. unfold renderComparison, prop.
  rewrite (ComparisonFacts.truthy_not_nullish _ Td). cbn [bind].
  rewrite Hc, (warning_without_complete_runs _ Hc). reflexivity.
Qed.

Lemma percent_not_sentinel (a arrow : string) :
  arrow = "" \/ arrow = UP \/ arrow = DOWN -> a +:+ "%" +:+ arrow <> "N/A".
Proof.
  intros Harrow E. pose proof (f_equal String.length E) as L.
  rewrite !DecimalTextFacts.length_app in L.
  destruct Harrow as [-> | [-> | ->]]; cbn in L; [|lia|lia].
  destruct a as [|c1 [|c2 [|c3 a]]]; cbn in L; try lia.
  cbv [append] in E. congruence.
Qed.

(** The token change is the sentinel exactly when the baseline total is
    falsy: absent, zero, NaN or empty text.  The second test of the guard,
    against the number zero, never decides. *)
Theorem token_change_sentinel (testVal baselineVal : value) :
  calculateChange h testVal baselineVal = "N/A" <-> truthy baselineVal = false.
Proof.
  unfold calculateChange. destruct (truthy baselineVal) eqn:T; cbn [negb orb].
  - assert (Z : strict_eq_zero baselineVal = false).
    { destruct baselineVal as [| | |n| | |]; try reflexivity.
      destruct n as [q| | |]; try reflexivity.
      cbn in T |- *. now destruct (Qeq_bool q 0). }
    rewrite Z. split; [|discriminate].
    intros E. exfalso. revert E. apply percent_not_sentinel.
    unfold calculateChange_arrow.
    destruct (negb _); [destruct (ngtb _ _)|]; auto.
  - split; reflexivity.
Qed.

End Render.

(** In [patchy_metrics] the third run is still running: two runs are kept and
    the warning is on. *)
Lemma warning_iff_dropped_example :
  completeTestRuns patchy_metrics = Ok patchy_complete /\
  hasIncompleteRuns patchy_metrics = Ok true.
Proof.
  split; [reflexivity|].
  exact (warning_iff_dropped patchy_metrics patchy_complete eq_refl).
Defined.

(** Scenario D with the status the component tests for: the four tables are
    those of run-1 and run-2, and the warning is on for run-3. *)
Lemma partition_scenario_D :
  exists view,
    render example_host false ["run-1"; "run-2"; "run-3"]
      (VObj [("metrics", scenario_D_tested); ("configs", VNull)]) =
      Ok (Comparison view) /\
    incompleteWarning view = true /\
    costTable example_host
      [("run-1", run_with_costs "COMPLETE" (num 10) (num 8));
       ("run-2", run_with_costs "COMPLETE" (num 5) (num 4))] = Ok (cost view).
Proof.
  destruct (render example_host false ["run-1"; "run-2"; "run-3"]
              (VObj [("metrics", scenario_D_tested); ("configs", VNull)]))
    as [[| |msg|view]|e] eqn:R; try (vm_compute in R; discriminate R).
  exists view. split; [reflexivity|].
  destruct (partition_by_status example_host false _ _ view R)
    as (Hw & _ & _ & Hc & _).
  split; [|exact Hc].
  apply Hw. exists ("run-3", run_with_costs "FAILED" VUndefined VUndefined).
  split; [right; right; left; reflexivity | reflexivity].
Defined.

(** A complete run next to a run that is [null]. *)
Lemma unreadable_run_example :
  render example_host false ["run-1"; "run-2"]
    (VObj [("metrics",
            VObj [("run-1", run_with_costs "COMPLETE" (num 10) (num 8));
                  ("run-2", VNull)]);
           ("configs", VArr [])]) = Throw TypeError.
Proof.
  apply (unreadable_run_aborts_render example_host).
  - reflexivity.
  - reflexivity.
  - apply Exists_cons_tl, Exists_cons_hd. reflexivity.
Defined.

(** Scenario D as the component receives it: no run has the status it looks
    for. *)
Lemma render_scenario_D :
  render example_host false ["run-1"; "run-2"; "run-3"]
    (VObj [("metrics", scenario_D); ("configs", VNull)]) =
  Ok (Comparison
        {| configuration := OnlyForTwoRuns 3;
           incompleteWarning := true;
           performance := Placeholder "No completed test runs available";
           accuracy := Placeholder "No completed test runs available";
           cost := Placeholder "No cost data available";
           usage := Placeholder "No completed test runs available" |}).
Proof.
  exact (render_without_complete_runs example_host ["run-1"; "run-2"; "run-3"]
           (VObj [("metrics", scenario_D); ("configs", VNull)])
           eq_refl eq_refl eq_refl).
Defined.

End RenderFacts.

(** ** The fetch effect *)

Module FetchFacts.
Import JS TestComparison Fetch.

Lemma get_set_assoc (k k' : string) (v : value) (l : list (string * value)) :
  assoc k' (set_assoc k v l) = if String.eqb k' k then v else assoc k' l.
Proof.
  induction l as [|[k0 v0] l IH]; cbn [set_assoc assoc].
  - destruct (String.eqb k' k); reflexivity.
  - destruct (String.eqb_spec k k0) as [->|Hk]; cbn [assoc].
    + destruct (String.eqb k' k0); reflexivity.
    + rewrite IH. destruct (String.eqb_spec k' k0) as [->|Hk'].
      * destruct (String.eqb_spec k0 k) as [E|_]; [|reflexivity]. now subst.
      * reflexivity.
Qed.

Section Effect.

Variable h : Host.
Variable message : error -> string.

Lemma render_error_object (ids : list string) (msg : value) :
  render h false ids (VObj [("error", msg)]) =
  if truthy msg then Ok (ErrorBox msg)
  else
    Ok (Comparison
          {| configuration := configSection h ids VUndefined;
             incompleteWarning := false;
             performance := Placeholder "No completed test runs available";
             accuracy := Placeholder "No completed test runs available";
             cost := Placeholder "No cost data available";
             usage := Placeholder "No completed test runs available" |}).
Proof.
  destruct (truthy msg) eqn:T.
  - unfold render, prop. cbn [truthy negb nullish bind get own_entries assoc].
    change (String.eqb "error" "error") with true. cbv iota. now rewrite T.
  - unfold render, prop. cbn [truthy negb nullish bind get own_entries assoc].
    change (String.eqb "error" "error") with true. cbv iota. now rewrite T.
Qed.

(** An answer whose metrics arrive as JSON text is stored with the parsed
    metrics in their place and every other member as received, and the
    loading flag is off. *)
Theorem parsed_metrics_stored (ids : list string) (result : value)
    (fields : list (string * value)) (s : string) (m : value) (st : state) :
  (2 <= List.length ids)%nat ->
  opt_prop (opt_prop result "data") "compareTestRuns" = VObj fields ->
  assoc "metrics" fields = VStr s ->
  JSON_parse h s = Some m ->
  comparing (fetchComparison h message ids (Resolved result) st) = false /\
  forall k,
    get (comparisonData (fetchComparison h message ids (Resolved result) st)) k =
    if String.eqb k "metrics" then m else assoc k fields.
Proof.
  intros Hids Hd Hm Hp. unfold fetchComparison.
  rewrite (proj2 (Nat.leb_le _ _) Hids).
  assert (Hr : prop result "data" = Ok (get result "data") /\
               prop (get result "data") "compareTestRuns" =
               Ok (opt_prop (opt_prop result "data") "compareTestRuns")).
  { apply ComparisonFacts.opt_chain_prop. now rewrite Hd. }
  destruct Hr as [Hr1 Hr2]. rewrite Hd in Hr2.
  unfold received. rewrite Hr1. cbn [bind]. rewrite Hr2. cbn [bind].
  unfold prop. cbn [nullish bind]. unfold get. cbn [own_entries]. rewrite Hm, Hp.
  split; [reflexivity|]. intros k. cbn [comparisonData own_entries].
  apply get_set_assoc.
Qed.

(** An answer that cannot be used (no data, no comparison in it, or metrics
    text that does not parse) always ends in the error box, with the message
    of the error the engine raised, or the fixed text when that is empty. *)
Theorem unusable_answer_shows_error (ids : list string) (result : value)
    (e : error) (st : state) :
  (2 <= List.length ids)%nat ->
  received h result = Throw e ->
  screenAfter h message ids (Resolved result) st =
  Ok (ErrorBox (VStr (if String.eqb (message e) "" then "Error comparing test runs"
                      else message e))).
Proof.
  intros Hids Hr. unfold screenAfter, fetchComparison.
  rewrite (proj2 (Nat.leb_le _ _) Hids), Hr. cbn [comparing comparisonData].
  unfold errorMessage, thrown, prop.
  cbn [nullish bind get own_entries assoc negb andb].
  change (String.eqb "errors" "message") with false.
  change (String.eqb "message" "message") with true. cbv iota.
  cbn [nullish negb andb].
  rewrite render_error_object. unfold js_or. cbn [truthy].
  destruct (String.eqb (message e) "") eqn:E; cbn [negb truthy].
  - reflexivity.
  - now rewrite E.
Qed.

(** After a rejected query the screen is the error box with the message kept
    from the rejection; only a message that is empty (or otherwise falsy)
    leaves an empty comparison on the screen instead. *)
Theorem rejected_query_screen (ids : list string) (reason msg : value) (st : state) :
  (2 <= List.length ids)%nat ->
  errorMessage h reason = Ok msg ->
  screenAfter h message ids (Rejected reason) st =
  if truthy msg then Ok (ErrorBox msg)
  else
    Ok (Comparison
          {| configuration := configSection h ids VUndefined;
             incompleteWarning := false;
             performance := Placeholder "No completed test runs available";
             accuracy := Placeholder "No completed test runs available";
             cost := Placeholder "No cost data available";
             usage := Placeholder "No completed test runs available" |}).
Proof.
  intros Hids Hm. unfold screenAfter, fetchComparison.
  rewrite (proj2 (Nat.leb_le _ _) Hids), Hm. cbn [comparing comparisonData].
  apply render_error_object.
Qed.

End Effect.

Lemma parsed_metrics_example :
  comparing (fetchComparison parsing_host example_message ["run-1"; "run-2"]
               (Resolved text_answer) idle) = false /\
  forall k,
    get (comparisonData (fetchComparison parsing_host example_message ["run-1"; "run-2"]
                           (Resolved text_answer) idle)) k =
    if String.eqb k "metrics" then VObj []
    else assoc k [("metrics", VStr "{}"); ("configs", VArr [])].
Proof.
  apply (parsed_metrics_stored parsing_host example_message ["run-1"; "run-2"]
           text_answer [("metrics", VStr "{}"); ("configs", VArr [])] "{}" (VObj []) idle).
  - cbn. lia.
  - reflexivity.
  - reflexivity.
  - reflexivity.
Defined.

Lemma unusable_answer_example :
  screenAfter example_host example_message ["run-1"; "run-2"] (Resolved empty_answer) idle =
  Ok (ErrorBox (VStr "Cannot read properties of null")).
Proof.
  apply (unusable_answer_shows_error example_host example_message ["run-1"; "run-2"]
           empty_answer TypeError idle).
  - cbn. lia.
  - reflexivity.
Defined.

Lemma rejected_query_example :
  screenAfter example_host example_message ["run-1"; "run-2"] (Rejected two_errors) idle =
  Ok (ErrorBox (VStr "Unauthorized; Timeout")).
Proof.
  apply (rejected_query_screen example_host example_message ["run-1"; "run-2"]
           two_errors (VStr "Unauthorized; Timeout") idle).
  - cbn. lia.
  - reflexivity.
Defined.

End FetchFacts.

(** * Properties of the run orchestration *)

Module OrchestrationFacts.
Import Orchestration.

(** *** The single-flight invariant *)

Lemma canAdmit_all_terminal (s : Store) :
  canAdmit s = true ->
  forall i r, s !! i = Some r -> active (status r) = false.
Proof.
  intros Hc i r Hl. destruct (active (status r)) eqn:A; [|reflexivity].
  exfalso. unfold canAdmit in Hc.
  assert (Hin : In r (listActive s)).
  { apply filter_In. split; [|exact A].
    apply in_map_iff. exists (i, r). split; [reflexivity|].
    apply list_elem_of_In, elem_of_map_to_list. exact Hl. }
  destruct (listActive s); [contradiction | discriminate].
Qed.

Lemma create_written (r : TestRun) (s s' : Store) :
  create r s = Written s' ->
  s !! testRunId r = None /\ canAdmit s = true /\ s' = <[testRunId r := r]> s.
Proof.
  unfold create. destruct (s !! testRunId r); [discriminate|].
  destruct (canAdmit s); [|discriminate]. intros [= <-]. auto.
Qed.

Lemma updateStatus_written (id : string) (expected new : Status) (f : fields)
    (now : nat) (s s' : Store) :
  updateStatus id expected new f now s = Written s' ->
  exists r, s !! id = Some r /\ status r = expected /\
            (terminal (status r) = true -> active new = false) /\
            s' = <[id := with_status new now (with_fields f r)]> s.
Proof.
  unfold updateStatus. destruct (s !! id) as [r|]; [|discriminate].
  destruct (terminal (status r) && active new) eqn:G; [discriminate|].
  destruct (Status_eqb (status r) expected) eqn:E; [|discriminate].
  intros [= <-]. exists r. split; [reflexivity|].
  split; [now apply Status_eqb_eq|]. split; [|reflexivity].
  intros T. rewrite T in G. exact G.
Qed.

Lemma create_single_flight (r : TestRun) (s : Store) :
  single_flight s -> single_flight (after (create r s) s).
Proof.
  intros Hs. destruct (create r s) as [s'| |] eqn:C; simpl; try exact Hs.
  apply create_written in C as (Hfresh & Hadm & ->).
  intros i j ri rj Hi Hj Ai Aj.
  destruct (decide (testRunId r = i)) as [<-|Ni];
    destruct (decide (testRunId r = j)) as [<-|Nj]; [reflexivity| | |].
  - rewrite lookup_insert_ne in Hj by exact Nj.
    pose proof (canAdmit_all_terminal s Hadm j rj Hj). congruence.
  - rewrite lookup_insert_ne in Hi by exact Ni.
    pose proof (canAdmit_all_terminal s Hadm i ri Hi). congruence.
  - rewrite lookup_insert_ne in Hi by exact Ni.
    rewrite lookup_insert_ne in Hj by exact Nj. eauto.
Qed.

Lemma updateStatus_single_flight (id : string) (expected new : Status) (f : fields)
    (now : nat) (s : Store) :
  single_flight s -> single_flight (after (updateStatus id expected new f now s) s).
Proof.
  intros Hs. destruct (updateStatus id expected new f now s) as [s'| |] eqn:U;
    simpl; try exact Hs.
  apply updateStatus_written in U as (r & Hr & _ & Hterm & ->).
  assert (Hold : forall r', <[id := with_status new now (with_fields f r)]> s !! id = Some r' ->
                            active (status r') = true -> active (status r) = true).
  { intros r' Hl A. rewrite lookup_insert_eq in Hl. injection Hl as <-. simpl in A.
    unfold active. destruct (terminal (status r)) eqn:T; [|reflexivity].
    rewrite (Hterm eq_refl) in A. discriminate. }
  intros i j ri rj Hi Hj Ai Aj.
  destruct (decide (id = i)) as [<-|Ni]; destruct (decide (id = j)) as [<-|Nj];
    [reflexivity| | |].
  - rewrite lookup_insert_ne in Hj by exact Nj.
    exact (Hs id j r rj Hr Hj (Hold ri Hi Ai) Aj).
  - rewrite lookup_insert_ne in Hi by exact Ni.
    exact (Hs i id ri r Hi Hr Ai (Hold rj Hj Aj)).
  - rewrite lookup_insert_ne in Hi by exact Ni.
    rewrite lookup_insert_ne in Hj by exact Nj. eauto.
Qed.

Lemma apply_write_single_flight (w : write) (s : Store) :
  single_flight s -> single_flight (apply_write w s).
Proof.
  destruct w; simpl; [apply create_single_flight | apply updateStatus_single_flight].
Qed.

Lemma apply_writes_single_flight (ws : list write) (s : Store) :
  single_flight s -> single_flight (apply_writes ws s).
Proof.
  revert s. induction ws as [|w ws IH]; intros s Hs; simpl; [exact Hs|].
  apply IH. now apply apply_write_single_flight.
Qed.

Lemma empty_single_flight : single_flight ∅.
Proof. intros i j ri rj Hi. rewrite lookup_empty in Hi. discriminate. Qed.

Section Executions.

Variable matching_files : string -> nat.
Variable input_bucket baseline_bucket tracking_table : string.
Variable copy : QueueMessage -> option string.

Local Abbreviation step' := (step matching_files input_bucket baseline_bucket tracking_table).
Local Abbreviation run' := (run matching_files input_bucket baseline_bucket tracking_table).
Local Abbreviation submit' := (submit matching_files input_bucket baseline_bucket tracking_table).

(** Every event is at most one write to the store. *)
Lemma step_as_writes (now : nat) (ev : event) (s : Store) :
  exists ws, step' now ev s = apply_writes ws s.
Proof.
  destruct ev as [sets tid|id|id|id err|id|id e m|id err]; simpl.
  - unfold submit. destruct (sets !! tid) as [ts|]; [|now exists []].
    destruct (canAdmit s); [|now exists []].
    destruct (create _ s) as [s'| |] eqn:C; try now exists [].
    eexists [Create _]. simpl. now rewrite C.
  - unfold completeEmpty. destruct (s !! id) as [r|]; [|now exists []].
    destruct (Nat.eqb (filesCount r) 0); [|now exists []].
    now eexists [Update _ _ _ _ _].
  - now eexists [Update _ _ _ _ _].
  - now eexists [Update _ _ _ _ _].
  - now eexists [Update _ _ _ _ _].
  - now eexists [Update _ _ _ _ _].
  - unfold failRun. destruct (s !! id) as [r|]; [|now exists []].
    destruct (terminal (status r)); [now exists []|].
    now eexists [Update _ _ _ _ _].
Qed.

Lemma step_single_flight (now : nat) (ev : event) (s : Store) :
  single_flight s -> single_flight (step' now ev s).
Proof.
  intros Hs. destruct (step_as_writes now ev s) as [ws ->].
  now apply apply_writes_single_flight.
Qed.

Lemma run_single_flight (evs : list (nat * event)) (s : Store) :
  single_flight s -> single_flight (run' evs s).
Proof.
  revert s. induction evs as [|[now ev] evs IH]; intros s Hs; simpl; [exact Hs|].
  apply IH. now apply step_single_flight.
Qed.

(** Handling a message is a run of at most two events: the completion of a
    run without files, or the pick-up and then the outcome of the copy. *)
Lemma processMessage_as_run (now : nat) (msg : QueueMessage) (s : Store) :
  exists evs, processMessage copy now msg s = run' evs s.
Proof.
  unfold processMessage.
  destruct (s !! msgTestRunId msg) as [r|]; [|now exists []].
  destruct (terminal (status r)); [now exists []|].
  destruct (Nat.eqb (filesCount r) 0);
    [now exists [(now, CompleteEmpty (msgTestRunId msg))]|].
  destruct (updateStatus (msgTestRunId msg) QUEUED PROCESSING no_fields now s)
    as [s1| |] eqn:U; try now exists [].
  destruct (copy msg) as [err|].
  - exists [(now, PickUp (msgTestRunId msg)); (now, CopyFailed (msgTestRunId msg) err)].
    simpl. now rewrite U.
  - exists [(now, PickUp (msgTestRunId msg)); (now, CopyDone (msgTestRunId msg))].
    simpl. now rewrite U.
Qed.

(** *** Status transitions *)

Lemma moves_refl (o : option Status) : moves o o.
Proof. destruct o; simpl; auto. Qed.

Lemma updateStatus_moves (id : string) (expected new : Status) (f : fields)
    (now : nat) (s : Store) (i : string) :
  permitted expected new ->
  moves (status_of s i) (status_of (after (updateStatus id expected new f now s) s) i).
Proof.
  intros Hp. destruct (updateStatus id expected new f now s) as [s'| |] eqn:U;
    simpl; try apply moves_refl.
  apply updateStatus_written in U as (r & Hr & He & _ & ->).
  unfold status_of. destruct (decide (id = i)) as [<-|Ni].
  - rewrite lookup_insert_eq, Hr. simpl. right. now rewrite He.
  - rewrite lookup_insert_ne by exact Ni. apply moves_refl.
Qed.

(** The completion of a run without files is the one write that is not a
    permitted move. *)
Lemma completeEmpty_moves (id : string) (now : nat) (s : Store) (i : string) :
  moves (status_of s i) (status_of (after (completeEmpty id now s) s) i) \/
  (files_of s i = Some 0%nat /\ status_of s i = Some QUEUED /\
   status_of (after (completeEmpty id now s) s) i = Some COMPLETED).
Proof.
  unfold completeEmpty. destruct (s !! id) as [r|] eqn:Hr; [|left; apply moves_refl].
  destruct (Nat.eqb_spec (filesCount r) 0) as [F|F]; [|left; apply moves_refl].
  destruct (updateStatus id QUEUED COMPLETED no_fields now s) as [s'| |] eqn:U;
    simpl; try (left; apply moves_refl).
  apply updateStatus_written in U as (r' & Hr' & He & _ & ->).
  assert (r' = r) as -> by congruence.
  unfold status_of, files_of. destruct (decide (id = i)) as [<-|Ni].
  - right. rewrite lookup_insert_eq, Hr. simpl. rewrite F, He. auto.
  - left. rewrite lookup_insert_ne by exact Ni. apply moves_refl.
Qed.

Lemma step_moves (now : nat) (ev : event) (s : Store) (i : string) :
  moves (status_of s i) (status_of (step' now ev s) i) \/
  (files_of s i = Some 0%nat /\ status_of s i = Some QUEUED /\
   status_of (step' now ev s) i = Some COMPLETED).
Proof.
  destruct ev as [sets tid|id|id|id err|id|id e m|id err]; simpl;
    [left| apply completeEmpty_moves |left|left|left|left|left].
  - unfold submit. destruct (sets !! tid) as [ts|]; [|apply moves_refl].
    destruct (canAdmit s); [|apply moves_refl].
    destruct (create _ s) as [s'| |] eqn:C; try apply moves_refl.
    apply create_written in C as (Hfresh & _ & ->). simpl in *.
    unfold status_of. destruct (decide (newRunId (setName ts) now = i)) as [<-|Ni].
    + now rewrite lookup_insert_eq, Hfresh.
    + rewrite lookup_insert_ne by exact Ni. apply moves_refl.
  - apply updateStatus_moves. now left.
  - apply updateStatus_moves. right. auto.
  - apply updateStatus_moves. now left.
  - apply updateStatus_moves. left. now destruct e.
  - unfold failRun. destruct (s !! id) as [r|] eqn:Hr; [|apply moves_refl].
    destruct (terminal (status r)) eqn:T; [apply moves_refl|].
    apply updateStatus_moves. right. auto.
Qed.

Lemma permitted_rank (a b : Status) : permitted a b -> (rank a <= rank b)%nat.
Proof.
  intros [H | [_ ->]]; [unfold next_in_order in H; lia | destruct a; simpl; lia].
Qed.

Lemma run_rank (evs : list (nat * event)) (s : Store) (i : string) (a : Status) :
  status_of s i = Some a ->
  exists b, status_of (run' evs s) i = Some b /\ (rank a <= rank b)%nat.
Proof.
  revert s a. induction evs as [|[now ev] evs IH]; intros s a Ha; simpl.
  - exists a. split; [exact Ha | lia].
  - destruct (step_moves now ev s i) as [Hm | (_ & Hq & Hb)].
    + rewrite Ha in Hm.
      destruct (status_of (step' now ev s) i) as [b|] eqn:Hb; simpl in Hm;
        [|contradiction].
      destruct (IH _ _ Hb) as [c [Hc Hle]]. exists c. split; [exact Hc|].
      destruct Hm as [<- | Hp]; [exact Hle|].
      pose proof (permitted_rank _ _ Hp). lia.
    + destruct (IH _ _ Hb) as [c [Hc Hle]]. exists c. split; [exact Hc|].
      assert (a = QUEUED) as -> by congruence. simpl. lia.
Qed.

(** Every arrow of the documented flow is a path of permitted moves: the
    arrow from QUEUED to RUNNING passes through PROCESSING. *)
Lemma documented_flow_permitted (a b : Status) :
  In (a, b) documented_flow -> tc permitted a b.
Proof.
  intros [[= <- <-] | [[= <- <-] | [[= <- <-] | []]]].
  - apply (tc_l _ _ PROCESSING); [now left | apply tc_once; now left].
  - apply tc_once. now left.
  - apply tc_once. now left.
Qed.

(** A run that is terminal stays as it is. *)
Lemma terminal_is_final (a b : Status) :
  terminal a = true -> permitted a b -> False.
Proof.
  intros T [H | [F _]]; [|congruence].
  unfold next_in_order in H. destruct a, b; simpl in *; try discriminate; lia.
Qed.

End Executions.

(** C4, with the boundary of section 8: between two consecutive stores of an
    execution the status of a run identifier either stays the same, or moves
    to the next status along QUEUED < PROCESSING < RUNNING < {COMPLETED,
    FAILED}, or jumps from a non-terminal status to FAILED, or, for a run
    without files only, passes from QUEUED straight to COMPLETED; a new
    identifier starts as QUEUED and an identifier never disappears; hence
    over any execution the statuses an identifier takes never decrease in
    that order. *)
Theorem status_moves_forward :
  forall matching_files input_bucket baseline_bucket tracking_table,
    (forall now ev (s : Store) id,
        moves (status_of s id)
              (status_of (step matching_files input_bucket baseline_bucket
                               tracking_table now ev s) id) \/
        (files_of s id = Some 0%nat /\ status_of s id = Some QUEUED /\
         status_of (step matching_files input_bucket baseline_bucket
                         tracking_table now ev s) id = Some COMPLETED)) /\
    (forall evs (s : Store) id a,
        status_of s id = Some a ->
        exists b,
          status_of (run matching_files input_bucket baseline_bucket
                         tracking_table evs s) id = Some b /\
          (rank a <= rank b)%nat).
Proof.
  intros mf ib bb tt. split.
  - apply step_moves.
  - apply run_rank.
Qed.

(** C8: once the run a QueueMessage names is COMPLETED or FAILED, handling
    the message again, any number of times and at any times, returns the
    store unchanged. *)
Theorem redelivery_after_terminal (copy : QueueMessage -> option string)
    (msg : QueueMessage) (s : Store) (r : TestRun) (times : list nat) :
  s !! msgTestRunId msg = Some r ->
  terminal (status r) = true ->
  fold_left (fun s' now => processMessage copy now msg s') times s = s.
Proof.
  intros Hr T. induction times as [|now times IH]; simpl; [reflexivity|].
  unfold processMessage at 2. rewrite Hr, T. exact IH.
Qed.

(** C3: at most one run in the store holds a non-terminal status (QUEUED,
    PROCESSING or RUNNING): this holds after any sequence of creations and
    status updates starting from the empty store, it is preserved by every
    creation and every status update whatever their arguments, and so it
    holds throughout every execution of the services and is preserved by the
    handling of a message. *)
Theorem single_flight_invariant :
  (forall ws : list write, single_flight (apply_writes ws ∅)) /\
  (forall (w : write) (s : Store), single_flight s -> single_flight (apply_write w s)) /\
  (forall matching_files input_bucket baseline_bucket tracking_table
          (evs : list (nat * event)),
      single_flight
        (run matching_files input_bucket baseline_bucket tracking_table evs ∅)) /\
  (forall copy now msg (s : Store),
      single_flight s -> single_flight (processMessage copy now msg s)).
Proof.
  split; [|split; [|split]].
  - intros ws. apply apply_writes_single_flight, empty_single_flight.
  - apply apply_write_single_flight.
  - intros mf ib bb tt evs. apply run_single_flight, empty_single_flight.
  - intros copy now msg s Hs.
    destruct (processMessage_as_run (fun _ => O) "" "" "" copy now msg s) as [evs ->].
    now apply run_single_flight.
Qed.

(** *** Scenarios A and B of the specification *)

Example scenario_A_statuses :
  status_of (example_run (firstn 1 scenario_A) ∅) "invoices-1" = Some QUEUED /\
  filesCount <$> (example_run (firstn 1 scenario_A) ∅ !! "invoices-1") = Some 3%nat /\
  status_of (example_run (firstn 2 scenario_A) ∅) "invoices-1" = Some PROCESSING /\
  status_of (example_run (firstn 3 scenario_A) ∅) "invoices-1" = Some RUNNING /\
  status_of (example_run scenario_A ∅) "invoices-1" = Some COMPLETED /\
  completedAt <$> (example_run scenario_A ∅ !! "invoices-1") = Some (Some 4%nat).
Proof. repeat split; vm_compute; reflexivity. Qed.

Example scenario_B_conflict :
  submit three_files "input" "baseline" "tracking" invoices "invoices" 2
    (example_run (firstn 1 scenario_A) ∅) = RejectedConflict.
Proof. vm_compute. reflexivity. Qed.

(** C4: a run submitted when no file matches is QUEUED and then COMPLETED,
    with no file counted and no error: a move that is neither the next
    status in the order nor a jump to FAILED.  The worker makes it when it
    handles the work order of the run. *)
Lemma zero_files_skip_forward :
  status_of empty_submitted "invoices-1" = Some QUEUED /\
  files_of empty_submitted "invoices-1" = Some 0%nat /\
  status_of empty_completed "invoices-1" = Some COMPLETED /\
  ~ moves (Some QUEUED) (Some COMPLETED) /\
  errorMessage <$> (empty_completed !! "invoices-1") = Some None /\
  processMessage (fun _ => None) 2 invoices_message empty_submitted = empty_completed.
Proof.
  repeat split; try (vm_compute; reflexivity).
  intros [H | [H | [_ H]]]; discriminate H.
Qed.

(** Scenario A from its submission on, obtained from
    [status_moves_forward]: the run stays at or above QUEUED. *)
Lemma status_order_scenario_A :
  exists b,
    status_of (example_run (skipn 1 scenario_A) (example_run (firstn 1 scenario_A) ∅))
              "invoices-1" = Some b /\
    (rank QUEUED <= rank b)%nat.
Proof.
  apply (proj2 (status_moves_forward three_files "input" "baseline" "tracking")
               (skipn 1 scenario_A) (example_run (firstn 1 scenario_A) ∅)
               "invoices-1" QUEUED).
  vm_compute. reflexivity.
Defined.

(** Three redeliveries after scenario A, from [redelivery_after_terminal]. *)
Lemma redelivery_after_scenario_A :
  fold_left (fun s' now => processMessage (fun _ => None) now invoices_message s')
            [5; 6; 7]%nat finished_store = finished_store.
Proof.
  apply (redelivery_after_terminal (fun _ => None) invoices_message finished_store
           finished_run [5; 6; 7]%nat).
  - vm_compute. reflexivity.
  - reflexivity.
Defined.

End OrchestrationFacts.
